(** * Fuzzy similarity and MMR re-ranking of [src/recommender.py]

    A shallow embedding of [FuzzySimilarity] and [FuzzyRecommender]
    together with the properties of the similarity-and-diversification
    engine.

    Modelling conventions.
    - Python floats are exact rationals ([Q]); numerical equality [==] of
      Python is [Qeq].  [np.sqrt] is [np_sqrt] below.
    - A Python [dict] is an association list in insertion order
      (keys are unique in every dict the code builds).
    - A pandas [DataFrame] is the list of its rows in iteration order; a row
      carries [movie_id], [title] and its genre columns.
    - Exceptions are values of [exn], carried by the [result] monad.
    - [list.sort] and [sorted] are stable; with [reverse=True] they keep
      elements of equal key in their original order.  They are modelled by
      a stable insertion sort, the unique stable arrangement for a total
      preorder on keys. *)

From Stdlib Require Import String List ZArith QArith Qminmax Bool Lia Lqa.
From Stdlib Require Import Permutation Sorted.
Import ListNotations.

Local Open Scope Q_scope.

(** ** Exceptions *)

Inductive exn : Type :=
| KeyError (key : string)
| ZeroDivisionError.

Inductive result (A : Type) : Type :=
| Ok (a : A)
| Raise (e : exn).

Arguments Ok {A} a.
Arguments Raise {A} e.

Definition bind {A B : Type} (c : result A) (k : A -> result B) : result B :=
  match c with
  | Ok a => k a
  | Raise e => Raise e
  end.

Notation "x <- c1 ;; c2" := (bind c1 (fun x => c2))
  (at level 61, c1 at next level, right associativity).

(** ** Numbers *)

(** [a < b] on floats, as a boolean. *)
Definition Qltb (a b : Q) : bool :=
  (Qnum a * QDen b <? Qnum b * QDen a)%Z.

(** Python's [min(a, b)]: the first argument unless the second is
    strictly smaller. *)
Definition py_min (a b : Q) : Q := if Qltb b a then b else a.

(** Python's [max(a, b)]: the first argument unless the second is
    strictly larger. *)
Definition py_max (a b : Q) : Q := if Qltb a b then b else a.

(** [np.sqrt] on a non-negative rational, rounded down to a multiple of
    [2^-52]; exact whenever numerator times denominator is a perfect
    square.  No theorem below depends on how the root is rounded. *)
Definition np_sqrt (x : Q) : Q :=
  Z.sqrt (Qnum x * QDen x * 2 ^ 104) # (Qden x * 2 ^ 52).

(** ** Dictionaries *)

Definition dict : Type := list (string * Q).

Fixpoint lookup (d : dict) (k : string) : option Q :=
  match d with
  | [] => None
  | (k', v) :: d' => if String.eqb k' k then Some v else lookup d' k
  end.

(** [d.get(k, default)] *)
Definition get (d : dict) (k : string) (default : Q) : Q :=
  match lookup d k with
  | Some v => v
  | None => default
  end.

(** [d[k]] *)
Definition getitem (d : dict) (k : string) : result Q :=
  match lookup d k with
  | Some v => Ok v
  | None => Raise (KeyError k)
  end.

(** [k in d] *)
Definition contains (d : dict) (k : string) : bool :=
  match lookup d k with
  | Some _ => true
  | None => false
  end.

(** [d[k] = v]: a new key goes last, an old key keeps its place. *)
Fixpoint setitem (d : dict) (k : string) (v : Q) : dict :=
  match d with
  | [] => [(k, v)]
  | (k', v') :: d' =>
      if String.eqb k' k then (k, v) :: d' else (k', v') :: setitem d' k v
  end.

(** ** Lists *)

(** [l[:n]] for any integer [n]: a negative [n] counts from the end. *)
Definition slice_to {A : Type} (l : list A) (n : Z) : list A :=
  if (0 <=? n)%Z then firstn (Z.to_nat n) l
  else firstn (Z.to_nat (Z.of_nat (length l) + n)) l.

(** [l.pop(i)] for [0 <= i < len(l)], as the popped element and the rest. *)
Fixpoint pop {A : Type} (l : list A) (i : nat) : option (A * list A) :=
  match l, i with
  | [], _ => None
  | x :: l', O => Some (x, l')
  | x :: l', S i' =>
      match pop l' i' with
      | Some (y, r) => Some (y, x :: r)
      | None => None
      end
  end.

(** Stable sort by [key], descending ([reverse=True]). *)
Fixpoint insert_desc {A : Type} (key : A -> Q) (x : A) (l : list A) : list A :=
  match l with
  | [] => [x]
  | y :: l' =>
      if Qltb (key x) (key y) then y :: insert_desc key x l' else x :: l
  end.

Definition sort_desc {A : Type} (key : A -> Q) (l : list A) : list A :=
  fold_right (insert_desc key) [] l.

(** [set(labels)] as a duplicate-free list, and the operations used on it. *)
Definition py_set (labels : list string) : list string :=
  nodup string_dec labels.

Definition intersection (s1 s2 : list string) : list string :=
  filter (fun g => existsb (String.eqb g) s2) s1.

(** ** Configuration ([src/config.py]) *)

Module Config.

Definition GENRES : list string :=
  ["unknown"; "Action"; "Adventure"; "Animation";
   "Children's"; "Comedy"; "Crime"; "Documentary";
   "Drama"; "Fantasy"; "Film-Noir"; "Horror";
   "Musical"; "Mystery"; "Romance"; "Sci-Fi";
   "Thriller"; "War"; "Western"]%string.

End Config.

(** ** FuzzySimilarity *)

Module FuzzySimilarity.

(** The loop of [fuzzy_jaccard] over a list of genres, threading
    [(intersection, union)]. *)
Fixpoint jaccard_loop (genres : list string) (user_profile movie_profile : dict)
    (acc : Q * Q) : Q * Q :=
  match genres with
  | [] => acc
  | genre :: rest =>
      if String.eqb genre "unknown" then
        jaccard_loop rest user_profile movie_profile acc
      else
        let user_val := get user_profile genre 0 in
        let movie_val := get movie_profile genre 0 in
        jaccard_loop rest user_profile movie_profile
          (fst acc + py_min user_val movie_val,
           snd acc + py_max user_val movie_val)
  end.

Definition fuzzy_jaccard (user_profile movie_profile : dict) : Q :=
  let '(intersection, union) :=
    jaccard_loop Config.GENRES user_profile movie_profile (0, 0) in
  if Qltb 0 union then intersection / union else 0.

(** The loop of [fuzzy_cosine], threading
    [(dot_product, user_norm, movie_norm)]. *)
Fixpoint cosine_loop (genres : list string) (user_profile movie_profile : dict)
    (acc : Q * Q * Q) : Q * Q * Q :=
  match genres with
  | [] => acc
  | genre :: rest =>
      if String.eqb genre "unknown" then
        cosine_loop rest user_profile movie_profile acc
      else
        let user_val := get user_profile genre 0 in
        let movie_val := get movie_profile genre 0 in
        let '(dot_product, user_norm, movie_norm) := acc in
        cosine_loop rest user_profile movie_profile
          (dot_product + user_val * movie_val,
           user_norm + user_val ^ 2,
           movie_norm + movie_val ^ 2)
  end.

Definition fuzzy_cosine (user_profile movie_profile : dict) : Q :=
  let '(dot_product, user_norm, movie_norm) :=
    cosine_loop Config.GENRES user_profile movie_profile (0, 0, 0) in
  let user_norm := np_sqrt user_norm in
  let movie_norm := np_sqrt movie_norm in
  if Qltb 0 user_norm && Qltb 0 movie_norm
  then dot_product / (user_norm * movie_norm) else 0.

(** The loop of [fuzzy_dice], threading [(intersection, sum_profiles)]. *)
Fixpoint dice_loop (genres : list string) (user_profile movie_profile : dict)
    (acc : Q * Q) : Q * Q :=
  match genres with
  | [] => acc
  | genre :: rest =>
      if String.eqb genre "unknown" then
        dice_loop rest user_profile movie_profile acc
      else
        let user_val := get user_profile genre 0 in
        let movie_val := get movie_profile genre 0 in
        dice_loop rest user_profile movie_profile
          (fst acc + py_min user_val movie_val,
           snd acc + (user_val + movie_val))
  end.

Definition fuzzy_dice (user_profile movie_profile : dict) : Q :=
  let '(intersection, sum_profiles) :=
    dice_loop Config.GENRES user_profile movie_profile (0, 0) in
  if Qltb 0 sum_profiles then (2 * intersection) / sum_profiles else 0.

Definition default_weights : dict :=
  [("jaccard", 4 # 10); ("cosine", 4 # 10); ("dice", 2 # 10)]%string.

(** [weights=None] is [None]; a caller's mapping is [Some w]. *)
Definition hybrid_similarity (user_profile movie_profile : dict)
    (weights : option dict) : result Q :=
  let weights :=
    match weights with
    | None => default_weights
    | Some w => w
    end in
  let jaccard := fuzzy_jaccard user_profile movie_profile in
  let cosine := fuzzy_cosine user_profile movie_profile in
  let dice := fuzzy_dice user_profile movie_profile in
  wj <- getitem weights "jaccard" ;;
  wc <- getitem weights "cosine" ;;
  wd <- getitem weights "dice" ;;
  Ok (wj * jaccard + wc * cosine + wd * dice).

End FuzzySimilarity.

(** ** FuzzyRecommender *)

(** A row of [fuzzy_movies_df]. *)
Record movie_row : Type := {
  movie_id : Z;
  title : string;
  columns : dict
}.

Definition DataFrame : Type := list movie_row.

(** The [user_profile] mapping: keys ['user_id'] and ['profile']. *)
Record user_profile_t : Type := {
  user_id : Z;
  profile : dict
}.

(** An entry of the recommendation list. *)
Record recommendation : Type := {
  rec_movie_id : Z;
  rec_title : string;
  similarity_score : Q;
  genres : list (string * Q)
}.

Module FuzzyRecommender.

Import FuzzySimilarity.

(** [df['movie_id'].isin(user_rated_movies)] for one row. *)
Definition isin (id : Z) (user_rated_movies : list Z) : bool :=
  existsb (Z.eqb id) user_rated_movies.

(** Lines 107-110: the movie profile of a row, over a list of genres. *)
Fixpoint movie_profile_loop (genres : list string) (movie : movie_row)
    (movie_profile : dict) : dict :=
  match genres with
  | [] => movie_profile
  | genre :: rest =>
      if negb (String.eqb genre "unknown") && contains (columns movie) genre
      then movie_profile_loop rest movie
             (setitem movie_profile genre (get (columns movie) genre 0))
      else movie_profile_loop rest movie movie_profile
  end.

Definition build_movie_profile (movie : movie_row) : dict :=
  movie_profile_loop Config.GENRES movie [].

Definition _get_top_movie_genres (movie_profile : dict) (n : Z)
    : list (string * Q) :=
  let sorted_genres := sort_desc (fun x : string * Q => snd x) movie_profile in
  filter (fun gs : string * Q => Qltb (1 # 10) (snd gs))
         (slice_to sorted_genres n).

(** The body of the loop over [unrated_movies.iterrows()]. *)
Definition score_movie (user_preferences : dict) (movie : movie_row)
    : result recommendation :=
  let movie_profile := build_movie_profile movie in
  similarity_score <- hybrid_similarity user_preferences movie_profile None ;;
  Ok {| rec_movie_id := movie_id movie;
        rec_title := title movie;
        similarity_score := similarity_score;
        genres := _get_top_movie_genres movie_profile 3 |}.

Fixpoint score_all (user_preferences : dict) (unrated_movies : list movie_row)
    (recommendations : list recommendation) : result (list recommendation) :=
  match unrated_movies with
  | [] => Ok recommendations
  | movie :: rest =>
      r <- score_movie user_preferences movie ;;
      score_all user_preferences rest (recommendations ++ [r])
  end.

Definition unrated (fuzzy_movies_df : DataFrame) (user_rated_movies : list Z)
    : list movie_row :=
  filter (fun m => negb (isin (movie_id m) user_rated_movies)) fuzzy_movies_df.

Definition generate_recommendations (user_profile : user_profile_t)
    (fuzzy_movies_df : DataFrame) (user_rated_movies : list Z) (top_n : Z)
    : result (list recommendation) :=
  let user_preferences := profile user_profile in
  let unrated_movies := unrated fuzzy_movies_df user_rated_movies in
  recommendations <- score_all user_preferences unrated_movies [] ;;
  let recommendations := sort_desc similarity_score recommendations in
  Ok (slice_to recommendations top_n).

(** Lines 173-176: the genre overlap of a candidate with one selected
    entry; the division raises when both label sets are empty. *)
Definition genre_overlap (selected candidate : recommendation) : result Q :=
  let selected_genres := py_set (map fst (genres selected)) in
  let candidate_genres := py_set (map fst (genres candidate)) in
  let overlap := length (intersection selected_genres candidate_genres) in
  let denom := Nat.max (length selected_genres) (length candidate_genres) in
  if Nat.eqb denom 0 then Raise ZeroDivisionError
  else Ok (inject_Z (Z.of_nat overlap) / inject_Z (Z.of_nat denom)).

(** Lines 170-177: the loop over [diverse_recommendations]. *)
Fixpoint max_similarity_loop (diverse_recommendations : list recommendation)
    (candidate : recommendation) (max_similarity : Q) : result Q :=
  match diverse_recommendations with
  | [] => Ok max_similarity
  | selected :: rest =>
      similarity <- genre_overlap selected candidate ;;
      max_similarity_loop rest candidate (py_max max_similarity similarity)
  end.

(** Lines 165-184: the loop over [enumerate(remaining_recommendations)],
    threading [(best_score, best_index)]; [i] is the running index. *)
Fixpoint best_loop (diversity_factor : Q)
    (diverse_recommendations : list recommendation)
    (remaining : list recommendation) (i : Z) (best : Q * Z) : result (Q * Z) :=
  match remaining with
  | [] => Ok best
  | candidate :: rest =>
      let relevance := similarity_score candidate in
      max_similarity <- max_similarity_loop diverse_recommendations candidate 0 ;;
      let mmr_score := relevance - diversity_factor * max_similarity in
      if Qltb (fst best) mmr_score
      then best_loop diversity_factor diverse_recommendations rest (i + 1)%Z
             (mmr_score, i)
      else best_loop diversity_factor diverse_recommendations rest (i + 1)%Z
             best
  end.

(** Lines 161-189: the [while] loop.  [fuel] bounds the number of
    iterations; [None] means the bound was too small or [pop] got an
    index out of range, neither of which happens ([mmr_loop_total]). *)
Fixpoint mmr_loop (fuel : nat) (top_n : Z) (diversity_factor : Q)
    (diverse_recommendations remaining_recommendations : list recommendation)
    : option (result (list recommendation)) :=
  match fuel with
  | O => None
  | S fuel' =>
      if (Z.of_nat (length diverse_recommendations) <? top_n)%Z
         && negb (Nat.eqb (length remaining_recommendations) 0)
      then
        match best_loop diversity_factor diverse_recommendations
                remaining_recommendations 0%Z (-1, (-1)%Z) with
        | Raise e => Some (Raise e)
        | Ok (_, best_index) =>
            if (0 <=? best_index)%Z then
              match pop remaining_recommendations (Z.to_nat best_index) with
              | Some (chosen, remaining') =>
                  mmr_loop fuel' top_n diversity_factor
                    (diverse_recommendations ++ [chosen]) remaining'
              | None => None
              end
            else Some (Ok diverse_recommendations)
        end
      else Some (Ok diverse_recommendations)
  end.

(** Lines 151-191, on the list returned by [generate_recommendations]. *)
Definition mmr (recommendations : list recommendation) (top_n : Z)
    (diversity_factor : Q) : option (result (list recommendation)) :=
  match recommendations with
  | [] => Some (Ok [])
  | first :: remaining_recommendations =>
      match mmr_loop (S (length remaining_recommendations)) top_n
              diversity_factor [first] remaining_recommendations with
      | Some (Ok diverse_recommendations) =>
          Some (Ok (slice_to diverse_recommendations top_n))
      | other => other
      end
  end.

Definition generate_diverse_recommendations (user_profile : user_profile_t)
    (fuzzy_movies_df : DataFrame) (user_rated_movies : list Z) (top_n : Z)
    (diversity_factor : Q) : option (result (list recommendation)) :=
  match generate_recommendations user_profile fuzzy_movies_df
          user_rated_movies 50 with
  | Raise e => Some (Raise e)
  | Ok recommendations => mmr recommendations top_n diversity_factor
  end.

End FuzzyRecommender.

(** ** The data model's well-formedness *)

(** A fuzzy profile: every membership strength lies in [[0, 1]]. *)
Definition is_fuzzy_profile (p : dict) : bool :=
  forallb (fun kv : string * Q => Qle_bool 0 (snd kv) && Qle_bool (snd kv) 1) p.

(** A fuzzy movie catalog: every row's genre columns form a fuzzy profile. *)
Definition is_fuzzy_catalog (df : DataFrame) : bool :=
  forallb (fun m => is_fuzzy_profile (columns m)) df.

(** ** The specification's formulas *)

Module Spec.

(** The genre set without the sentinel. *)
Definition scored_genres : list string :=
  filter (fun g => negb (String.eqb g "unknown")) Config.GENRES.

(** The strength of a genre in a profile; a missing genre counts 0.0. *)
Definition strength (A : dict) (g : string) : Q := get A g 0.

Definition Qsum (l : list Q) : Q := fold_right Qplus 0 l.

Definition jaccard_num (A B : dict) : Q :=
  Qsum (map (fun g => Qmin (strength A g) (strength B g)) scored_genres).

Definition jaccard_den (A B : dict) : Q :=
  Qsum (map (fun g => Qmax (strength A g) (strength B g)) scored_genres).

(** Section 4.1: sum of minima over sum of maxima, 0.0 on a zero
    denominator. *)
Definition fuzzy_jaccard (A B : dict) : Q :=
  if Qeq_bool (jaccard_den A B) 0 then 0
  else jaccard_num A B / jaccard_den A B.

(** Section 4.4: the scorer called with a pool of 5 times [top_n], then
    the reranker. *)
Definition recommend_diverse_5x (user_profile : user_profile_t)
    (catalog : DataFrame) (exclusions : list Z) (top_n : Z)
    (diversity_factor : Q) : option (result (list recommendation)) :=
  match FuzzyRecommender.generate_recommendations user_profile catalog
          exclusions (5 * top_n) with
  | Raise e => Some (Raise e)
  | Ok pool => FuzzyRecommender.mmr pool top_n diversity_factor
  end.

End Spec.

(** Two results of a similarity agree: the same exception, or numerically
    equal values. *)
Definition result_Qeq (r1 r2 : result Q) : Prop :=
  match r1, r2 with
  | Ok a, Ok b => a == b
  | Raise e1, Raise e2 => e1 = e2
  | _, _ => False
  end.

(** Descending order of keys. *)
Definition desc {A : Type} (key : A -> Q) (a b : A) : Prop := key b <= key a.

(** The entries whose key is numerically [v]. *)
Definition same_key {A : Type} (key : A -> Q) (v : Q) (y : A) : bool :=
  Qeq_bool (key y) v.

(** ** Concrete inputs *)

Module Examples.

(** A mapping with a key for each scored genre, as the profiler and the
    fuzzifier produce them; genres not listed in [likes] get 0.0. *)
Definition full_profile (likes : dict) : dict :=
  map (fun g => (g, get likes g 0)) Spec.scored_genres.

Definition row (id : Z) (name : string) (likes : dict) : movie_row :=
  {| movie_id := id; title := name; columns := full_profile likes |}.

Definition action_movie (id : Z) : movie_row :=
  row id "Action film" [("Action"%string, 9 # 10)].

Definition comedy_movie (id : Z) : movie_row :=
  row id "Comedy film" [("Comedy"%string, 9 # 10)].

(** A movie tagged with no scored genre: every strength is 0.0. *)
Definition untagged_movie (id : Z) : movie_row :=
  row id "Untagged film" [].

Definition action_fan : user_profile_t :=
  {| user_id := 1; profile := full_profile [("Action"%string, 1)] |}.

(** 51 action movies, identifiers 1 to 51. *)
Definition catalog51 : DataFrame :=
  map (fun i => action_movie (Z.of_nat i)) (seq 1 51).

(** Ten action movies followed by one comedy. *)
Definition catalog11 : DataFrame :=
  map (fun i => action_movie (Z.of_nat i)) (seq 1 10) ++ [comedy_movie 11].

(** A profile whose only strength is on the sentinel genre. *)
Definition sentinel_only : dict := [("unknown"%string, 1)].

Definition comedy_romance : dict :=
  [("Comedy"%string, 8 # 10); ("Romance"%string, 6 # 10)].

Definition weights_with_extra_key : dict :=
  [("jaccard"%string, 4 # 10); ("cosine"%string, 4 # 10);
   ("dice"%string, 2 # 10); ("overlap"%string, 1)].

End Examples.

(** ** Loops over the keys of a dictionary *)

(** [for genre in d.keys(): if c(genre): d[genre] = h(genre, d[genre])],
    the shape of the loops that update a dictionary in place. *)
Definition update_where (c : string -> bool) (h : string -> Q -> Q)
    (d : dict) : dict :=
  fold_left
    (fun d genre =>
       if c genre then setitem d genre (h genre (get d genre 0)) else d)
    (map fst d) d.

(** What one pass of [update_where] does to an item. *)
Definition updated (c : string -> bool) (h : string -> Q -> Q)
    (kv : string * Q) : string * Q :=
  (fst kv, if c (fst kv) then h (fst kv) (snd kv) else snd kv).

(** ** GenreFuzzifier ([src/fuzzifier.py]) *)

Module GenreFuzzifier.

(** [_build_genre_relationships] *)
Definition genre_relationships : list (string * dict) :=
  [("Action", [("Adventure", 7 # 10); ("Thriller", 6 # 10); ("Sci-Fi", 5 # 10)]);
   ("Adventure", [("Action", 7 # 10); ("Fantasy", 6 # 10); ("Romance", 4 # 10)]);
   ("Comedy", [("Romance", 8 # 10); ("Drama", 5 # 10); ("Musical", 6 # 10)]);
   ("Drama", [("Romance", 7 # 10); ("Comedy", 5 # 10); ("Thriller", 4 # 10)]);
   ("Romance", [("Drama", 7 # 10); ("Comedy", 8 # 10); ("Musical", 5 # 10)]);
   ("Thriller", [("Action", 6 # 10); ("Mystery", 7 # 10); ("Crime", 8 # 10)]);
   ("Sci-Fi", [("Action", 5 # 10); ("Adventure", 6 # 10); ("Fantasy", 7 # 10)]);
   ("Fantasy", [("Adventure", 6 # 10); ("Sci-Fi", 7 # 10); ("Animation", 5 # 10)]);
   ("Horror", [("Thriller", 6 # 10); ("Mystery", 5 # 10); ("Fantasy", 3 # 10)]);
   ("Mystery", [("Thriller", 7 # 10); ("Crime", 8 # 10); ("Drama", 4 # 10)]);
   ("Crime", [("Thriller", 8 # 10); ("Drama", 6 # 10); ("Mystery", 8 # 10)]);
   ("Animation", [("Children's", 9 # 10); ("Fantasy", 6 # 10); ("Comedy", 7 # 10)]);
   ("Children's", [("Animation", 9 # 10); ("Fantasy", 5 # 10); ("Comedy", 6 # 10)]);
   ("Documentary", [("Drama", 3 # 10)]);
   ("Film-Noir", [("Crime", 7 # 10); ("Drama", 6 # 10); ("Mystery", 6 # 10)]);
   ("Musical", [("Comedy", 6 # 10); ("Romance", 5 # 10); ("Drama", 4 # 10)]);
   ("War", [("Drama", 8 # 10); ("Action", 5 # 10); ("Adventure", 4 # 10)]);
   ("Western", [("Adventure", 7 # 10); ("Action", 5 # 10); ("Drama", 6 # 10)])
  ]%string.

(** [self.genre_relationships[genre]], after [genre in ...]. *)
Fixpoint related_to (relationships : list (string * dict)) (genre : string)
    : option dict :=
  match relationships with
  | [] => None
  | (g, related) :: rest =>
      if String.eqb g genre then Some related else related_to rest genre
  end.

(** [np.random.uniform(low, high)]: the generator's next sample [draw n]
    of the unit interval, scaled, and the advanced generator. *)
Definition uniform (draw : nat -> Q) (n : nat) (low high : Q) : Q * nat :=
  (low + (high - low) * draw n, S n).

(** Lines 54-56: the loop over the related genres, threading the fuzzy
    vector and the generator. *)
Fixpoint related_loop (draw : nat -> Q) (related : dict) (state : dict * nat)
    : dict * nat :=
  match related with
  | [] => state
  | (related_genre, strength) :: rest =>
      if contains (fst state) related_genre
      then related_loop draw rest state
      else
        let '(u, n) := uniform draw (snd state) (2 # 10) (6 # 10) in
        related_loop draw rest
          (setitem (fst state) related_genre (u * strength), n)
  end.

(** Lines 44-59: the loop over the genres. *)
Fixpoint genre_loop (draw : nat -> Q) (genres : list string)
    (genre_vector : dict) (state : dict * nat) : result (dict * nat) :=
  match genres with
  | [] => Ok state
  | genre :: rest =>
      if String.eqb genre "unknown" then
        genre_loop draw rest genre_vector state
      else
        present <- getitem genre_vector genre ;;
        if negb (Qeq_bool present 0) then
          let '(u, n) := uniform draw (snd state) (7 # 10) 1 in
          let fuzzy_vector := setitem (fst state) genre u in
          let state' :=
            match related_to genre_relationships genre with
            | Some related => related_loop draw related (fuzzy_vector, n)
            | None => (fuzzy_vector, n)
            end in
          genre_loop draw rest genre_vector state'
        else
          genre_loop draw rest genre_vector
            (setitem (fst state) genre 0, snd state)
  end.

(** Line 63. *)
Definition clamp (v : Q) : Q := py_min 1 (py_max 0 v).

(** [binary_to_fuzzy(genre_vector)], from generator position [n]: the
    fuzzy vector and the generator position reached. *)
Definition binary_to_fuzzy (draw : nat -> Q) (n : nat) (genre_vector : dict)
    : result (dict * nat) :=
  state <- genre_loop draw Config.GENRES genre_vector ([], n) ;;
  Ok (update_where (fun _ => true) (fun _ v => clamp v) (fst state),
      snd state).

End GenreFuzzifier.

(** What [binary_to_fuzzy] holds for a genre in the end: 0.0 when the
    movie is not tagged with it, a value in [[0.7, 1.0]] when it is. *)
Definition settled (genre_vector fuzzy_vector : dict) (g : string) : Prop :=
  exists tag v,
    lookup genre_vector g = Some tag /\ lookup fuzzy_vector g = Some v
    /\ if Qeq_bool tag 0 then v == 0 else 7 # 10 <= v <= 1.

(** ** FuzzyUserProfiler ([src/user_profiler.py]) *)

(** A row of [ratings_df]. *)
Record rating_row : Type := {
  r_user_id : Z;
  r_movie_id : Z;
  rating : Z;
  timestamp : Z
}.

(** The mapping [create_user_profile] returns. *)
Record profile_record : Type := {
  pr_user_id : Z;
  total_ratings : nat;
  average_rating : Q;
  pr_profile : dict
}.

Module FuzzyUserProfiler.

(** [user_ratings.merge(fuzzy_movies_df, on='movie_id')]: an inner join
    that keeps the order of the ratings. *)
Definition merge (user_ratings : list rating_row) (fuzzy_movies_df : DataFrame)
    : list (rating_row * movie_row) :=
  flat_map
    (fun r =>
       map (fun m => (r, m))
           (filter (fun m => Z.eqb (movie_id m) (r_movie_id r))
                   fuzzy_movies_df))
    user_ratings.

(** Line 28. *)
Definition initial_profile : dict :=
  map (fun genre => (genre, 0))
      (filter (fun genre => negb (String.eqb genre "unknown")) Config.GENRES).

(** Line 35. *)
Definition weight_of (r : rating_row) : Q := (inject_Z (rating r) - 1) / 4.

(** Lines 33-41: the body of the loop over [user_data.iterrows()],
    threading [(user_profile, total_weight)]. *)
Definition add_row (state : dict * Q) (row : rating_row * movie_row)
    : dict * Q :=
  let weight := weight_of (fst row) in
  let user_profile :=
    update_where (contains (columns (snd row)))
      (fun genre v => v + get (columns (snd row)) genre 0 * weight)
      (fst state) in
  (user_profile, snd state + weight).

Definition create_user_profile (user_id : Z) (ratings_df : list rating_row)
    (fuzzy_movies_df : DataFrame) : option profile_record :=
  let user_ratings :=
    filter (fun r => Z.eqb (r_user_id r) user_id) ratings_df in
  if Nat.eqb (length user_ratings) 0 then None
  else
    let user_data := merge user_ratings fuzzy_movies_df in
    let state := fold_left add_row user_data (initial_profile, 0) in
    let total_weight := snd state in
    let user_profile :=
      if Qltb 0 total_weight
      then update_where (fun _ => true) (fun _ v => v / total_weight)
             (fst state)
      else fst state in
    Some {| pr_user_id := user_id;
            total_ratings := length user_ratings;
            average_rating :=
              inject_Z (fold_right Z.add 0%Z (map rating user_ratings))
              / inject_Z (Z.of_nat (length user_ratings));
            pr_profile := user_profile |}.

(** [get_top_genres(user_profile, n)]. *)
Definition get_top_genres (user_profile : profile_record) (n : Z)
    : list (string * Q) :=
  let profile_dict := pr_profile user_profile in
  let sorted_genres :=
    sort_desc (fun x : string * Q => snd x) profile_dict in
  slice_to sorted_genres n.

End FuzzyUserProfiler.

(** The weighted average of section 1, over the joined rows. *)
Module ProfileSpec.

Definition weighted_sum (g : string) (rows : list (rating_row * movie_row))
    : Q :=
  Spec.Qsum (map (fun row => get (columns (snd row)) g 0
                             * FuzzyUserProfiler.weight_of (fst row)) rows).

Definition total_weight (rows : list (rating_row * movie_row)) : Q :=
  Spec.Qsum (map (fun row => FuzzyUserProfiler.weight_of (fst row)) rows).

End ProfileSpec.

(** ** RecommendationEvaluator ([src/evaluator.py]) *)

(** An entry of a recommendation list as the evaluator reads it: the
    keys ['movie_id'] and ['genres'] may each be absent. *)
Record eval_rec : Type := {
  er_movie_id : option Z;
  er_genres : option (list (string * Q))
}.

(** The entries the fuzzy recommender produces carry both keys. *)
Definition as_eval_rec (r : recommendation) : eval_rec :=
  {| er_movie_id := Some (rec_movie_id r); er_genres := Some (genres r) |}.

Module RecommendationEvaluator.

(** [set(ids)] and [s1 & s2] on movie identifiers. *)
Definition id_set (ids : list Z) : list Z := nodup Z.eq_dec ids.

Definition id_intersection (s1 s2 : list Z) : list Z :=
  filter (fun x => existsb (Z.eqb x) s2) s1.

(** [s1 | s2] on genre labels. *)
Definition union (s1 s2 : list string) : list string :=
  s1 ++ filter (fun g => negb (existsb (String.eqb g) s1)) s2.

Definition calculate_precision_at_k (recommended_movies test_movies : list Z)
    (k : Z) : result Q :=
  if Nat.eqb (length recommended_movies) 0 then Ok 0
  else
    let top_k_movies := slice_to recommended_movies k in
    let relevant_count :=
      length (id_intersection (id_set top_k_movies) (id_set test_movies)) in
    if (k =? 0)%Z then Raise ZeroDivisionError
    else Ok (inject_Z (Z.of_nat relevant_count) / inject_Z k).

Definition calculate_recall_at_k (recommended_movies test_movies : list Z)
    (k : Z) : Q :=
  if Nat.eqb (length recommended_movies) 0 then 0
  else
    let top_k_movies := slice_to recommended_movies k in
    let total_relevant := length test_movies in
    if Nat.eqb total_relevant 0 then 0
    else
      let recommended_relevant :=
        length (id_intersection (id_set top_k_movies) (id_set test_movies)) in
      inject_Z (Z.of_nat recommended_relevant)
      / inject_Z (Z.of_nat total_relevant).

(** [rec['movie_id']] *)
Definition get_movie_id (r : eval_rec) : result Z :=
  match er_movie_id r with
  | Some id => Ok id
  | None => Raise (KeyError "movie_id")
  end.

(** Lines 92-102: the sizes of the intersection and of the union of the
    two label sets, or of the two singleton identifier sets when an entry
    lacks ['genres']. *)
Definition pair_sizes (ri rj : eval_rec) : result (nat * nat) :=
  match er_genres ri, er_genres rj with
  | Some gi, Some gj =>
      let genres_i := py_set (map fst gi) in
      let genres_j := py_set (map fst gj) in
      Ok (length (intersection genres_i genres_j),
          length (union genres_i genres_j))
  | _, _ =>
      id_i <- get_movie_id ri ;;
      id_j <- get_movie_id rj ;;
      Ok (if (id_i =? id_j)%Z then (1, 1)%nat else (0, 2)%nat)
  end.

(** Line 103. *)
Definition dissimilarity (sizes : nat * nat) : Q :=
  let '(intersection, union) := sizes in
  if Nat.ltb 0 union
  then 1 - inject_Z (Z.of_nat intersection) / inject_Z (Z.of_nat union)
  else 1.

(** The loop over [j] for a fixed [i], threading
    [(total_pairs, total_dissimilarity)]. *)
Fixpoint inner_loop (ri : eval_rec) (later : list eval_rec) (acc : nat * Q)
    : result (nat * Q) :=
  match later with
  | [] => Ok acc
  | rj :: rest =>
      sizes <- pair_sizes ri rj ;;
      inner_loop ri rest (S (fst acc), snd acc + dissimilarity sizes)
  end.

(** The loop over [i]. *)
Fixpoint outer_loop (recommendations : list eval_rec) (acc : nat * Q)
    : result (nat * Q) :=
  match recommendations with
  | [] => Ok acc
  | ri :: later =>
      acc' <- inner_loop ri later acc ;;
      outer_loop later acc'
  end.

Definition calculate_diversity (recommendations : list eval_rec) : result Q :=
  if Nat.ltb (length recommendations) 2 then Ok 0
  else
    totals <- outer_loop recommendations (0%nat, 0) ;;
    let '(total_pairs, total_dissimilarity) := totals in
    Ok (if Nat.ltb 0 total_pairs
        then total_dissimilarity / inject_Z (Z.of_nat total_pairs)
        else 0).

End RecommendationEvaluator.


(** ** More concrete inputs *)

Module Samples.

Definition catalog3 : DataFrame :=
  [Examples.action_movie 1; Examples.comedy_movie 2; Examples.action_movie 3].

Definition action_only : dict := Examples.full_profile [("Action"%string, 1)].

Definition comedy_only : dict :=
  Examples.full_profile [("Comedy"%string, 9 # 10)].

Definition jaccard_only_weights : dict :=
  [("jaccard"%string, 1); ("cosine"%string, 0); ("dice"%string, 0)].

Definition rec_action : recommendation :=
  {| rec_movie_id := 1; rec_title := "Action film";
     similarity_score := 9 # 10; genres := [("Action"%string, 9 # 10)] |}.

Definition rec_action2 : recommendation :=
  {| rec_movie_id := 2; rec_title := "Another action film";
     similarity_score := 5 # 10; genres := [("Action"%string, 8 # 10)] |}.

Definition rec_comedy : recommendation :=
  {| rec_movie_id := 3; rec_title := "Comedy film";
     similarity_score := 5 # 10; genres := [("Comedy"%string, 9 # 10)] |}.

(** User 1 rated movie 1 with 5 and movie 2 with 3; user 2 rated movie 1
    with 1. *)
Definition ratings : list rating_row :=
  [{| r_user_id := 1; r_movie_id := 1; rating := 5; timestamp := 100 |};
   {| r_user_id := 1; r_movie_id := 2; rating := 3; timestamp := 200 |};
   {| r_user_id := 2; r_movie_id := 1; rating := 1; timestamp := 300 |}].

Definition profile_record1 : profile_record :=
  {| pr_user_id := 1; total_ratings := 2; average_rating := 4;
     pr_profile := Examples.comedy_romance |}.

(** A generator whose every sample is one half. *)
Definition half_draw (n : nat) : Q := 1 # 2.

(** The binary genre vector of a movie tagged Action and Comedy. *)
Definition action_comedy_vector : dict :=
  map (fun g : string =>
         (g, if String.eqb g "Action" || String.eqb g "Comedy"
             then 1 else 0))
      Config.GENRES.

End Samples.

(** * Properties *)

(** ** Comparisons, minimum and maximum *)

Lemma Qltb_lt (a b : Q) : Qltb a b = true <-> a < b.
Proof. unfold Qltb, Qlt. apply Z.ltb_lt. Qed.

Lemma Qltb_ge (a b : Q) : Qltb a b = false <-> b <= a.
Proof. unfold Qltb, Qle. rewrite Z.ltb_ge. reflexivity. Qed.

Lemma Qltb_compat (a a' b b' : Q) :
  a == a' -> b == b' -> Qltb a b = Qltb a' b'.
Proof.
  intros Ha Hb.
  destruct (Qltb a b) eqn:E1, (Qltb a' b') eqn:E2; try reflexivity.
  - apply Qltb_lt in E1. apply Qltb_ge in E2. rewrite Ha, Hb in E1. lra.
  - apply Qltb_ge in E1. apply Qltb_lt in E2. rewrite Ha, Hb in E1. lra.
Qed.

Lemma Qltb_irrefl (a : Q) : Qltb a a = false.
Proof. apply Qltb_ge. lra. Qed.

Lemma py_min_Qmin (a b : Q) : py_min a b == Qmin a b.
Proof.
  unfold py_min. destruct (Qltb b a) eqn:E.
  - apply Qltb_lt in E. symmetry. apply Q.min_r. lra.
  - apply Qltb_ge in E. symmetry. apply Q.min_l. lra.
Qed.

Lemma py_max_Qmax (a b : Q) : py_max a b == Qmax a b.
Proof.
  unfold py_max. destruct (Qltb a b) eqn:E.
  - apply Qltb_lt in E. symmetry. apply Q.max_r. lra.
  - apply Qltb_ge in E. symmetry. apply Q.max_l. lra.
Qed.

Lemma py_min_comm (a b : Q) : py_min a b == py_min b a.
Proof. rewrite !py_min_Qmin. apply Q.min_comm. Qed.

Lemma py_max_comm (a b : Q) : py_max a b == py_max b a.
Proof. rewrite !py_max_Qmax. apply Q.max_comm. Qed.

Lemma py_min_self (a : Q) : py_min a a = a.
Proof. unfold py_min. rewrite Qltb_irrefl. reflexivity. Qed.

Lemma py_max_self (a : Q) : py_max a a = a.
Proof. unfold py_max. rewrite Qltb_irrefl. reflexivity. Qed.

Lemma py_min_nonneg (a b : Q) : 0 <= a -> 0 <= b -> 0 <= py_min a b.
Proof. unfold py_min. destruct (Qltb b a); auto. Qed.

Lemma py_max_ge_l (a b : Q) : a <= py_max a b.
Proof.
  unfold py_max. destruct (Qltb a b) eqn:E.
  - apply Qltb_lt in E. lra.
  - lra.
Qed.

Lemma py_max_ge_r (a b : Q) : b <= py_max a b.
Proof.
  unfold py_max. destruct (Qltb a b) eqn:E.
  - lra.
  - apply Qltb_ge in E. lra.
Qed.

Lemma py_max_cases (a b : Q) : py_max a b = a \/ py_max a b = b.
Proof. unfold py_max. destruct (Qltb a b); auto. Qed.

(** ** Fuzzy profiles *)

Lemma fuzzy_profile_lookup (p : dict) (g : string) (v : Q) :
  is_fuzzy_profile p = true -> lookup p g = Some v -> 0 <= v <= 1.
Proof.
  induction p as [|[k w] p IH]; simpl; intros Hp Hl.
  - discriminate.
  - apply andb_true_iff in Hp. destruct Hp as [Hw Hp].
    destruct (String.eqb k g).
    + inversion Hl; subst. apply andb_true_iff in Hw.
      destruct Hw as [H0 H1]. apply Qle_bool_iff in H0, H1. auto.
    + auto.
Qed.

Lemma fuzzy_profile_get (p : dict) (g : string) :
  is_fuzzy_profile p = true -> 0 <= get p g 0 <= 1.
Proof.
  intros Hp. unfold get. destruct (lookup p g) eqn:E.
  - eapply fuzzy_profile_lookup; eauto.
  - lra.
Qed.

(** ** The similarity loops *)

Section SimilarityLoops.

Import FuzzySimilarity.

Variables A B : dict.

(** [fuzzy_jaccard] through the projections of its accumulator. *)
Lemma fuzzy_jaccard_unfold :
  fuzzy_jaccard A B =
  let acc := jaccard_loop Config.GENRES A B (0, 0) in
  if Qltb 0 (snd acc) then fst acc / snd acc else 0.
Proof.
  unfold fuzzy_jaccard. destruct (jaccard_loop _ _ _ _). reflexivity.
Qed.

Lemma fuzzy_dice_unfold :
  fuzzy_dice A B =
  let acc := dice_loop Config.GENRES A B (0, 0) in
  if Qltb 0 (snd acc) then (2 * fst acc) / snd acc else 0.
Proof.
  unfold fuzzy_dice. destruct (dice_loop _ _ _ _). reflexivity.
Qed.

Lemma fuzzy_cosine_unfold :
  fuzzy_cosine A B =
  let acc := cosine_loop Config.GENRES A B (0, 0, 0) in
  if Qltb 0 (np_sqrt (snd (fst acc))) && Qltb 0 (np_sqrt (snd acc))
  then fst (fst acc) / (np_sqrt (snd (fst acc)) * np_sqrt (snd acc)) else 0.
Proof.
  unfold fuzzy_cosine. destruct (cosine_loop _ _ _ _) as [[d u] m].
  reflexivity.
Qed.

(** The Jaccard loop computes the two sums of the formula. *)
Lemma jaccard_loop_sums (gs : list string) (acc : Q * Q) :
  let keep := filter (fun g => negb (String.eqb g "unknown")) gs in
  fst (jaccard_loop gs A B acc) ==
    fst acc + Spec.Qsum (map (fun g => Qmin (Spec.strength A g) (Spec.strength B g)) keep)
  /\ snd (jaccard_loop gs A B acc) ==
    snd acc + Spec.Qsum (map (fun g => Qmax (Spec.strength A g) (Spec.strength B g)) keep).
Proof.
  revert acc. induction gs as [|g gs IH]; intros acc; cbn [jaccard_loop filter].
  - cbn. split; lra.
  - destruct (String.eqb g "unknown"); cbn [negb].
    + apply IH.
    + pose proof (IH (fst acc + py_min (get A g 0) (get B g 0),
                      snd acc + py_max (get A g 0) (get B g 0))) as H.
      cbv zeta in H. cbn [fst snd] in H. destruct H as [H1 H2].
      cbn [map Spec.Qsum fold_right].
      pose proof (py_min_Qmin (get A g 0) (get B g 0)) as Hmin.
      pose proof (py_max_Qmax (get A g 0) (get B g 0)) as Hmax.
      unfold Spec.strength at 1 2 5 6. unfold Spec.Qsum in H1, H2.
      split; lra.
Qed.

(** Swapping the profiles leaves the Jaccard accumulator numerically
    unchanged. *)
Lemma jaccard_loop_swap (gs : list string) (acc acc' : Q * Q) :
  fst acc == fst acc' -> snd acc == snd acc' ->
  fst (jaccard_loop gs A B acc) == fst (jaccard_loop gs B A acc')
  /\ snd (jaccard_loop gs A B acc) == snd (jaccard_loop gs B A acc').
Proof.
  revert acc acc'. induction gs as [|g gs IH]; intros acc acc' H1 H2;
    cbn [jaccard_loop].
  - auto.
  - destruct (String.eqb g "unknown").
    + auto.
    + apply IH; cbn [fst snd].
      * rewrite H1, (py_min_comm (get A g 0)). reflexivity.
      * rewrite H2, (py_max_comm (get A g 0)). reflexivity.
Qed.

Lemma dice_loop_swap (gs : list string) (acc acc' : Q * Q) :
  fst acc == fst acc' -> snd acc == snd acc' ->
  fst (dice_loop gs A B acc) == fst (dice_loop gs B A acc')
  /\ snd (dice_loop gs A B acc) == snd (dice_loop gs B A acc').
Proof.
  revert acc acc'. induction gs as [|g gs IH]; intros acc acc' H1 H2;
    cbn [dice_loop].
  - auto.
  - destruct (String.eqb g "unknown").
    + auto.
    + apply IH; cbn [fst snd].
      * rewrite H1, (py_min_comm (get A g 0)). reflexivity.
      * rewrite H2. lra.
Qed.

(** Swapping the profiles swaps the two norms of the cosine accumulator
    and keeps the dot product. *)
Lemma cosine_loop_swap (gs : list string) (d d' u m : Q) :
  d == d' ->
  let r := cosine_loop gs A B (d, u, m) in
  let r' := cosine_loop gs B A (d', m, u) in
  fst (fst r) == fst (fst r')
  /\ snd (fst r) = snd r' /\ snd r = snd (fst r').
Proof.
  revert d d' u m. induction gs as [|g gs IH]; intros d d' u m Hd;
    cbn [cosine_loop].
  - cbn. auto.
  - destruct (String.eqb g "unknown").
    + apply IH. exact Hd.
    + apply IH. rewrite Hd. lra.
Qed.

End SimilarityLoops.

(** ** Identity and sign of the measures *)

Section SimilaritySign.

Import FuzzySimilarity.

Lemma jaccard_loop_self (A : dict) (gs : list string) (acc : Q * Q) :
  fst acc = snd acc ->
  fst (jaccard_loop gs A A acc) = snd (jaccard_loop gs A A acc).
Proof.
  revert acc. induction gs as [|g gs IH]; intros acc H; cbn [jaccard_loop].
  - exact H.
  - destruct (String.eqb g "unknown").
    + auto.
    + apply IH. cbn [fst snd]. rewrite py_min_self, py_max_self, H.
      reflexivity.
Qed.

Variables A B : dict.
Hypothesis A_nonneg : forall g, 0 <= get A g 0.
Hypothesis B_nonneg : forall g, 0 <= get B g 0.

Lemma jaccard_loop_mono (gs : list string) (acc : Q * Q) :
  fst acc <= fst (jaccard_loop gs A B acc)
  /\ snd acc <= snd (jaccard_loop gs A B acc).
Proof.
  revert acc. induction gs as [|g gs IH]; intros acc; cbn [jaccard_loop].
  - split; lra.
  - destruct (String.eqb g "unknown").
    + apply IH.
    + destruct (IH (fst acc + py_min (get A g 0) (get B g 0),
                    snd acc + py_max (get A g 0) (get B g 0))) as [H1 H2].
      cbn [fst snd] in H1, H2.
      pose proof (py_min_nonneg _ _ (A_nonneg g) (B_nonneg g)).
      pose proof (py_max_ge_l (get A g 0) (get B g 0)).
      pose proof (A_nonneg g).
      split; lra.
Qed.

(** A scored genre on which [A] is positive makes the union positive. *)
Lemma jaccard_loop_pos (gs : list string) (acc : Q * Q) (g : string) :
  In g gs -> g <> "unknown"%string -> 0 < get A g 0 ->
  snd acc < snd (jaccard_loop gs A B acc).
Proof.
  revert acc. induction gs as [|g' gs IH]; intros acc Hin Hg Hpos.
  - destruct Hin.
  - cbn [jaccard_loop]. destruct (String.eqb g' "unknown") eqn:E.
    + destruct Hin as [->|Hin].
      * apply String.eqb_eq in E. contradiction.
      * auto.
    + destruct Hin as [->|Hin].
      * pose proof (proj2 (jaccard_loop_mono gs
           (fst acc + py_min (get A g 0) (get B g 0),
            snd acc + py_max (get A g 0) (get B g 0)))) as H.
        cbn [snd] in H.
        pose proof (py_max_ge_l (get A g 0) (get B g 0)). lra.
      * pose proof (IH (fst acc + py_min (get A g' 0) (get B g' 0),
                        snd acc + py_max (get A g' 0) (get B g' 0))
                       Hin Hg Hpos) as H.
        cbn [snd] in H.
        pose proof (py_max_ge_l (get A g' 0) (get B g' 0)).
        pose proof (A_nonneg g'). lra.
Qed.

Lemma fuzzy_jaccard_nonneg : 0 <= fuzzy_jaccard A B.
Proof.
  rewrite fuzzy_jaccard_unfold. cbv zeta.
  destruct (Qltb 0 (snd (jaccard_loop Config.GENRES A B (0, 0)))) eqn:E.
  - apply Qltb_lt in E.
    pose proof (proj1 (jaccard_loop_mono Config.GENRES (0, 0))) as H.
    cbn [fst] in H. apply Qle_shift_div_l; [exact E | lra].
  - lra.
Qed.

Lemma dice_loop_mono (gs : list string) (acc : Q * Q) :
  fst acc <= fst (dice_loop gs A B acc).
Proof.
  revert acc. induction gs as [|g gs IH]; intros acc; cbn [dice_loop].
  - lra.
  - destruct (String.eqb g "unknown").
    + apply IH.
    + pose proof (IH (fst acc + py_min (get A g 0) (get B g 0),
                      snd acc + (get A g 0 + get B g 0))) as H.
      cbn [fst] in H.
      pose proof (py_min_nonneg _ _ (A_nonneg g) (B_nonneg g)). lra.
Qed.

Lemma fuzzy_dice_nonneg : 0 <= fuzzy_dice A B.
Proof.
  rewrite fuzzy_dice_unfold. cbv zeta.
  destruct (Qltb 0 (snd (dice_loop Config.GENRES A B (0, 0)))) eqn:E.
  - apply Qltb_lt in E.
    pose proof (dice_loop_mono Config.GENRES (0, 0)) as H.
    cbn [fst] in H. apply Qle_shift_div_l; [exact E | lra].
  - lra.
Qed.

Lemma cosine_loop_mono (gs : list string) (acc : Q * Q * Q) :
  fst (fst acc) <= fst (fst (cosine_loop gs A B acc)).
Proof.
  revert acc. induction gs as [|g gs IH]; intros [[d u] m]; cbn [cosine_loop].
  - lra.
  - destruct (String.eqb g "unknown").
    + apply IH.
    + pose proof (IH (d + get A g 0 * get B g 0,
                      u + get A g 0 ^ 2, m + get B g 0 ^ 2)) as H.
      cbn [fst] in H. cbn [fst].
      pose proof (Qmult_le_0_compat _ _ (A_nonneg g) (B_nonneg g)). lra.
Qed.

Lemma fuzzy_cosine_nonneg : 0 <= fuzzy_cosine A B.
Proof.
  rewrite fuzzy_cosine_unfold. cbv zeta.
  set (acc := cosine_loop Config.GENRES A B (0, 0, 0)).
  destruct (Qltb 0 (np_sqrt (snd (fst acc))) && Qltb 0 (np_sqrt (snd acc)))
    eqn:E.
  - apply andb_true_iff in E. destruct E as [E1 E2].
    apply Qltb_lt in E1, E2.
    pose proof (cosine_loop_mono Config.GENRES (0, 0, 0)) as H.
    cbn [fst] in H. fold acc in H.
    apply Qle_shift_div_l.
    + apply Qmult_lt_0_compat; assumption.
    + lra.
  - lra.
Qed.

Lemma hybrid_similarity_default :
  hybrid_similarity A B None =
  Ok ((4 # 10) * fuzzy_jaccard A B + (4 # 10) * fuzzy_cosine A B
      + (2 # 10) * fuzzy_dice A B).
Proof. reflexivity. Qed.

Lemma hybrid_similarity_nonneg (v : Q) :
  hybrid_similarity A B None = Ok v -> 0 <= v.
Proof.
  rewrite hybrid_similarity_default. intros H. inversion H; subst.
  pose proof fuzzy_jaccard_nonneg. pose proof fuzzy_cosine_nonneg.
  pose proof fuzzy_dice_nonneg. lra.
Qed.

End SimilaritySign.

(** ** Slicing, popping and sorting *)

Section ListOps.

Context {T : Type}.

Lemma slice_to_length (l : list T) (n : Z) :
  (0 <= n)%Z -> length (slice_to l n) = Nat.min (Z.to_nat n) (length l).
Proof.
  intros Hn. unfold slice_to.
  destruct (0 <=? n)%Z eqn:E; [|apply Z.leb_gt in E; lia].
  apply length_firstn.
Qed.

Lemma slice_to_prefix (l : list T) (n : Z) :
  exists rest, l = slice_to l n ++ rest.
Proof.
  unfold slice_to. destruct (0 <=? n)%Z.
  - exists (skipn (Z.to_nat n) l). symmetry. apply firstn_skipn.
  - exists (skipn (Z.to_nat (Z.of_nat (length l) + n)) l).
    symmetry. apply firstn_skipn.
Qed.

Lemma slice_to_negative (l : list T) (n : Z) :
  (n < 0)%Z ->
  slice_to l n = firstn (length l - Z.to_nat (- n)) l.
Proof.
  intros Hn. unfold slice_to.
  destruct (0 <=? n)%Z eqn:E; [apply Z.leb_le in E; lia|].
  f_equal. lia.
Qed.

Lemma pop_Permutation (l : list T) (i : nat) (x : T) (r : list T) :
  pop l i = Some (x, r) -> Permutation l (x :: r).
Proof.
  revert i x r. induction l as [|y l IH]; intros i x r H.
  - discriminate.
  - destruct i as [|i]; cbn [pop] in H.
    + inversion H; subst. reflexivity.
    + destruct (pop l i) as [[z r']|] eqn:E; [|discriminate].
      inversion H; subst. rewrite (IH _ _ _ E). apply perm_swap.
Qed.

Lemma pop_in_range (l : list T) (i : nat) :
  (i < length l)%nat -> exists x r, pop l i = Some (x, r).
Proof.
  revert i. induction l as [|y l IH]; intros i H; cbn [length] in H.
  - lia.
  - destruct i as [|i]; cbn [pop].
    + eauto.
    + destruct (IH i) as (x & r & E); [lia|]. rewrite E. eauto.
Qed.

Lemma StronglySorted_app_l (R : T -> T -> Prop) (l1 l2 : list T) :
  StronglySorted R (l1 ++ l2) -> StronglySorted R l1.
Proof.
  induction l1 as [|x l1 IH]; cbn; intros H.
  - constructor.
  - inversion H as [|? ? Hs Hf]; subst. constructor; [auto|].
    apply Forall_app in Hf. tauto.
Qed.

Variable key : T -> Q.

Lemma insert_desc_Permutation (x : T) (l : list T) :
  Permutation (x :: l) (insert_desc key x l).
Proof.
  induction l as [|y l IH]; cbn [insert_desc].
  - reflexivity.
  - destruct (Qltb (key x) (key y)).
    + rewrite perm_swap. apply perm_skip. exact IH.
    + reflexivity.
Qed.

Lemma sort_desc_Permutation (l : list T) : Permutation l (sort_desc key l).
Proof.
  induction l as [|x l IH]; cbn [sort_desc fold_right].
  - reflexivity.
  - rewrite <- insert_desc_Permutation. apply perm_skip. exact IH.
Qed.

Lemma sort_desc_length (l : list T) : length (sort_desc key l) = length l.
Proof. symmetry. apply Permutation_length, sort_desc_Permutation. Qed.

Lemma insert_desc_sorted (x : T) (l : list T) :
  StronglySorted (desc key) l -> StronglySorted (desc key) (insert_desc key x l).
Proof.
  induction l as [|y l IH]; intros Hs; cbn [insert_desc].
  - constructor; constructor.
  - inversion Hs as [|? ? Hl Hy]; subst.
    destruct (Qltb (key x) (key y)) eqn:E.
    + apply Qltb_lt in E. constructor; [auto|].
      rewrite Forall_forall. intros z Hz.
      apply (Permutation_in _ (Permutation_sym (insert_desc_Permutation x l)))
        in Hz.
      destruct Hz as [->|Hz].
      * unfold desc. lra.
      * rewrite Forall_forall in Hy. auto.
    + apply Qltb_ge in E. constructor; [exact Hs|].
      constructor; [exact E|].
      rewrite Forall_forall in Hy |- *. intros z Hz.
      specialize (Hy z Hz). unfold desc in *. lra.
Qed.

(** The sorted list is in descending order of keys. *)
Lemma sort_desc_sorted (l : list T) : StronglySorted (desc key) (sort_desc key l).
Proof.
  induction l as [|x l IH]; cbn [sort_desc fold_right].
  - constructor.
  - apply insert_desc_sorted. exact IH.
Qed.

Lemma insert_desc_filter (v : Q) (x : T) (l : list T) :
  filter (same_key key v) (insert_desc key x l) =
  filter (same_key key v) (x :: l).
Proof.
  induction l as [|y l IH]; cbn [insert_desc].
  - reflexivity.
  - destruct (Qltb (key x) (key y)) eqn:E; [|reflexivity].
    apply Qltb_lt in E. cbn [filter] in IH |- *. rewrite IH.
    destruct (same_key key v x) eqn:Ex; [|reflexivity].
    destruct (same_key key v y) eqn:Ey; [|reflexivity].
    unfold same_key in Ex, Ey. apply Qeq_bool_eq in Ex, Ey. lra.
Qed.

(** The sort is stable: the entries of any one key keep their order. *)
Lemma sort_desc_stable (v : Q) (l : list T) :
  filter (same_key key v) (sort_desc key l) =
  filter (same_key key v) l.
Proof.
  induction l as [|x l IH]; cbn [sort_desc fold_right].
  - reflexivity.
  - rewrite insert_desc_filter. cbn [filter]. fold (sort_desc key l).
    rewrite IH. reflexivity.
Qed.

End ListOps.

(** ** The candidate scorer *)

Section Scorer.

Import FuzzySimilarity FuzzyRecommender.

Lemma lookup_setitem (d : dict) (k g : string) (v : Q) :
  lookup (setitem d k v) g = if String.eqb k g then Some v else lookup d g.
Proof.
  induction d as [|[k' w] d IH]; cbn [setitem lookup].
  - destruct (String.eqb k g); reflexivity.
  - destruct (String.eqb k' k) eqn:E; cbn [lookup].
    + apply String.eqb_eq in E. subst k'.
      destruct (String.eqb k g); reflexivity.
    + rewrite IH. destruct (String.eqb k' g) eqn:E'; [|reflexivity].
      apply String.eqb_eq in E'. subst k'.
      rewrite String.eqb_sym, E. reflexivity.
Qed.

Lemma movie_profile_loop_nonneg (gs : list string) (movie : movie_row)
    (mp : dict) :
  is_fuzzy_profile (columns movie) = true ->
  (forall g, 0 <= get mp g 0) ->
  forall g, 0 <= get (movie_profile_loop gs movie mp) g 0.
Proof.
  intros Hm. revert mp.
  induction gs as [|g' gs IH]; intros mp Hmp g; cbn [movie_profile_loop].
  - apply Hmp.
  - destruct (negb (String.eqb g' "unknown") && contains (columns movie) g').
    + apply IH. intros g0. unfold get at 1. rewrite lookup_setitem.
      destruct (String.eqb g' g0).
      * apply (fuzzy_profile_get _ g' Hm).
      * apply Hmp.
    + apply IH. exact Hmp.
Qed.

Lemma build_movie_profile_nonneg (movie : movie_row) :
  is_fuzzy_profile (columns movie) = true ->
  forall g, 0 <= get (build_movie_profile movie) g 0.
Proof.
  intros Hm. apply movie_profile_loop_nonneg; [exact Hm|].
  intros g. cbn. lra.
Qed.

(** The entry the scorer builds for a row. *)
Lemma score_movie_ok (prefs : dict) (movie : movie_row) :
  exists r, score_movie prefs movie = Ok r
            /\ rec_movie_id r = movie_id movie
            /\ rec_title r = title movie.
Proof.
  unfold score_movie. rewrite hybrid_similarity_default. cbn [bind].
  eexists. split; [reflexivity|]. split; reflexivity.
Qed.

Lemma score_movie_nonneg (prefs : dict) (movie : movie_row)
    (r : recommendation) :
  is_fuzzy_profile prefs = true ->
  is_fuzzy_profile (columns movie) = true ->
  score_movie prefs movie = Ok r -> 0 <= similarity_score r.
Proof.
  intros Hp Hm. unfold score_movie.
  destruct (hybrid_similarity prefs (build_movie_profile movie) None)
    as [v|e] eqn:E; cbn [bind]; intros H; inversion H; subst.
  cbn [similarity_score].
  eapply hybrid_similarity_nonneg; [| |exact E].
  - intros g. apply (fuzzy_profile_get _ g Hp).
  - apply build_movie_profile_nonneg. exact Hm.
Qed.

(** Scoring never raises and keeps the catalog's iteration order. *)
Lemma score_all_ok (prefs : dict) (rows : list movie_row)
    (acc : list recommendation) :
  exists scored,
    score_all prefs rows acc = Ok (acc ++ scored)
    /\ Forall2 (fun m r => score_movie prefs m = Ok r) rows scored.
Proof.
  revert acc. induction rows as [|m rows IH]; intros acc; cbn [score_all].
  - exists []. rewrite app_nil_r. split; [reflexivity|constructor].
  - destruct (score_movie_ok prefs m) as (r & Hr & _).
    rewrite Hr. cbn [bind].
    destruct (IH (acc ++ [r])) as (scored & Hs & HF).
    exists (r :: scored). split.
    + rewrite Hs, <- app_assoc. reflexivity.
    + constructor; assumption.
Qed.

Lemma scored_length (prefs : dict) (rows : list movie_row)
    (scored : list recommendation) :
  Forall2 (fun m r => score_movie prefs m = Ok r) rows scored ->
  length scored = length rows.
Proof. intros H. symmetry. eapply Forall2_length; eauto. Qed.

Lemma scored_ids (prefs : dict) (rows : list movie_row)
    (scored : list recommendation) :
  Forall2 (fun m r => score_movie prefs m = Ok r) rows scored ->
  map rec_movie_id scored = map movie_id rows.
Proof.
  induction 1 as [|m r rows scored Hr _ IH]; cbn [map].
  - reflexivity.
  - destruct (score_movie_ok prefs m) as (r' & Hr' & Hid & _).
    rewrite Hr in Hr'. inversion Hr'; subst. rewrite Hid, IH. reflexivity.
Qed.

Lemma scored_nonneg (prefs : dict) (rows : list movie_row)
    (scored : list recommendation) :
  is_fuzzy_profile prefs = true ->
  Forall (fun m => is_fuzzy_profile (columns m) = true) rows ->
  Forall2 (fun m r => score_movie prefs m = Ok r) rows scored ->
  Forall (fun r => 0 <= similarity_score r) scored.
Proof.
  intros Hp Hrows H. induction H as [|m r rows scored Hr _ IH].
  - constructor.
  - inversion Hrows as [|? ? Hm Hrows']; subst. constructor.
    + exact (score_movie_nonneg prefs m r Hp Hm Hr).
    + exact (IH Hrows').
Qed.

(** [generate_recommendations] always returns: the scored rows, sorted,
    cut at [top_n]. *)
Lemma generate_recommendations_ok (up : user_profile_t) (df : DataFrame)
    (rated : list Z) (top_n : Z) :
  exists scored,
    Forall2 (fun m r => score_movie (profile up) m = Ok r)
            (unrated df rated) scored
    /\ generate_recommendations up df rated top_n =
       Ok (slice_to (sort_desc similarity_score scored) top_n).
Proof.
  unfold generate_recommendations.
  destruct (score_all_ok (profile up) (unrated df rated) [])
    as (scored & Hs & HF).
  exists scored. split; [exact HF|].
  rewrite Hs. reflexivity.
Qed.

Lemma unrated_fuzzy (df : DataFrame) (rated : list Z) :
  is_fuzzy_catalog df = true ->
  Forall (fun m => is_fuzzy_profile (columns m) = true) (unrated df rated).
Proof.
  unfold is_fuzzy_catalog, unrated. rewrite forallb_forall, Forall_forall.
  intros H m Hm. apply filter_In in Hm. apply H. tauto.
Qed.

End Scorer.

(** ** The MMR loop *)

Section MMR.

Import FuzzyRecommender.

Lemma intersection_length (s1 s2 : list string) :
  (length (intersection s1 s2) <= length s1)%nat.
Proof. apply filter_length_le. Qed.

(** A genre overlap that is computed lies in [[0, 1]]. *)
Lemma genre_overlap_range (selected candidate : recommendation) (q : Q) :
  genre_overlap selected candidate = Ok q -> 0 <= q <= 1.
Proof.
  unfold genre_overlap.
  set (sg := py_set (map fst (genres selected))).
  set (cg := py_set (map fst (genres candidate))).
  destruct (Nat.eqb (Nat.max (length sg) (length cg)) 0) eqn:E;
    [discriminate|].
  apply Nat.eqb_neq in E. intros H. inversion H; subst; clear H.
  pose proof (intersection_length sg cg) as Hle.
  assert (Hd : 0 < inject_Z (Z.of_nat (Nat.max (length sg) (length cg)))).
  { change 0 with (inject_Z 0). rewrite <- Zlt_Qlt. lia. }
  split.
  - apply Qle_shift_div_l; [exact Hd|]. rewrite Qmult_0_l.
    change 0 with (inject_Z 0). rewrite <- Zle_Qle. lia.
  - apply Qle_shift_div_r; [exact Hd|]. rewrite Qmult_1_l.
    rewrite <- Zle_Qle. lia.
Qed.

Lemma max_similarity_loop_range (diverse : list recommendation)
    (candidate : recommendation) (m0 ms : Q) :
  0 <= m0 <= 1 ->
  max_similarity_loop diverse candidate m0 = Ok ms -> 0 <= ms <= 1.
Proof.
  revert m0. induction diverse as [|s diverse IH]; intros m0 Hm0;
    cbn [max_similarity_loop].
  - intros H. inversion H; subst. exact Hm0.
  - destruct (genre_overlap s candidate) as [q|e] eqn:E; cbn [bind];
      [|discriminate].
    apply IH. apply genre_overlap_range in E.
    destruct (py_max_cases m0 q) as [-> | ->]; assumption.
Qed.

(** When no overlap raises, the penalty is the largest overlap with a
    selected entry, and at least the initial value. *)
Lemma max_similarity_loop_max (diverse : list recommendation)
    (candidate : recommendation) (m0 ms : Q) :
  max_similarity_loop diverse candidate m0 = Ok ms ->
  m0 <= ms
  /\ (forall s, In s diverse ->
        exists q, genre_overlap s candidate = Ok q /\ q <= ms)
  /\ (ms = m0
      \/ exists s, In s diverse /\ genre_overlap s candidate = Ok ms).
Proof.
  revert m0. induction diverse as [|s diverse IH]; intros m0;
    cbn [max_similarity_loop].
  - intros H. inversion H; subst. split; [lra|]. split; [|auto].
    intros s [].
  - destruct (genre_overlap s candidate) as [q|e] eqn:E; cbn [bind];
      [|discriminate].
    intros H. destruct (IH _ H) as (Hge & Hall & Hmax).
    pose proof (py_max_ge_l m0 q). pose proof (py_max_ge_r m0 q).
    split; [lra|]. split.
    + intros s' [<-|Hin].
      * exists q. split; [exact E|lra].
      * auto.
    + destruct Hmax as [->|(s' & Hin & Hs')].
      * destruct (py_max_cases m0 q) as [->| ->]; [auto|].
        right. exists s. split; [left; reflexivity|exact E].
      * right. exists s'. split; [right; exact Hin|exact Hs'].
Qed.

(** The index found by the inner loop is the initial one or the index of
    a scanned candidate. *)
Lemma best_loop_index (df : Q) (diverse remaining : list recommendation)
    (i : Z) (best best' : Q * Z) :
  best_loop df diverse remaining i best = Ok best' ->
  snd best' = snd best
  \/ (i <= snd best' < i + Z.of_nat (length remaining))%Z.
Proof.
  revert i best. induction remaining as [|c rest IH]; intros i best;
    cbn [best_loop].
  - intros H. inversion H; subst. auto.
  - destruct (max_similarity_loop diverse c 0) as [ms|e]; cbn [bind];
      [|discriminate].
    cbn [length]. rewrite Nat2Z.inj_succ.
    destruct (Qltb (fst best) (similarity_score c - df * ms)); intros H;
      apply IH in H; cbn [snd] in H; lia.
Qed.

(** The inner loop finds a candidate as soon as the first one scores
    above the initial [best_score]. *)
Lemma best_loop_found (df : Q) (diverse rest : list recommendation)
    (c : recommendation) (i : Z) (best best' : Q * Z) :
  (0 <= i)%Z ->
  0 <= df < 1 -> 0 <= similarity_score c -> fst best <= -1 ->
  best_loop df diverse (c :: rest) i best = Ok best' ->
  (0 <= snd best')%Z.
Proof.
  intros Hi Hdf Hc Hb. cbn [best_loop].
  destruct (max_similarity_loop diverse c 0) as [ms|e] eqn:E; cbn [bind];
    [|discriminate].
  apply max_similarity_loop_range in E; [|lra].
  assert (Hm : -1 < similarity_score c - df * ms) by nra.
  destruct (Qltb (fst best) (similarity_score c - df * ms)) eqn:El.
  - intros H. apply best_loop_index in H. cbn [snd] in H. lia.
  - apply Qltb_ge in El. lra.
Qed.

Lemma pop_length (l : list recommendation) (i : nat) (x : recommendation)
    (r : list recommendation) :
  pop l i = Some (x, r) -> length l = S (length r).
Proof.
  intros H. apply pop_Permutation in H.
  apply Permutation_length in H. exact H.
Qed.

(** The loop ends within [length remaining + 1] rounds. *)
Lemma mmr_loop_total (fuel : nat) (top_n : Z) (df : Q)
    (diverse remaining : list recommendation) :
  (length remaining < fuel)%nat ->
  exists r, mmr_loop fuel top_n df diverse remaining = Some r.
Proof.
  revert diverse remaining.
  induction fuel as [|fuel IH]; intros diverse remaining Hf; [lia|].
  cbn [mmr_loop].
  destruct ((Z.of_nat (length diverse) <? top_n)%Z
            && negb (Nat.eqb (length remaining) 0)); [|eauto].
  destruct (best_loop df diverse remaining 0 (-1, (-1)%Z))
    as [[s b]|e] eqn:E; [|eauto].
  destruct (0 <=? b)%Z eqn:Eb; [|eauto].
  apply Z.leb_le in Eb. apply best_loop_index in E. cbn [snd] in E.
  destruct (pop_in_range remaining (Z.to_nat b)) as (x & r & Hp); [lia|].
  rewrite Hp. apply IH. apply pop_length in Hp. lia.
Qed.

(** Whatever the loop returns is drawn from the selected and remaining
    entries, each taken at most once. *)
Lemma mmr_loop_Permutation (fuel : nat) (top_n : Z) (df : Q)
    (diverse remaining out : list recommendation) :
  mmr_loop fuel top_n df diverse remaining = Some (Ok out) ->
  exists rest, Permutation (diverse ++ remaining) (out ++ rest).
Proof.
  revert diverse remaining.
  induction fuel as [|fuel IH]; intros diverse remaining; cbn [mmr_loop];
    [discriminate|].
  destruct ((Z.of_nat (length diverse) <? top_n)%Z
            && negb (Nat.eqb (length remaining) 0)).
  - destruct (best_loop df diverse remaining 0 (-1, (-1)%Z))
      as [[s b]|e]; [|discriminate].
    destruct (0 <=? b)%Z.
    + destruct (pop remaining (Z.to_nat b)) as [[x r]|] eqn:Hp;
        [|discriminate].
      intros H. apply IH in H. destruct H as (rest & H).
      exists rest. rewrite <- H, <- app_assoc. cbn [app].
      apply Permutation_app_head. exact (pop_Permutation _ _ _ _ Hp).
    + intros H. inversion H; subst. exists remaining. reflexivity.
  - intros H. inversion H; subst. exists remaining. reflexivity.
Qed.

(** With non-negative relevance and a diversity factor below 1 the loop
    never abstains: it stops at [top_n] entries or on an empty pool. *)
Lemma mmr_loop_length (fuel : nat) (top_n : Z) (df : Q)
    (diverse remaining out : list recommendation) :
  0 <= df < 1 ->
  Forall (fun c => 0 <= similarity_score c) remaining ->
  mmr_loop fuel top_n df diverse remaining = Some (Ok out) ->
  ((Z.of_nat (length diverse) < top_n)%Z ->
     Z.of_nat (length out) =
     Z.min top_n (Z.of_nat (length diverse + length remaining)))
  /\ ((top_n <= Z.of_nat (length diverse))%Z -> out = diverse).
Proof.
  intros Hdf. revert diverse remaining.
  induction fuel as [|fuel IH]; intros diverse remaining Hrem;
    cbn [mmr_loop]; [discriminate|].
  destruct (Z.of_nat (length diverse) <? top_n)%Z eqn:Et; cbn [andb].
  - apply Z.ltb_lt in Et.
    destruct remaining as [|c rest]; cbn [length Nat.eqb negb].
    + intros H. inversion H; subst. split; [lia|reflexivity].
    + destruct (best_loop df diverse (c :: rest) 0 (-1, (-1)%Z))
        as [[s b]|e] eqn:E; [|discriminate].
      assert (Hb : (0 <= b)%Z).
      { inversion Hrem; subst.
        apply (best_loop_found df diverse rest c 0 (-1, (-1)%Z) (s, b));
          cbn [fst]; try lia; try lra; assumption. }
      apply Z.leb_le in Hb. rewrite Hb.
      destruct (pop (c :: rest) (Z.to_nat b)) as [[x r]|] eqn:Hp;
        [|discriminate].
      intros H. pose proof (pop_length _ _ _ _ Hp) as Hl.
      cbn [length] in Hl.
      assert (Hr : Forall (fun c => 0 <= similarity_score c) r).
      { apply pop_Permutation in Hp.
        pose proof (Permutation_Forall Hp Hrem) as HF.
        inversion HF; assumption. }
      destruct (IH _ _ Hr H) as [IH1 IH2].
      rewrite length_app in IH1, IH2. cbn [length] in IH1, IH2.
      split; [|lia]. intros _.
      destruct (Z.lt_ge_cases (Z.of_nat (length diverse + 1)) top_n) as [Hlt|Hge].
      * rewrite (IH1 Hlt). lia.
      * rewrite (IH2 Hge), length_app. cbn [length]. lia.
  - apply Z.ltb_ge in Et. intros H. inversion H; subst.
    split; [lia|reflexivity].
Qed.

End MMR.

(** ** The diversified recommender as a whole *)

Section Diverse.

Import FuzzyRecommender.

Lemma mmr_total (pool : list recommendation) (top_n : Z) (df : Q) :
  exists r, mmr pool top_n df = Some r.
Proof.
  unfold mmr. destruct pool as [|first remaining]; [eauto|].
  destruct (mmr_loop_total (S (length remaining)) top_n df [first] remaining)
    as (r & Hr); [lia|].
  rewrite Hr. destruct r; eauto.
Qed.

(** The model never runs out of rounds: every call returns a list or
    raises. *)
Lemma generate_diverse_recommendations_total (up : user_profile_t)
    (df : DataFrame) (rated : list Z) (top_n : Z) (d : Q) :
  exists r, generate_diverse_recommendations up df rated top_n d = Some r.
Proof.
  unfold generate_diverse_recommendations.
  destruct (generate_recommendations up df rated 50); [|eauto].
  apply mmr_total.
Qed.

(** What [mmr] returns is drawn from its pool, each entry at most once. *)
Lemma mmr_Permutation (pool out : list recommendation) (top_n : Z) (df : Q) :
  mmr pool top_n df = Some (Ok out) ->
  exists rest, Permutation (out ++ rest) pool.
Proof.
  unfold mmr. destruct pool as [|first remaining].
  - intros H. inversion H; subst. exists []. reflexivity.
  - destruct (mmr_loop (S (length remaining)) top_n df [first] remaining)
      as [[out'|e]|] eqn:E; try discriminate.
    intros H. inversion H; subst; clear H.
    apply mmr_loop_Permutation in E. destruct E as (rest & HP).
    destruct (slice_to_prefix out' top_n) as (tail & Ht).
    exists (tail ++ rest). rewrite app_assoc, <- Ht.
    symmetry. exact HP.
Qed.

(** The length of [mmr]'s list when the loop cannot abstain. *)
Lemma mmr_length (pool out : list recommendation) (top_n : Z) (df : Q) :
  (0 <= top_n)%Z -> 0 <= df < 1 ->
  Forall (fun c => 0 <= similarity_score c) pool ->
  mmr pool top_n df = Some (Ok out) ->
  length out = Nat.min (Z.to_nat top_n) (length pool).
Proof.
  intros Hn Hdf Hpool. unfold mmr. destruct pool as [|first remaining].
  - intros H. inversion H; subst. cbn. lia.
  - destruct (mmr_loop (S (length remaining)) top_n df [first] remaining)
      as [[out'|e]|] eqn:E; try discriminate.
    intros H. inversion H; subst; clear H.
    inversion Hpool as [|? ? _ Hrem]; subst.
    destruct (mmr_loop_length _ _ _ _ _ _ Hdf Hrem E) as [H1 H2].
    rewrite slice_to_length by exact Hn. cbn [length] in *.
    destruct (Z.lt_ge_cases 1 top_n) as [Hlt|Hge].
    + specialize (H1 Hlt). lia.
    + rewrite (H2 Hge). cbn [length]. lia.
Qed.

Lemma slice_to_In {T : Type} (l : list T) (n : Z) (x : T) :
  In x (slice_to l n) -> In x l.
Proof.
  intros H. destruct (slice_to_prefix l n) as (rest & Hr).
  rewrite Hr. apply in_or_app. auto.
Qed.

Lemma NoDup_map_filter {T U : Type} (f : T -> U) (p : T -> bool)
    (l : list T) :
  NoDup (map f l) -> NoDup (map f (filter p l)).
Proof.
  induction l as [|x l IH]; cbn [map filter]; intros H.
  - constructor.
  - inversion H as [|? ? Hx Hl]; subst. destruct (p x); cbn [map].
    + constructor; [|auto]. intros Hin. apply Hx.
      apply in_map_iff in Hin. destruct Hin as (y & Hy & Hin).
      apply filter_In in Hin. apply in_map_iff. exists y. tauto.
    + auto.
Qed.

(** The pool handed to the reranker: the scorer's list for a pool size
    of 50, with non-negative scores when the inputs are fuzzy. *)
Lemma diverse_pool (up : user_profile_t) (df : DataFrame) (rated : list Z)
    (top_n : Z) (d : Q) :
  exists pool,
    generate_recommendations up df rated 50 = Ok pool
    /\ length pool = Nat.min 50 (length (unrated df rated))
    /\ generate_diverse_recommendations up df rated top_n d = mmr pool top_n d
    /\ (is_fuzzy_profile (profile up) = true ->
        is_fuzzy_catalog df = true ->
        Forall (fun c => 0 <= similarity_score c) pool).
Proof.
  destruct (generate_recommendations_ok up df rated 50) as (scored & HF & Hg).
  exists (slice_to (sort_desc similarity_score scored) 50).
  split; [exact Hg|]. split; [|split].
  - rewrite slice_to_length by lia.
    rewrite sort_desc_length, (scored_length _ _ _ HF). reflexivity.
  - unfold generate_diverse_recommendations. rewrite Hg. reflexivity.
  - intros Hup Hdf.
    pose proof (scored_nonneg _ _ _ Hup (unrated_fuzzy df rated Hdf) HF) as Hs.
    rewrite Forall_forall in Hs |- *. intros c Hc.
    apply slice_to_In in Hc.
    apply (Permutation_in _ (Permutation_sym (sort_desc_Permutation _ scored)))
      in Hc.
    auto.
Qed.

End Diverse.

(** ** Uniqueness of the stable descending arrangement *)

Section StableUnique.

Context {T : Type}.
Variable key : T -> Q.

Lemma filter_same_key_head (x : T) (l : list T) :
  filter (same_key key (key x)) (x :: l) = x :: filter (same_key key (key x)) l.
Proof. cbn [filter]. unfold same_key at 1. rewrite Qeq_bool_refl. reflexivity. Qed.

Lemma sorted_head_max (x y : T) (l : list T) :
  StronglySorted (desc key) (x :: l) -> In y (x :: l) -> key y <= key x.
Proof.
  intros Hs Hin. inversion Hs as [|? ? _ Hx]; subst.
  destruct Hin as [->|Hin]; [lra|].
  rewrite Forall_forall in Hx. exact (Hx y Hin).
Qed.

Lemma head_in_other (x : T) (l1 l2 : list T) :
  (forall v, filter (same_key key v) (x :: l1) = filter (same_key key v) l2) ->
  In x l2.
Proof.
  intros H. specialize (H (key x)). rewrite filter_same_key_head in H.
  assert (Hin : In x (filter (same_key key (key x)) l2)) by (rewrite <- H; left; reflexivity).
  apply filter_In in Hin. tauto.
Qed.

(** Two descending lists with the same entries of every key, in the same
    order among equal keys, are equal: a stable descending sort has only
    one possible result. *)
Lemma stable_sorted_unique (l1 l2 : list T) :
  StronglySorted (desc key) l1 -> StronglySorted (desc key) l2 ->
  (forall v, filter (same_key key v) l1 = filter (same_key key v) l2) ->
  l1 = l2.
Proof.
  revert l2. induction l1 as [|x t1 IH]; intros l2 H1 H2 H.
  - destruct l2 as [|y t2]; [reflexivity|].
    assert (Hy : In y []) by (apply (head_in_other y t2 []); intros v; symmetry; apply H).
    destruct Hy.
  - destruct l2 as [|y t2].
    + assert (Hx : In x []) by (apply (head_in_other x t1 []); exact H).
      destruct Hx.
    + assert (Hxy : key x <= key y).
      { apply (sorted_head_max y x t2 H2). apply (head_in_other x t1). exact H. }
      assert (Hyx : key y <= key x).
      { apply (sorted_head_max x y t1 H1). apply (head_in_other y t2).
        intros v. symmetry. apply H. }
      assert (Heq : Qeq_bool (key y) (key x) = true).
      { apply Qeq_eq_bool. lra. }
      pose proof (H (key x)) as Hk. rewrite filter_same_key_head in Hk.
      cbn [filter] in Hk. unfold same_key at 2 in Hk. rewrite Heq in Hk.
      inversion Hk; subst y. f_equal.
      inversion H1; inversion H2; subst. apply IH; try assumption.
      intros v. specialize (H v). cbn [filter] in H.
      destruct (same_key key v x); [inversion H|]; auto.
Qed.

(** Any stable descending arrangement of [l] is the one [sort_desc]
    computes. *)
Lemma sort_desc_unique (l l' : list T) :
  StronglySorted (desc key) l' ->
  (forall v, filter (same_key key v) l' = filter (same_key key v) l) ->
  l' = sort_desc key l.
Proof.
  intros Hs Hf. apply stable_sorted_unique.
  - exact Hs.
  - apply sort_desc_sorted.
  - intros v. rewrite Hf. symmetry. apply sort_desc_stable.
Qed.

End StableUnique.

(** * The similarity measures *)

Section SimilarityClaims.

Import FuzzySimilarity.

(** C6. For fuzzy profiles [A] and [B], [fuzzy_jaccard A B] is the sum
    over the genre set without the sentinel of [min(A_i, B_i)] divided by
    the sum of [max(A_i, B_i)], a missing genre counting 0.0, and it is
    exactly 0.0 when that denominator is 0. *)
Theorem fuzzy_jaccard_min_over_max (A B : dict) :
  is_fuzzy_profile A = true -> is_fuzzy_profile B = true ->
  fuzzy_jaccard A B == Spec.fuzzy_jaccard A B
  /\ (Spec.jaccard_den A B == 0 -> fuzzy_jaccard A B = 0).
Proof.
  intros HA HB.
  assert (HAn : forall g, 0 <= get A g 0) by (intros g; apply (fuzzy_profile_get A g HA)).
  assert (HBn : forall g, 0 <= get B g 0) by (intros g; apply (fuzzy_profile_get B g HB)).
  rewrite fuzzy_jaccard_unfold. cbv zeta.
  destruct (jaccard_loop_sums A B Config.GENRES (0, 0)) as [Hi Hu].
  cbn [fst snd] in Hi, Hu. fold Spec.scored_genres in Hi, Hu.
  fold (Spec.jaccard_num A B) in Hi. fold (Spec.jaccard_den A B) in Hu.
  rewrite Qplus_0_l in Hi, Hu.
  pose proof (proj2 (jaccard_loop_mono A B HAn HBn Config.GENRES (0, 0))) as Hge.
  cbn [snd] in Hge.
  set (acc := jaccard_loop Config.GENRES A B (0, 0)) in *.
  unfold Spec.fuzzy_jaccard.
  destruct (Qltb 0 (snd acc)) eqn:E.
  - apply Qltb_lt in E. split.
    + destruct (Qeq_bool (Spec.jaccard_den A B) 0) eqn:Ez.
      * apply Qeq_bool_eq in Ez. lra.
      * rewrite Hi, Hu. reflexivity.
    + intros Hz. lra.
  - apply Qltb_ge in E. split; [|reflexivity].
    destruct (Qeq_bool (Spec.jaccard_den A B) 0) eqn:Ez.
    + reflexivity.
    + apply Qeq_bool_neq in Ez. exfalso. apply Ez. lra.
Qed.

Lemma fuzzy_jaccard_min_over_max_witness :
  let A := Examples.comedy_romance in
  let B := Examples.full_profile [("Comedy"%string, 9 # 10);
                                  ("Romance"%string, 5 # 10)] in
  fuzzy_jaccard A B == Spec.fuzzy_jaccard A B
  /\ (Spec.jaccard_den A B == 0 -> fuzzy_jaccard A B = 0).
Proof.
  cbv zeta.
  apply (fuzzy_jaccard_min_over_max Examples.comedy_romance
           (Examples.full_profile [("Comedy"%string, 9 # 10);
                                   ("Romance"%string, 5 # 10)]));
    reflexivity.
Defined.

Lemma fuzzy_jaccard_swap (A B : dict) : fuzzy_jaccard A B == fuzzy_jaccard B A.
Proof.
  rewrite !fuzzy_jaccard_unfold. cbv zeta.
  destruct (jaccard_loop_swap A B Config.GENRES (0, 0) (0, 0)) as [H1 H2];
    try reflexivity.
  rewrite (Qltb_compat 0 0 _ _ (Qeq_refl 0) H2).
  destruct (Qltb 0 (snd (jaccard_loop Config.GENRES B A (0, 0))));
    [|reflexivity].
  rewrite H1, H2. reflexivity.
Qed.

Lemma fuzzy_dice_swap (A B : dict) : fuzzy_dice A B == fuzzy_dice B A.
Proof.
  rewrite !fuzzy_dice_unfold. cbv zeta.
  destruct (dice_loop_swap A B Config.GENRES (0, 0) (0, 0)) as [H1 H2];
    try reflexivity.
  rewrite (Qltb_compat 0 0 _ _ (Qeq_refl 0) H2).
  destruct (Qltb 0 (snd (dice_loop Config.GENRES B A (0, 0))));
    [|reflexivity].
  rewrite H1, H2. reflexivity.
Qed.

Lemma fuzzy_cosine_swap (A B : dict) : fuzzy_cosine A B == fuzzy_cosine B A.
Proof.
  rewrite !fuzzy_cosine_unfold. cbv zeta.
  pose proof (cosine_loop_swap A B Config.GENRES 0 0 0 0 (Qeq_refl 0)) as H.
  cbv zeta in H. destruct H as (Hd & Hu & Hm).
  rewrite Hu, Hm.
  set (r := cosine_loop Config.GENRES B A (0, 0, 0)) in *.
  rewrite (andb_comm (Qltb 0 (np_sqrt (snd r)))).
  destruct (Qltb 0 (np_sqrt (snd (fst r))) && Qltb 0 (np_sqrt (snd r)));
    [|reflexivity].
  rewrite Hd, (Qmult_comm (np_sqrt (snd r))). reflexivity.
Qed.

(** C8. Each of [fuzzy_jaccard], [fuzzy_cosine], [fuzzy_dice] and
    [hybrid_similarity] (for any weights) is symmetric: swapping the two
    profiles gives a numerically equal result, or the same exception. *)
Theorem similarity_symmetric (A B : dict) (weights : option dict) :
  fuzzy_jaccard A B == fuzzy_jaccard B A
  /\ fuzzy_cosine A B == fuzzy_cosine B A
  /\ fuzzy_dice A B == fuzzy_dice B A
  /\ result_Qeq (hybrid_similarity A B weights) (hybrid_similarity B A weights).
Proof.
  split; [apply fuzzy_jaccard_swap|].
  split; [apply fuzzy_cosine_swap|].
  split; [apply fuzzy_dice_swap|].
  unfold hybrid_similarity.
  set (w := match weights with None => default_weights | Some w => w end).
  destruct (getitem w "jaccard") as [wj|e]; cbn [bind result_Qeq]; [|reflexivity].
  destruct (getitem w "cosine") as [wc|e]; cbn [bind result_Qeq]; [|reflexivity].
  destruct (getitem w "dice") as [wd|e]; cbn [bind result_Qeq]; [|reflexivity].
  rewrite (fuzzy_jaccard_swap A B), (fuzzy_cosine_swap A B),
    (fuzzy_dice_swap A B). reflexivity.
Qed.

(** C9, as stated, fails: a fuzzy profile that is non-zero only on the
    sentinel genre has Jaccard similarity 0.0 with itself. *)
Lemma fuzzy_jaccard_identity_fails_on_sentinel :
  ~ (forall A : dict,
       is_fuzzy_profile A = true ->
       (exists g, In g Config.GENRES /\ ~ get A g 0 == 0) ->
       fuzzy_jaccard A A == 1).
Proof.
  intros H. specialize (H Examples.sentinel_only).
  assert (Hz : fuzzy_jaccard Examples.sentinel_only Examples.sentinel_only = 0)
    by reflexivity.
  rewrite Hz in H. assert (H01 : ~ 0 == 1) by discriminate.
  apply H01, H.
  - reflexivity.
  - exists "unknown"%string. split.
    + left. reflexivity.
    + discriminate.
Qed.

(** C9, amended. For every fuzzy profile [A] that is non-zero on at least
    one genre other than the sentinel, [fuzzy_jaccard A A] is exactly
    1.0. *)
Theorem fuzzy_jaccard_identity (A : dict) :
  is_fuzzy_profile A = true ->
  (exists g, In g Config.GENRES /\ g <> "unknown"%string /\ ~ get A g 0 == 0) ->
  fuzzy_jaccard A A == 1.
Proof.
  intros HA (g & Hin & Hg & Hnz).
  assert (HAn : forall g, 0 <= get A g 0) by (intros g'; apply (fuzzy_profile_get A g' HA)).
  rewrite fuzzy_jaccard_unfold. cbv zeta.
  pose proof (jaccard_loop_self A Config.GENRES (0, 0) eq_refl) as Hs.
  assert (Hpos : 0 < get A g 0).
  { specialize (HAn g). destruct (Qlt_le_dec 0 (get A g 0)) as [?|Hle]; [assumption|].
    exfalso. apply Hnz. lra. }
  pose proof (jaccard_loop_pos A A HAn HAn Config.GENRES (0, 0) g Hin Hg Hpos) as Hu.
  cbn [snd] in Hu.
  set (acc := jaccard_loop Config.GENRES A A (0, 0)) in *.
  rewrite (proj2 (Qltb_lt 0 (snd acc)) Hu), Hs.
  field. lra.
Qed.

Lemma fuzzy_jaccard_identity_witness :
  fuzzy_jaccard Examples.comedy_romance Examples.comedy_romance == 1.
Proof.
  apply (fuzzy_jaccard_identity Examples.comedy_romance).
  - reflexivity.
  - exists "Comedy"%string. split; [|split].
    + do 5 right. left. reflexivity.
    + discriminate.
    + discriminate.
Defined.

End SimilarityClaims.

(** * The recommender *)

Section RecommenderClaims.

Import FuzzySimilarity FuzzyRecommender.

(** C7. [generate_recommendations] is a function of its inputs, so equal
    inputs give equal output.  Its list is a prefix of the scored rows
    arranged by similarity score descending, entries of equal score
    keeping the catalog's iteration order; that arrangement is the only
    stable descending one. *)
Theorem generate_recommendations_sorted_stable (up : user_profile_t)
    (df : DataFrame) (rated : list Z) (top_n : Z) :
  exists scored out rest,
    Forall2 (fun m r => score_movie (profile up) m = Ok r)
            (unrated df rated) scored
    /\ generate_recommendations up df rated top_n = Ok out
    /\ sort_desc similarity_score scored = out ++ rest
    /\ StronglySorted (desc similarity_score) out
    /\ (forall v,
          filter (same_key similarity_score v) (out ++ rest) =
          filter (same_key similarity_score v) scored)
    /\ (forall l,
          StronglySorted (desc similarity_score) l ->
          (forall v,
             filter (same_key similarity_score v) l =
             filter (same_key similarity_score v) scored) ->
          l = out ++ rest).
Proof.
  destruct (generate_recommendations_ok up df rated top_n)
    as (scored & HF & Hg).
  destruct (slice_to_prefix (sort_desc similarity_score scored) top_n)
    as (rest & Hr).
  exists scored, (slice_to (sort_desc similarity_score scored) top_n), rest.
  split; [exact HF|]. split; [exact Hg|]. split; [exact Hr|].
  split; [|split].
  - apply StronglySorted_app_l with (l2 := rest). rewrite <- Hr.
    apply sort_desc_sorted.
  - intros v. rewrite <- Hr. apply sort_desc_stable.
  - intros l Hs Hf. rewrite <- Hr. apply sort_desc_unique; assumption.
Qed.

(** C2, as stated, fails: with [top_n = 2] and eleven unrated movies the
    pool of 50 lets the eleventh-ranked movie be picked second, which a
    pool of [5 * top_n = 10] cannot do. *)
Lemma diverse_pool_is_not_5x :
  generate_diverse_recommendations Examples.action_fan Examples.catalog11 [] 2 1
  <> Spec.recommend_diverse_5x Examples.action_fan Examples.catalog11 [] 2 1.
Proof.
  intros H.
  assert (H' : option_map (fun r => match r with
                                    | Ok l => map rec_movie_id l
                                    | Raise _ => []
                                    end)
                 (generate_diverse_recommendations Examples.action_fan
                    Examples.catalog11 [] 2 1)
               = option_map (fun r => match r with
                                      | Ok l => map rec_movie_id l
                                      | Raise _ => []
                                      end)
                   (Spec.recommend_diverse_5x Examples.action_fan
                      Examples.catalog11 [] 2 1))
    by (rewrite H; reflexivity).
  vm_compute in H'. discriminate H'.
Qed.

(** C2, amended. [generate_diverse_recommendations] obtains its pool by
    calling the scorer with the fixed pool size 50, whatever [top_n] is
    (so 5 times [top_n] only for [top_n = 10]); the pool is capped at the
    number of movies left after exclusion, and the reranker runs on it. *)
Theorem diverse_pool_is_50 (up : user_profile_t) (df : DataFrame)
    (rated : list Z) (top_n : Z) (d : Q) :
  exists pool,
    generate_recommendations up df rated 50 = Ok pool
    /\ length pool = Nat.min 50 (length (unrated df rated))
    /\ generate_diverse_recommendations up df rated top_n d = mmr pool top_n d
    /\ generate_diverse_recommendations up df rated 10 d =
       Spec.recommend_diverse_5x up df rated 10 d.
Proof.
  destruct (diverse_pool up df rated top_n d) as (pool & Hg & Hlen & Hm & _).
  exists pool. split; [exact Hg|]. split; [exact Hlen|].
  split; [exact Hm|]. reflexivity.
Qed.

(** C1, as stated, fails: 51 unrated movies and [top_n = 51] give 50
    entries, not [min(51, 51)]. *)
Lemma diverse_length_capped_at_50 :
  exists out,
    generate_diverse_recommendations Examples.action_fan Examples.catalog51
      [] 51 (3 # 10) = Some (Ok out)
    /\ length (unrated Examples.catalog51 []) = 51%nat
    /\ length out <> Nat.min 51 (length (unrated Examples.catalog51 [])).
Proof.
  eexists. split; [vm_compute; reflexivity|].
  split; [reflexivity|]. vm_compute. discriminate.
Qed.

(** C1, amended. For a fuzzy user profile and catalog, [top_n = N >= 0]
    and a diversity factor in [[0, 1)], every call returns or raises, and
    a returned list has length exactly [min(N, 50, P)], where [P] is the
    number of catalog movies left after excluding the rated ones. *)
Theorem diverse_length (up : user_profile_t) (df : DataFrame)
    (rated : list Z) (top_n : Z) (d : Q) :
  is_fuzzy_profile (profile up) = true ->
  is_fuzzy_catalog df = true ->
  (0 <= top_n)%Z -> 0 <= d < 1 ->
  exists r,
    generate_diverse_recommendations up df rated top_n d = Some r
    /\ forall out, r = Ok out ->
         length out =
         Nat.min (Z.to_nat top_n) (Nat.min 50 (length (unrated df rated))).
Proof.
  intros Hup Hdf Hn Hd.
  destruct (generate_diverse_recommendations_total up df rated top_n d)
    as (r & Hr).
  exists r. split; [exact Hr|]. intros out ->.
  destruct (diverse_pool up df rated top_n d)
    as (pool & Hg & Hlen & Hm & Hpos).
  rewrite Hm in Hr. rewrite <- Hlen.
  apply (mmr_length pool out top_n d Hn Hd); [|exact Hr].
  exact (Hpos Hup Hdf).
Qed.

Lemma diverse_length_witness :
  exists r,
    generate_diverse_recommendations Examples.action_fan
      [Examples.action_movie 1; Examples.comedy_movie 2;
       Examples.action_movie 3] [2%Z] 5 (3 # 10) = Some r
    /\ forall out, r = Ok out ->
         length out =
         Nat.min (Z.to_nat 5)
           (Nat.min 50
              (length (unrated [Examples.action_movie 1;
                                Examples.comedy_movie 2;
                                Examples.action_movie 3] [2%Z]))).
Proof.
  apply (diverse_length Examples.action_fan
           [Examples.action_movie 1; Examples.comedy_movie 2;
            Examples.action_movie 3] [2%Z] 5 (3 # 10)).
  - reflexivity.
  - reflexivity.
  - lia.
  - split; [discriminate | reflexivity].
Defined.

(** C10. A list returned by [generate_diverse_recommendations] takes each
    entry of the scored pool at most once: together with the entries left
    over it is a rearrangement of the pool; so when the catalog's movie
    identifiers are distinct, no identifier occurs twice in the list. *)
Theorem diverse_no_duplicates (up : user_profile_t) (df : DataFrame)
    (rated : list Z) (top_n : Z) (d : Q) (out : list recommendation) :
  generate_diverse_recommendations up df rated top_n d = Some (Ok out) ->
  exists pool rest,
    generate_recommendations up df rated 50 = Ok pool
    /\ Permutation (out ++ rest) pool
    /\ (NoDup (map movie_id df) -> NoDup (map rec_movie_id out)).
Proof.
  intros H.
  destruct (generate_recommendations_ok up df rated 50) as (scored & HF & Hg).
  unfold generate_diverse_recommendations in H. rewrite Hg in H.
  destruct (mmr_Permutation _ _ _ _ H) as (rest & HP).
  exists (slice_to (sort_desc similarity_score scored) 50), rest.
  split; [exact Hg|]. split; [exact HP|].
  intros Hnd.
  destruct (slice_to_prefix (sort_desc similarity_score scored) 50)
    as (tail & Ht).
  assert (Hall : NoDup (map rec_movie_id ((out ++ rest) ++ tail))).
  { apply (Permutation_NoDup (l := map rec_movie_id scored)).
    - apply Permutation_map.
      rewrite (sort_desc_Permutation similarity_score scored), Ht.
      apply Permutation_app_tail. symmetry. exact HP.
    - rewrite (scored_ids _ _ _ HF). apply NoDup_map_filter. exact Hnd. }
  rewrite <- app_assoc, map_app in Hall.
  apply NoDup_app_remove_r in Hall. exact Hall.
Qed.

Lemma diverse_no_duplicates_witness :
  exists out pool rest,
    generate_diverse_recommendations Examples.action_fan
      [Examples.action_movie 1; Examples.comedy_movie 2;
       Examples.action_movie 3] [] 2 (3 # 10) = Some (Ok out)
    /\ generate_recommendations Examples.action_fan
         [Examples.action_movie 1; Examples.comedy_movie 2;
          Examples.action_movie 3] [] 50 = Ok pool
    /\ Permutation (out ++ rest) pool
    /\ (NoDup (map movie_id [Examples.action_movie 1; Examples.comedy_movie 2;
                             Examples.action_movie 3]) ->
        NoDup (map rec_movie_id out)).
Proof.
  eexists.
  assert (E : generate_diverse_recommendations Examples.action_fan
                [Examples.action_movie 1; Examples.comedy_movie 2;
                 Examples.action_movie 3] [] 2 (3 # 10) = Some (Ok _))
    by (vm_compute; reflexivity).
  destruct (diverse_no_duplicates _ _ _ _ _ _ E) as (pool & rest & H).
  exists pool, rest. split; [exact E | exact H].
Defined.

End RecommenderClaims.

(** * Failures and missing checks *)

Section FailureClaims.

Import FuzzySimilarity FuzzyRecommender.

(** The overlap of two entries without genres divides by zero. *)
Lemma genre_overlap_empty (selected candidate : recommendation) :
  genres selected = [] -> genres candidate = [] ->
  genre_overlap selected candidate = Raise ZeroDivisionError.
Proof. unfold genre_overlap. intros -> ->. reflexivity. Qed.

(** Where the overlap is defined it is the stated ratio. *)
Lemma genre_overlap_ratio (selected candidate : recommendation) :
  let sg := py_set (map fst (genres selected)) in
  let cg := py_set (map fst (genres candidate)) in
  Nat.max (length sg) (length cg) <> 0%nat ->
  genre_overlap selected candidate =
  Ok (inject_Z (Z.of_nat (length (intersection sg cg)))
      / inject_Z (Z.of_nat (Nat.max (length sg) (length cg)))).
Proof.
  cbv zeta. intros H. unfold genre_overlap.
  apply Nat.eqb_neq in H. rewrite H. reflexivity.
Qed.

(** C3: the code raises where the claim promises a penalty of 0.  Two
    unrated movies without any genre above 0.1 have empty genre sets;
    the penalty of the second against the first divides 0 by 0, and the
    whole call raises [ZeroDivisionError]. *)
Theorem diversity_penalty_raises_on_empty_genres :
  (exists r1 r2,
     generate_recommendations Examples.action_fan
       [Examples.untagged_movie 1; Examples.untagged_movie 2] [] 50
     = Ok [r1; r2]
     /\ genres r1 = [] /\ genres r2 = []
     /\ max_similarity_loop [r1] r2 0 = Raise ZeroDivisionError)
  /\ generate_diverse_recommendations Examples.action_fan
       [Examples.untagged_movie 1; Examples.untagged_movie 2] [] 2 (3 # 10)
     = Some (Raise ZeroDivisionError).
Proof.
  split.
  - eexists. eexists. split; [vm_compute; reflexivity|].
    split; [reflexivity|]. split; reflexivity.
  - vm_compute. reflexivity.
Qed.

(** C4: the loop abstains although the pool is not empty.  With a
    diversity factor of 1.0, a remaining candidate of relevance 0.0 whose
    genres coincide with a selected entry's has MMR score -1, which is
    not above the initial [best_score = -1]: no index is chosen and the
    loop breaks with one entry where two were asked for and one was
    left. *)
Theorem mmr_abstains_with_pool_left :
  exists r1 r2,
    generate_recommendations Examples.action_fan
      [Examples.comedy_movie 1; Examples.comedy_movie 2] [] 50
    = Ok [r1; r2]
    /\ best_loop 1 [r1] [r2] 0 (-1, (-1)%Z) = Ok (-1, (-1)%Z)
    /\ generate_diverse_recommendations Examples.action_fan
         [Examples.comedy_movie 1; Examples.comedy_movie 2] [] 2 1
       = Some (Ok [r1]).
Proof.
  eexists. eexists. split; [vm_compute; reflexivity|].
  split; vm_compute; reflexivity.
Qed.

(** C5, as stated, fails: a negative [top_n] is not rejected, a list is
    returned; and a weights mapping with an unrecognized key is accepted. *)
Lemma invalid_input_not_rejected :
  (exists out,
     generate_recommendations Examples.action_fan
       [Examples.action_movie 1; Examples.comedy_movie 2] [] (-1) = Ok out
     /\ out <> [])
  /\ (exists v,
        hybrid_similarity Examples.comedy_romance Examples.comedy_romance
          (Some Examples.weights_with_extra_key) = Ok v).
Proof.
  split.
  - eexists. split; [vm_compute; reflexivity|]. discriminate.
  - eexists. vm_compute. reflexivity.
Qed.

Lemma getitem_setitem_other (w : dict) (k k' : string) (v : Q) :
  k <> k' -> getitem (setitem w k v) k' = getitem w k'.
Proof.
  intros Hk. unfold getitem. rewrite lookup_setitem.
  destruct (String.eqb k k') eqn:E; [|reflexivity].
  apply String.eqb_eq in E. contradiction.
Qed.

(** C5, amended. The entry points validate nothing.  For [top_n < 0],
    [generate_recommendations] returns, without error, the sorted scored
    candidates less their last [|top_n|] entries (Python's slice), and
    [generate_diverse_recommendations] returns the empty list; and
    [hybrid_similarity] ignores every key of the weights other than
    [jaccard], [cosine] and [dice]. *)
Theorem no_input_validation (up : user_profile_t) (df : DataFrame)
    (rated : list Z) (top_n : Z) (d : Q) (A B w : dict) (k : string)
    (v : Q) :
  (top_n < 0)%Z ->
  k <> "jaccard"%string -> k <> "cosine"%string -> k <> "dice"%string ->
  (exists scored,
     Forall2 (fun m r => score_movie (profile up) m = Ok r)
             (unrated df rated) scored
     /\ generate_recommendations up df rated top_n =
        Ok (firstn (length scored - Z.to_nat (- top_n))
              (sort_desc similarity_score scored)))
  /\ generate_diverse_recommendations up df rated top_n d = Some (Ok [])
  /\ hybrid_similarity A B (Some (setitem w k v)) =
     hybrid_similarity A B (Some w).
Proof.
  intros Hn Hj Hc Hd. split; [|split].
  - destruct (generate_recommendations_ok up df rated top_n)
      as (scored & HF & Hg).
    exists scored. split; [exact HF|].
    rewrite Hg, slice_to_negative by exact Hn.
    rewrite sort_desc_length. reflexivity.
  - unfold generate_diverse_recommendations.
    destruct (generate_recommendations up df rated 50) as [pool|e] eqn:E.
    + unfold mmr. destruct pool as [|first remaining]; [reflexivity|].
      cbn [mmr_loop length].
      destruct (Z.of_nat 1 <? top_n)%Z eqn:Et; [apply Z.ltb_lt in Et; lia|].
      cbn [andb]. rewrite slice_to_negative by exact Hn.
      cbn [length]. replace (1 - Z.to_nat (- top_n))%nat with 0%nat by lia.
      reflexivity.
    + destruct (generate_recommendations_ok up df rated 50) as (? & _ & Hg).
      rewrite Hg in E. discriminate.
  - unfold hybrid_similarity. rewrite !getitem_setitem_other by assumption.
    reflexivity.
Qed.

Lemma no_input_validation_witness :
  (exists scored,
     Forall2 (fun m r => score_movie (profile Examples.action_fan) m = Ok r)
             (unrated [Examples.action_movie 1; Examples.comedy_movie 2] [])
             scored
     /\ generate_recommendations Examples.action_fan
          [Examples.action_movie 1; Examples.comedy_movie 2] [] (-1) =
        Ok (firstn (length scored - Z.to_nat (- (-1)))
              (sort_desc similarity_score scored)))
  /\ generate_diverse_recommendations Examples.action_fan
       [Examples.action_movie 1; Examples.comedy_movie 2] [] (-1) (3 # 10)
     = Some (Ok [])
  /\ hybrid_similarity Examples.comedy_romance Examples.comedy_romance
       (Some (setitem default_weights "overlap" 1)) =
     hybrid_similarity Examples.comedy_romance Examples.comedy_romance
       (Some default_weights).
Proof.
  apply (no_input_validation Examples.action_fan
           [Examples.action_movie 1; Examples.comedy_movie 2] [] (-1)
           (3 # 10) Examples.comedy_romance Examples.comedy_romance
           default_weights "overlap" 1).
  - lia.
  - discriminate.
  - discriminate.
  - discriminate.
Defined.

End FailureClaims.

(** * Further properties of the similarity measures *)

(** ** Arithmetic of the measures *)

Lemma Qdiv_zero_num (x u : Q) : x == 0 -> x / u == 0.
Proof. intros H. rewrite H. unfold Qdiv. ring. Qed.

Lemma dice_formula_pos (i u s : Q) :
  0 < u -> 0 <= i -> s == i + u ->
  2 * i / s == 2 * (i / u) / (1 + i / u).
Proof. intros Hu Hi Hs. rewrite Hs. field. split; lra. Qed.

Lemma dice_formula_zero : 0 == 2 * 0 / (1 + 0).
Proof. reflexivity. Qed.

Lemma hybrid_zero (j c d : Q) :
  j == 0 -> c == 0 -> d == 0 ->
  (4 # 10) * j + (4 # 10) * c + (2 # 10) * d == 0.
Proof. intros -> -> ->. reflexivity. Qed.

Section SimilarityRange.

Import FuzzySimilarity.

Variables A B : dict.

Lemma py_min_le_max (a b : Q) : py_min a b <= py_max a b.
Proof.
  unfold py_min, py_max.
  destruct (Qltb b a) eqn:E1, (Qltb a b) eqn:E2;
    try apply Qltb_lt in E1; try apply Qltb_lt in E2;
    try apply Qltb_ge in E1; try apply Qltb_ge in E2; lra.
Qed.

Lemma py_min_plus_max (a b : Q) : py_min a b + py_max a b == a + b.
Proof.
  unfold py_min, py_max.
  destruct (Qltb b a) eqn:E1, (Qltb a b) eqn:E2;
    try apply Qltb_lt in E1; try apply Qltb_lt in E2;
    try apply Qltb_ge in E1; try apply Qltb_ge in E2; lra.
Qed.

(** The intersection never exceeds the union. *)
Lemma jaccard_loop_le (gs : list string) (acc : Q * Q) :
  fst acc <= snd acc ->
  fst (jaccard_loop gs A B acc) <= snd (jaccard_loop gs A B acc).
Proof.
  revert acc. induction gs as [|g gs IH]; intros acc H; cbn [jaccard_loop].
  - exact H.
  - destruct (String.eqb g "unknown").
    + auto.
    + apply IH. cbn [fst snd].
      pose proof (py_min_le_max (get A g 0) (get B g 0)). lra.
Qed.

(** The Dice loop accumulates the same intersection as the Jaccard loop,
    and the sum of intersection and union as its denominator. *)
Lemma dice_loop_jaccard_loop (gs : list string) (accd accj : Q * Q) :
  fst accd = fst accj -> snd accd == fst accj + snd accj ->
  fst (dice_loop gs A B accd) = fst (jaccard_loop gs A B accj)
  /\ snd (dice_loop gs A B accd) ==
     fst (jaccard_loop gs A B accj) + snd (jaccard_loop gs A B accj).
Proof.
  revert accd accj.
  induction gs as [|g gs IH]; intros accd accj H1 H2;
    cbn [dice_loop jaccard_loop].
  - auto.
  - destruct (String.eqb g "unknown").
    + auto.
    + apply IH; cbn [fst snd].
      * rewrite H1. reflexivity.
      * pose proof (py_min_plus_max (get A g 0) (get B g 0)). lra.
Qed.

Hypothesis A_fuzzy : is_fuzzy_profile A = true.
Hypothesis B_fuzzy : is_fuzzy_profile B = true.

Lemma fuzzy_A_nonneg : forall g, 0 <= get A g 0.
Proof. intros g. exact (proj1 (fuzzy_profile_get A g A_fuzzy)). Qed.

Lemma fuzzy_B_nonneg : forall g, 0 <= get B g 0.
Proof. intros g. exact (proj1 (fuzzy_profile_get B g B_fuzzy)). Qed.

(** Jaccard and Dice of two fuzzy profiles lie in [[0, 1]]. *)
Lemma fuzzy_jaccard_dice_range :
  0 <= fuzzy_jaccard A B <= 1 /\ 0 <= fuzzy_dice A B <= 1.
Proof.
  split; split.
  - apply fuzzy_jaccard_nonneg; [exact fuzzy_A_nonneg|exact fuzzy_B_nonneg].
  - rewrite fuzzy_jaccard_unfold. cbv zeta.
    pose proof (jaccard_loop_le Config.GENRES (0, 0)) as H. cbn [fst snd] in H.
    destruct (Qltb 0 (snd (jaccard_loop Config.GENRES A B (0, 0)))) eqn:E;
      [|lra].
    apply Qltb_lt in E. apply Qle_shift_div_r; [exact E|].
    specialize (H ltac:(lra)). lra.
  - apply fuzzy_dice_nonneg; [exact fuzzy_A_nonneg|exact fuzzy_B_nonneg].
  - rewrite fuzzy_dice_unfold. cbv zeta.
    destruct (dice_loop_jaccard_loop Config.GENRES (0, 0) (0, 0))
      as [H1 H2]; [reflexivity | cbn; lra |].
    pose proof (jaccard_loop_le Config.GENRES (0, 0)) as H. cbn [fst snd] in H.
    specialize (H ltac:(lra)).
    destruct (Qltb 0 (snd (dice_loop Config.GENRES A B (0, 0)))) eqn:E;
      [|lra].
    apply Qltb_lt in E. apply Qle_shift_div_r; [exact E|].
    rewrite H1. lra.
Qed.

Lemma dice_of_jaccard_core :
  fuzzy_dice A B == 2 * fuzzy_jaccard A B / (1 + fuzzy_jaccard A B).
Proof.
  rewrite fuzzy_dice_unfold, fuzzy_jaccard_unfold. cbv zeta.
  destruct (dice_loop_jaccard_loop Config.GENRES (0, 0) (0, 0))
    as [H1 H2]; [reflexivity | cbn; lra |].
  pose proof (jaccard_loop_le Config.GENRES (0, 0)) as Hle.
  cbn [fst snd] in Hle. specialize (Hle ltac:(lra)).
  destruct (jaccard_loop_mono A B fuzzy_A_nonneg fuzzy_B_nonneg Config.GENRES (0, 0))
    as [Hi Hu]. cbn [fst snd] in Hi, Hu.
  set (d := dice_loop Config.GENRES A B (0, 0)) in *.
  set (j := jaccard_loop Config.GENRES A B (0, 0)) in *.
  destruct (Qltb 0 (snd j)) eqn:Ej.
  - apply Qltb_lt in Ej.
    assert (Ed : Qltb 0 (snd d) = true) by (apply Qltb_lt; lra).
    rewrite Ed, H1. apply dice_formula_pos; assumption.
  - apply Qltb_ge in Ej.
    assert (Ed : Qltb 0 (snd d) = false) by (apply Qltb_ge; lra).
    rewrite Ed. apply dice_formula_zero.
Qed.


End SimilarityRange.

Lemma py_min_zero (a b : Q) :
  0 <= a -> 0 <= b -> a == 0 \/ b == 0 ->
  py_min a b == 0 /\ a * b == 0.
Proof.
  intros Ha Hb Hd. unfold py_min. split.
  - destruct (Qltb b a) eqn:E;
      [apply Qltb_lt in E | apply Qltb_ge in E]; destruct Hd; lra.
  - destruct Hd as [H|H]; rewrite H; ring.
Qed.

Section DisjointSupports.

Import FuzzySimilarity.

Variables A B : dict.
Hypothesis A_fuzzy : is_fuzzy_profile A = true.
Hypothesis B_fuzzy : is_fuzzy_profile B = true.

(** No scored genre has a positive strength in both profiles. *)
Hypothesis disjoint :
  forall g, In g Config.GENRES -> g <> "unknown"%string ->
            get A g 0 == 0 \/ get B g 0 == 0.

Lemma py_min_disjoint (g : string) :
  In g Config.GENRES -> g <> "unknown"%string ->
  py_min (get A g 0) (get B g 0) == 0
  /\ get A g 0 * get B g 0 == 0.
Proof.
  intros Hin Hg.
  pose proof (proj1 (fuzzy_profile_get A g A_fuzzy)) as Ha.
  pose proof (proj1 (fuzzy_profile_get B g B_fuzzy)) as Hb.
  pose proof (disjoint g Hin Hg) as Hd. clear Hin Hg.
  apply (py_min_zero _ _ Ha Hb Hd).
Qed.

Lemma jaccard_loop_disjoint (gs : list string) (acc : Q * Q) :
  incl gs Config.GENRES ->
  fst (jaccard_loop gs A B acc) == fst acc.
Proof.
  revert acc. induction gs as [|g gs IH]; intros acc Hincl;
    cbn [jaccard_loop].
  - reflexivity.
  - assert (Hgs : incl gs Config.GENRES)
      by (intros x Hx; apply Hincl; right; exact Hx).
    destruct (String.eqb g "unknown") eqn:E.
    + auto.
    + rewrite IH by exact Hgs. cbn [fst].
      apply String.eqb_neq in E.
      destruct (py_min_disjoint g (Hincl g (or_introl eq_refl)) E) as [H _].
      rewrite H. ring.
Qed.

Lemma cosine_loop_disjoint (gs : list string) (acc : Q * Q * Q) :
  incl gs Config.GENRES ->
  fst (fst (cosine_loop gs A B acc)) == fst (fst acc).
Proof.
  revert acc. induction gs as [|g gs IH]; intros [[d u] m] Hincl;
    cbn [cosine_loop].
  - reflexivity.
  - assert (Hgs : incl gs Config.GENRES)
      by (intros x Hx; apply Hincl; right; exact Hx).
    destruct (String.eqb g "unknown") eqn:E.
    + auto.
    + rewrite IH by exact Hgs. cbn [fst].
      apply String.eqb_neq in E.
      destruct (py_min_disjoint g (Hincl g (or_introl eq_refl)) E) as [_ H].
      rewrite H. ring.
Qed.

(** On disjoint supports every measure, and the default hybrid, is 0. *)
Lemma similarity_zero_on_disjoint_supports :
  fuzzy_jaccard A B == 0 /\ fuzzy_cosine A B == 0 /\ fuzzy_dice A B == 0
  /\ exists v, hybrid_similarity A B None = Ok v /\ v == 0.
Proof.
  assert (Hj : fuzzy_jaccard A B == 0).
  { rewrite fuzzy_jaccard_unfold. cbv zeta.
    pose proof (jaccard_loop_disjoint Config.GENRES (0, 0) (incl_refl _)) as H.
    cbn [fst] in H.
    destruct (Qltb 0 (snd (jaccard_loop Config.GENRES A B (0, 0))));
      [|reflexivity].
    apply Qdiv_zero_num. exact H. }
  assert (Hc : fuzzy_cosine A B == 0).
  { rewrite fuzzy_cosine_unfold. cbv zeta.
    pose proof (cosine_loop_disjoint Config.GENRES (0, 0, 0) (incl_refl _)) as H.
    cbn [fst] in H.
    set (acc := cosine_loop Config.GENRES A B (0, 0, 0)) in *.
    destruct (Qltb 0 (np_sqrt (snd (fst acc))) && Qltb 0 (np_sqrt (snd acc)));
      [|reflexivity].
    apply Qdiv_zero_num. exact H. }
  assert (Hd : fuzzy_dice A B == 0).
  { rewrite (dice_of_jaccard_core A B A_fuzzy B_fuzzy).
    generalize dependent (fuzzy_jaccard A B). intros j Hj0.
    rewrite Hj0. reflexivity. }
  split; [exact Hj|]. split; [exact Hc|]. split; [exact Hd|].
  rewrite hybrid_similarity_default. eexists. split; [reflexivity|].
  apply hybrid_zero; assumption.
Qed.

End DisjointSupports.

Section HybridWeights.

Import FuzzySimilarity.

(** A weights mapping that puts weight 1 on one measure and 0 on the two
    others makes the hybrid that measure. *)
Lemma hybrid_similarity_unit_weights (A B w : dict) (wj wc wd : Q) :
  getitem w "jaccard" = Ok wj -> getitem w "cosine" = Ok wc ->
  getitem w "dice" = Ok wd ->
  exists v,
    hybrid_similarity A B (Some w) = Ok v
    /\ (wj == 1 -> wc == 0 -> wd == 0 -> v == fuzzy_jaccard A B)
    /\ (wj == 0 -> wc == 1 -> wd == 0 -> v == fuzzy_cosine A B)
    /\ (wj == 0 -> wc == 0 -> wd == 1 -> v == fuzzy_dice A B).
Proof.
  intros Hj Hc Hd. unfold hybrid_similarity. rewrite Hj, Hc, Hd.
  cbn [bind]. eexists. split; [reflexivity|].
  generalize (fuzzy_jaccard A B), (fuzzy_cosine A B), (fuzzy_dice A B).
  intros j c d. split; [|split]; intros -> -> ->; ring.
Qed.

(** The first of [jaccard], [cosine], [dice] missing from the weights is
    the key of the [KeyError]; nothing else makes the hybrid fail. *)
Lemma hybrid_similarity_KeyError (A B w : dict) (e : exn) :
  hybrid_similarity A B (Some w) = Raise e <->
  (contains w "jaccard" = false /\ e = KeyError "jaccard")
  \/ (contains w "jaccard" = true /\ contains w "cosine" = false
      /\ e = KeyError "cosine")
  \/ (contains w "jaccard" = true /\ contains w "cosine" = true
      /\ contains w "dice" = false /\ e = KeyError "dice").
Proof.
  unfold hybrid_similarity, getitem, contains.
  destruct (lookup w "jaccard"); cbn [bind].
  - destruct (lookup w "cosine"); cbn [bind].
    + destruct (lookup w "dice"); cbn [bind].
      * split; [discriminate|].
        intros [[H _]|[(_ & H & _)|(_ & _ & H & _)]]; discriminate.
      * split.
        -- intros H. inversion H. right. right. auto.
        -- intros [[H _]|[(_ & H & _)|(_ & _ & _ & ->)]];
             try discriminate; reflexivity.
    + split.
      * intros H. inversion H. right. left. auto.
      * intros [[H _]|[(_ & _ & ->)|(_ & H & _)]];
          try discriminate; reflexivity.
  - split.
    + intros H. inversion H. left. auto.
    + intros [[_ ->]|[(H & _)|(H & _)]]; try discriminate; reflexivity.
Qed.

End HybridWeights.

(** * Further properties of the candidate scorer *)

Section TopGenres.

Import FuzzyRecommender.

Lemma StronglySorted_filter {T : Type} (R : T -> T -> Prop) (p : T -> bool)
    (l : list T) :
  StronglySorted R l -> StronglySorted R (filter p l).
Proof.
  induction 1 as [|x l Hs IH Hx]; cbn [filter].
  - constructor.
  - destruct (p x); [|exact IH]. constructor; [exact IH|].
    rewrite Forall_forall in Hx |- *. intros y Hy.
    apply filter_In in Hy. apply Hx. tauto.
Qed.

Lemma NoDup_map_prefix {T U : Type} (f : T -> U) (l1 l2 : list T) :
  NoDup (map f (l1 ++ l2)) -> NoDup (map f l1).
Proof. rewrite map_app. apply NoDup_app_remove_r. Qed.

Lemma top_movie_genres_shape (movie_profile : dict) (n : Z) :
  (0 <= n)%Z ->
  let top := _get_top_movie_genres movie_profile n in
  (length top <= Z.to_nat n)%nat
  /\ Forall (fun gs => In gs movie_profile /\ 1 # 10 < snd gs) top
  /\ StronglySorted (desc snd) top
  /\ (NoDup (map fst movie_profile) -> NoDup (map fst top)).
Proof.
  intros Hn. cbv zeta. unfold _get_top_movie_genres.
  set (sorted := sort_desc (fun x : string * Q => snd x) movie_profile).
  set (p := fun gs : string * Q => Qltb (1 # 10) (snd gs)).
  destruct (slice_to_prefix sorted n) as (rest & Hrest).
  assert (Hsorted : StronglySorted (desc snd) (slice_to sorted n)).
  { apply StronglySorted_app_l with (l2 := rest). rewrite <- Hrest.
    apply (sort_desc_sorted (fun x : string * Q => snd x)). }
  split; [|split; [|split]].
  - etransitivity; [apply filter_length_le|].
    rewrite slice_to_length by exact Hn. lia.
  - rewrite Forall_forall. intros gs Hgs. apply filter_In in Hgs.
    destruct Hgs as [Hin Hp]. split.
    + apply slice_to_In in Hin.
      apply (Permutation_in _
               (Permutation_sym (sort_desc_Permutation
                  (fun x : string * Q => snd x) movie_profile))).
      exact Hin.
    + apply Qltb_lt. exact Hp.
  - apply StronglySorted_filter. exact Hsorted.
  - intros Hnd. apply NoDup_map_filter.
    apply NoDup_map_prefix with (l2 := rest). rewrite <- Hrest.
    apply (Permutation_NoDup (l := map fst movie_profile)); [|exact Hnd].
    apply Permutation_map.
    apply (sort_desc_Permutation (fun x : string * Q => snd x)).
Qed.

(** [_get_top_movie_genres] returns at most [n] items of the profile,
    each stronger than 0.1, strongest first, no genre twice. *)
Lemma get_top_movie_genres_spec (movie_profile : dict) (n : Z) :
  (0 <= n)%Z ->
  let top := _get_top_movie_genres movie_profile n in
  (length top <= Z.to_nat n)%nat
  /\ Forall (fun gs => In gs movie_profile /\ 1 # 10 < snd gs) top
  /\ StronglySorted (desc snd) top
  /\ (NoDup (map fst movie_profile) -> NoDup (map fst top)).
Proof. exact (top_movie_genres_shape movie_profile n). Qed.

(** Keys of a dictionary. *)
Lemma lookup_In (d : dict) (k : string) (v : Q) :
  lookup d k = Some v -> In (k, v) d.
Proof.
  induction d as [|[k' w] d IH]; cbn [lookup]; [discriminate|].
  destruct (String.eqb k' k) eqn:E.
  - apply String.eqb_eq in E. intros H. inversion H; subst. left. reflexivity.
  - intros H. right. auto.
Qed.

Lemma setitem_keys (d : dict) (k : string) (v : Q) :
  map fst (setitem d k v) =
  if contains d k then map fst d else map fst d ++ [k].
Proof.
  unfold contains.
  induction d as [|[k' w] d IH]; cbn [setitem lookup map fst app].
  - reflexivity.
  - destruct (String.eqb k' k) eqn:E; cbn [map fst].
    + apply String.eqb_eq in E. subst. reflexivity.
    + rewrite IH. destruct (lookup d k); reflexivity.
Qed.

Lemma contains_In (d : dict) (k : string) :
  contains d k = true <-> In k (map fst d).
Proof.
  unfold contains. induction d as [|[k' w] d IH]; cbn [lookup map fst In].
  - split; [discriminate|tauto].
  - destruct (String.eqb k' k) eqn:E.
    + apply String.eqb_eq in E. split; auto.
    + apply String.eqb_neq in E. rewrite IH. split; [auto|].
      intros [H|H]; [contradiction|exact H].
Qed.

Lemma setitem_NoDup (d : dict) (k : string) (v : Q) :
  NoDup (map fst d) -> NoDup (map fst (setitem d k v)).
Proof.
  intros H. rewrite setitem_keys. destruct (contains d k) eqn:E; [exact H|].
  apply NoDup_app; [exact H | repeat constructor; intros [] |].
  intros x Hx [<-|[]]. apply contains_In in Hx. congruence.
Qed.

(** The movie profile has distinct keys, all of them scored genres. *)
Lemma movie_profile_loop_keys (gs : list string) (movie : movie_row)
    (mp : dict) :
  NoDup (map fst mp) ->
  NoDup (map fst (movie_profile_loop gs movie mp))
  /\ forall g, In g (map fst (movie_profile_loop gs movie mp)) ->
               In g (map fst mp)
               \/ (In g gs /\ g <> "unknown"%string
                   /\ contains (columns movie) g = true).
Proof.
  revert mp. induction gs as [|g' gs IH]; intros mp Hnd;
    cbn [movie_profile_loop].
  - split; [exact Hnd|]. auto.
  - destruct (negb (String.eqb g' "unknown") && contains (columns movie) g')
      eqn:E.
    + apply andb_true_iff in E. destruct E as [E1 E2].
      apply negb_true_iff, String.eqb_neq in E1.
      destruct (IH (setitem mp g' (get (columns movie) g' 0))
                   (setitem_NoDup _ _ _ Hnd)) as [H1 H2].
      split; [exact H1|]. intros g Hg. destruct (H2 g Hg) as [Hin|Hin].
      * rewrite setitem_keys in Hin.
        destruct (contains mp g'); [auto|].
        apply in_app_or in Hin. destruct Hin as [Hin|[<-|[]]]; [auto|].
        right. split; [left; reflexivity|]. auto.
      * right. destruct Hin as (Hin & Hne & Hc).
        split; [right; exact Hin|]. auto.
    + destruct (IH mp Hnd) as [H1 H2]. split; [exact H1|].
      intros g Hg. destruct (H2 g Hg) as [Hin|(Hin & Hne & Hc)]; [auto|].
      right. split; [right; exact Hin|]. auto.
Qed.

Lemma build_movie_profile_keys (movie : movie_row) :
  NoDup (map fst (build_movie_profile movie))
  /\ forall g, In g (map fst (build_movie_profile movie)) ->
               In g Config.GENRES /\ g <> "unknown"%string
               /\ contains (columns movie) g = true.
Proof.
  unfold build_movie_profile.
  destruct (movie_profile_loop_keys Config.GENRES movie [] (NoDup_nil _))
    as [H1 H2].
  split; [exact H1|]. intros g Hg. destruct (H2 g Hg) as [[]|H]. exact H.
Qed.

End TopGenres.

Section ScorerOutput.

Import FuzzySimilarity FuzzyRecommender.

Lemma scored_unique (prefs : dict) (rows : list movie_row)
    (scored scored' : list recommendation) :
  Forall2 (fun m r => score_movie prefs m = Ok r) rows scored ->
  Forall2 (fun m r => score_movie prefs m = Ok r) rows scored' ->
  scored' = scored.
Proof.
  intros HF. revert scored'.
  induction HF as [|m r l l' Hr _ IH]; intros s' HF'; inversion HF'; subst.
  - reflexivity.
  - f_equal; [congruence|auto].
Qed.

Lemma isin_In (id : Z) (rated : list Z) : isin id rated = true <-> In id rated.
Proof.
  unfold isin. rewrite existsb_exists. split.
  - intros (x & Hx & E). apply Z.eqb_eq in E. subst. exact Hx.
  - intros H. exists id. split; [exact H|apply Z.eqb_refl].
Qed.

Lemma Forall2_In_r {T U : Type} (R : T -> U -> Prop) (l : list T)
    (l' : list U) (y : U) :
  Forall2 R l l' -> In y l' -> exists x, In x l /\ R x y.
Proof.
  induction 1 as [|x y' l l' Hxy _ IH]; intros Hin.
  - destruct Hin.
  - destruct Hin as [<-|Hin].
    + exists x. split; [left; reflexivity|exact Hxy].
    + destruct (IH Hin) as (x' & Hx' & HR). exists x'. split; [right|]; auto.
Qed.

(** Every entry of the list comes from scoring one unrated row. *)
Lemma generate_recommendations_In (up : user_profile_t) (df : DataFrame)
    (rated : list Z) (top_n : Z) (out : list recommendation)
    (r : recommendation) :
  generate_recommendations up df rated top_n = Ok out -> In r out ->
  exists m, In m (unrated df rated) /\ score_movie (profile up) m = Ok r.
Proof.
  intros Hg Hr.
  destruct (generate_recommendations_ok up df rated top_n)
    as (scored & HF & Hg').
  rewrite Hg in Hg'. inversion Hg'; subst out.
  apply slice_to_In in Hr.
  apply (Permutation_in _
           (Permutation_sym (sort_desc_Permutation similarity_score scored)))
    in Hr.
  exact (Forall2_In_r _ _ _ _ HF Hr).
Qed.

Lemma recommendations_from_unrated (up : user_profile_t)
    (df : DataFrame) (rated : list Z) (top_n : Z)
    (out : list recommendation) :
  generate_recommendations up df rated top_n = Ok out ->
  Forall (fun r =>
            (exists m, In m df /\ movie_id m = rec_movie_id r
                       /\ title m = rec_title r)
            /\ ~ In (rec_movie_id r) rated) out.
Proof.
  intros Hg. rewrite Forall_forall. intros r Hr.
  destruct (generate_recommendations_In _ _ _ _ _ _ Hg Hr) as (m & Hm & Hs).
  destruct (score_movie_ok (profile up) m) as (r' & Hr' & Hid & Ht).
  rewrite Hs in Hr'. inversion Hr'; subst r'.
  unfold unrated in Hm. apply filter_In in Hm. destruct Hm as [Hin Hex].
  split.
  - exists m. auto.
  - rewrite Hid. intros Hc. apply isin_In in Hc. rewrite Hc in Hex.
    discriminate.
Qed.

(** The scorer recommends only catalog movies and never a rated one. *)
Lemma generate_recommendations_respects_exclusions (up : user_profile_t)
    (df : DataFrame) (rated : list Z) (top_n : Z)
    (out : list recommendation) :
  generate_recommendations up df rated top_n = Ok out ->
  Forall (fun r =>
            (exists m, In m df /\ movie_id m = rec_movie_id r
                       /\ title m = rec_title r)
            /\ ~ In (rec_movie_id r) rated) out.
Proof. exact (recommendations_from_unrated up df rated top_n out). Qed.

(** The [genres] field of an entry: at most three pairs, each a scored
    genre (never the sentinel) stronger than 0.1, strongest first, no
    genre twice. *)
Lemma generate_recommendations_genres (up : user_profile_t) (df : DataFrame)
    (rated : list Z) (top_n : Z) (out : list recommendation) :
  generate_recommendations up df rated top_n = Ok out ->
  Forall (fun r =>
            (length (genres r) <= 3)%nat
            /\ Forall (fun gs => In (fst gs) Config.GENRES
                                 /\ fst gs <> "unknown"%string
                                 /\ 1 # 10 < snd gs) (genres r)
            /\ StronglySorted (desc snd) (genres r)
            /\ NoDup (map fst (genres r))) out.
Proof.
  intros Hg. rewrite Forall_forall. intros r Hr.
  destruct (generate_recommendations_In _ _ _ _ _ _ Hg Hr) as (m & _ & Hs).
  unfold score_movie in Hs. rewrite hybrid_similarity_default in Hs.
  cbn [bind] in Hs. inversion Hs; subst r; clear Hs. cbn [genres].
  destruct (build_movie_profile_keys m) as [Hnd Hkeys].
  destruct (top_movie_genres_shape (build_movie_profile m) 3 ltac:(lia))
    as (Hlen & Hall & Hsorted & Hnd').
  split; [exact Hlen|]. split; [|split; [exact Hsorted|exact (Hnd' Hnd)]].
  rewrite Forall_forall in Hall |- *. intros gs Hgs.
  destruct (Hall gs Hgs) as [Hin Hgt].
  assert (Hk : In (fst gs) (map fst (build_movie_profile m)))
    by (apply in_map; exact Hin).
  destruct (Hkeys _ Hk) as (H1 & H2 & _). auto.
Qed.

(** For [top_n >= 0] the scorer returns exactly [min(top_n, P)] entries,
    [P] being the number of unrated movies: none for [top_n = 0] or an
    empty pool, all of them for a large [top_n]. *)
Lemma generate_recommendations_length (up : user_profile_t) (df : DataFrame)
    (rated : list Z) (top_n : Z) :
  (0 <= top_n)%Z ->
  exists out,
    generate_recommendations up df rated top_n = Ok out
    /\ length out = Nat.min (Z.to_nat top_n) (length (unrated df rated)).
Proof.
  intros Hn.
  destruct (generate_recommendations_ok up df rated top_n)
    as (scored & HF & Hg).
  eexists. split; [exact Hg|].
  rewrite slice_to_length by exact Hn.
  rewrite sort_desc_length, (scored_length _ _ _ HF). reflexivity.
Qed.

(** Asking for fewer entries gives a prefix of what asking for more
    gives. *)
Lemma generate_recommendations_prefix (up : user_profile_t) (df : DataFrame)
    (rated : list Z) (k n : Z) (out : list recommendation) :
  (0 <= k <= n)%Z ->
  generate_recommendations up df rated n = Ok out ->
  generate_recommendations up df rated k = Ok (firstn (Z.to_nat k) out).
Proof.
  intros Hk Hg.
  destruct (generate_recommendations_ok up df rated n) as (scored & HF & Hn).
  destruct (generate_recommendations_ok up df rated k) as (scored' & HF' & Hk').
  pose proof (scored_unique _ _ _ _ HF HF'). subst scored'. rewrite Hg in Hn. inversion Hn; subst out.
  rewrite Hk'. f_equal. unfold slice_to.
  destruct (0 <=? k)%Z eqn:E1; [|apply Z.leb_gt in E1; lia].
  destruct (0 <=? n)%Z eqn:E2; [|apply Z.leb_gt in E2; lia].
  rewrite firstn_firstn. f_equal. lia.
Qed.

End ScorerOutput.

(** * Further properties of the MMR reranker *)

Section Reranker.

Import FuzzyRecommender.

(** The loop only appends: what was selected stays, in order. *)
Lemma mmr_loop_prefix (fuel : nat) (top_n : Z) (df : Q)
    (diverse remaining out : list recommendation) :
  mmr_loop fuel top_n df diverse remaining = Some (Ok out) ->
  exists tail, out = diverse ++ tail.
Proof.
  revert diverse remaining.
  induction fuel as [|fuel IH]; intros diverse remaining; cbn [mmr_loop];
    [discriminate|].
  destruct ((Z.of_nat (length diverse) <? top_n)%Z
            && negb (Nat.eqb (length remaining) 0)).
  - destruct (best_loop df diverse remaining 0 (-1, (-1)%Z))
      as [[s b]|e]; [|discriminate].
    destruct (0 <=? b)%Z.
    + destruct (pop remaining (Z.to_nat b)) as [[x r]|]; [|discriminate].
      intros H. apply IH in H. destruct H as (tail & ->).
      exists (x :: tail). rewrite <- app_assoc. reflexivity.
    + intros H. inversion H; subst. exists []. symmetry. apply app_nil_r.
  - intros H. inversion H; subst. exists []. symmetry. apply app_nil_r.
Qed.

(** The first entry of a non-empty diversified list is the head of the
    pool, the most relevant candidate. *)
Lemma mmr_head (pool out : list recommendation) (top_n : Z) (df : Q) :
  (1 <= top_n)%Z ->
  mmr pool top_n df = Some (Ok out) -> hd_error out = hd_error pool.
Proof.
  intros Hn. unfold mmr. destruct pool as [|first remaining].
  - intros H. inversion H; subst. reflexivity.
  - destruct (mmr_loop (S (length remaining)) top_n df [first] remaining)
      as [[out'|e]|] eqn:E; try discriminate.
    intros H. inversion H; subst; clear H.
    apply mmr_loop_prefix in E. destruct E as (tail & ->).
    unfold slice_to. destruct (0 <=? top_n)%Z eqn:E0;
      [|apply Z.leb_gt in E0; lia].
    destruct (Z.to_nat top_n) as [|k] eqn:Ek; [lia|]. reflexivity.
Qed.

(** The diversified list and the plain list start with the same movie. *)
Lemma diverse_first_pick (up : user_profile_t) (df : DataFrame)
    (rated : list Z) (top_n : Z) (d : Q)
    (diverse plain : list recommendation) :
  (1 <= top_n)%Z ->
  generate_diverse_recommendations up df rated top_n d = Some (Ok diverse) ->
  generate_recommendations up df rated top_n = Ok plain ->
  hd_error diverse = hd_error plain.
Proof.
  intros Hn Hd Hp.
  destruct (diverse_pool up df rated top_n d) as (pool & Hg & _ & Hm & _).
  rewrite Hm in Hd. rewrite (mmr_head _ _ _ _ Hn Hd).
  destruct (generate_recommendations_ok up df rated 50) as (scored & HF & H50).
  destruct (generate_recommendations_ok up df rated top_n)
    as (scored' & HF' & Hn').
  pose proof (scored_unique _ _ _ _ HF HF'). subst scored'. rewrite Hg in H50. rewrite Hp in Hn'.
  inversion H50; inversion Hn'; subst.
  unfold slice_to. cbn [Z.leb Z.compare].
  destruct (0 <=? top_n)%Z eqn:E0; [|apply Z.leb_gt in E0; lia].
  destruct (Z.to_nat top_n) as [|k] eqn:Ek; [lia|].
  destruct (sort_desc similarity_score scored); reflexivity.
Qed.

(** The inner loop returns the first candidate of highest MMR score
    among those scoring above the initial [best_score]. *)
Lemma best_loop_argmax (df : Q) (diverse : list recommendation)
    (remaining : list recommendation) (i : Z) (s0 s : Q) (b0 b : Z) :
  best_loop df diverse remaining i (s0, b0) = Ok (s, b) ->
  s0 <= s
  /\ (forall j c ms, nth_error remaining j = Some c ->
        max_similarity_loop diverse c 0 = Ok ms ->
        similarity_score c - df * ms <= s)
  /\ ((b = b0 /\ s = s0)
      \/ exists k c ms,
           b = (i + Z.of_nat k)%Z
           /\ nth_error remaining k = Some c
           /\ max_similarity_loop diverse c 0 = Ok ms
           /\ s = similarity_score c - df * ms
           /\ s0 < s
           /\ forall j c' ms', (j < k)%nat ->
                nth_error remaining j = Some c' ->
                max_similarity_loop diverse c' 0 = Ok ms' ->
                similarity_score c' - df * ms' < s).
Proof.
  revert i s0 b0.
  induction remaining as [|c rest IH]; intros i s0 b0; cbn [best_loop].
  - intros H. inversion H; subst. split; [lra|]. split; [|auto].
    intros [|j] c ms Hj; discriminate.
  - destruct (max_similarity_loop diverse c 0) as [ms|e] eqn:Ems;
      cbn [bind fst]; [|discriminate].
    set (m := similarity_score c - df * ms).
    destruct (Qltb s0 m) eqn:El; intros H; apply IH in H;
      destruct H as (Hge & Hall & Hcase).
    + apply Qltb_lt in El. split; [lra|]. split.
      * intros [|j] c' ms' Hj Hms'; cbn [nth_error] in Hj.
        -- inversion Hj; subst c'. rewrite Ems in Hms'.
           inversion Hms'; subst ms'. exact Hge.
        -- eauto.
      * right. destruct Hcase as [[-> ->]|(k & c' & ms' & Hb & Hk & Hms' & Hs & Hlt & Hbefore)].
        -- exists 0%nat, c, ms. repeat split; auto; try lia.
        -- exists (S k), c', ms'. repeat split; auto; try lia; try lra.
           intros [|j] c'' ms'' Hj Hn Hms''; cbn [nth_error] in Hn.
           ++ inversion Hn; subst c''. rewrite Ems in Hms''.
              inversion Hms''; subst ms''. fold m. lra.
           ++ apply (Hbefore j c'' ms''); auto. lia.
    + apply Qltb_ge in El. split; [exact Hge|]. split.
      * intros [|j] c' ms' Hj Hms'; cbn [nth_error] in Hj.
        -- inversion Hj; subst c'. rewrite Ems in Hms'.
           inversion Hms'; subst ms'. fold m. lra.
        -- eauto.
      * destruct Hcase as [[-> ->]|(k & c' & ms' & Hb & Hk & Hms' & Hs & Hlt & Hbefore)];
          [left; auto|].
        right. exists (S k), c', ms'. repeat split; auto; try lia.
        intros [|j] c'' ms'' Hj Hn Hms''; cbn [nth_error] in Hn.
        -- inversion Hn; subst c''. rewrite Ems in Hms''.
           inversion Hms''; subst ms''. fold m. lra.
        -- apply (Hbefore j c'' ms''); auto. lia.
Qed.

End Reranker.

Section RerankerZeroFactor.

Import FuzzyRecommender.

(** With a diversity factor of 0 a candidate no more relevant than the
    best so far never replaces it. *)
Lemma best_loop_keep (diverse rest : list recommendation) (i : Z)
    (best best' : Q * Z) :
  Forall (fun c => similarity_score c <= fst best) rest ->
  best_loop 0 diverse rest i best = Ok best' -> best' = best.
Proof.
  revert i. induction rest as [|c rest IH]; intros i Hall; cbn [best_loop].
  - intros H. inversion H. reflexivity.
  - destruct (max_similarity_loop diverse c 0) as [ms|e]; cbn [bind];
      [|discriminate].
    inversion Hall as [|? ? Hc Hrest]; subst.
    destruct (Qltb (fst best) (similarity_score c - 0 * ms)) eqn:E.
    + apply Qltb_lt in E. lra.
    + apply IH. exact Hrest.
Qed.

Lemma best_loop_zero_sorted (diverse rest : list recommendation)
    (c : recommendation) (best' : Q * Z) :
  StronglySorted (desc similarity_score) (c :: rest) ->
  0 <= similarity_score c ->
  best_loop 0 diverse (c :: rest) 0 (-1, (-1)%Z) = Ok best' ->
  snd best' = 0%Z.
Proof.
  intros Hs Hc. cbn [best_loop].
  destruct (max_similarity_loop diverse c 0) as [ms|e]; cbn [bind fst];
    [|discriminate].
  destruct (Qltb (-1) (similarity_score c - 0 * ms)) eqn:E.
  - intros H. apply best_loop_keep in H; [subst; reflexivity|].
    inversion Hs as [|? ? _ Hall]; subst. cbn [fst].
    rewrite Forall_forall in Hall |- *. intros c' Hc'.
    specialize (Hall c' Hc'). unfold desc in Hall. lra.
  - apply Qltb_ge in E. lra.
Qed.

(** With a diversity factor of 0 the loop takes the remaining
    candidates in their order. *)
Lemma mmr_loop_zero (fuel : nat) (top_n : Z)
    (diverse remaining out : list recommendation) :
  StronglySorted (desc similarity_score) remaining ->
  Forall (fun c => 0 <= similarity_score c) remaining ->
  mmr_loop fuel top_n 0 diverse remaining = Some (Ok out) ->
  exists rest, out ++ rest = diverse ++ remaining.
Proof.
  revert diverse remaining.
  induction fuel as [|fuel IH]; intros diverse remaining Hs Hpos;
    cbn [mmr_loop]; [discriminate|].
  destruct ((Z.of_nat (length diverse) <? top_n)%Z
            && negb (Nat.eqb (length remaining) 0));
    [|intros H; inversion H; subst; eauto].
  destruct (best_loop 0 diverse remaining 0 (-1, (-1)%Z))
    as [[s b]|e] eqn:E; [|discriminate].
  destruct (0 <=? b)%Z; [|intros H; inversion H; subst; eauto].
  destruct remaining as [|c rest]; [discriminate|].
  inversion Hpos as [|? ? Hc Hrest]; subst.
  apply best_loop_zero_sorted in E; [|assumption|assumption].
  cbn [snd] in E. subst b. cbn [Z.to_nat pop].
  intros H. apply IH in H.
  - destruct H as (rest' & H). exists rest'. rewrite H, <- app_assoc.
    reflexivity.
  - inversion Hs; assumption.
  - exact Hrest.
Qed.

Lemma firstn_of_prefix {T : Type} (l1 l2 : list T) :
  firstn (length l1) (l1 ++ l2) = l1.
Proof.
  rewrite firstn_app, Nat.sub_diag, firstn_all. cbn. apply app_nil_r.
Qed.

Lemma mmr_zero (pool out : list recommendation) (top_n : Z) :
  (0 <= top_n)%Z ->
  StronglySorted (desc similarity_score) pool ->
  Forall (fun c => 0 <= similarity_score c) pool ->
  mmr pool top_n 0 = Some (Ok out) ->
  out = firstn (Z.to_nat top_n) pool.
Proof.
  intros Hn Hs Hpos Hm.
  assert (Hlen : length out = Nat.min (Z.to_nat top_n) (length pool)).
  { apply (mmr_length pool out top_n 0 Hn); [lra|exact Hpos|exact Hm]. }
  assert (Hpre : exists rest, out ++ rest = pool).
  { unfold mmr in Hm. destruct pool as [|first remaining].
    - inversion Hm; subst. exists []. reflexivity.
    - destruct (mmr_loop (S (length remaining)) top_n 0 [first] remaining)
        as [[out'|e]|] eqn:E; try discriminate.
      inversion Hm; subst; clear Hm.
      inversion Hs; inversion Hpos; subst.
      apply mmr_loop_zero in E; [|assumption|assumption].
      destruct E as (rest & E).
      destruct (slice_to_prefix out' top_n) as (tail & Ht).
      exists (tail ++ rest). rewrite app_assoc, <- Ht. exact E. }
  destruct Hpre as (rest & <-).
  destruct (Nat.le_gt_cases (Z.to_nat top_n) (length out)) as [Hle|Hgt].
  - assert (length out = Z.to_nat top_n) by lia.
    rewrite <- H. symmetry. apply firstn_of_prefix.
  - rewrite length_app in Hlen.
    assert (rest = []) by (destruct rest; [reflexivity|cbn in Hlen; lia]).
    subst rest. rewrite app_nil_r. symmetry. apply firstn_all2. lia.
Qed.

End RerankerZeroFactor.

Section DiverseZeroFactor.

Import FuzzyRecommender.

(** With [diversity_factor = 0] diversification changes nothing: the
    list is the plain recommendation list for [min(top_n, 50)]. *)
Lemma diverse_zero_factor_is_plain (up : user_profile_t) (df : DataFrame)
    (rated : list Z) (top_n : Z) (out : list recommendation) :
  is_fuzzy_profile (profile up) = true ->
  is_fuzzy_catalog df = true ->
  (0 <= top_n)%Z ->
  generate_diverse_recommendations up df rated top_n 0 = Some (Ok out) ->
  generate_recommendations up df rated (Z.min top_n 50) = Ok out.
Proof.
  intros Hup Hdf Hn Hd.
  destruct (diverse_pool up df rated top_n 0) as (pool & Hg & _ & Hm & Hpos).
  rewrite Hm in Hd.
  destruct (generate_recommendations_ok up df rated 50) as (scored & HF & H50).
  destruct (generate_recommendations_ok up df rated (Z.min top_n 50))
    as (scored' & HF' & Hmin).
  pose proof (scored_unique _ _ _ _ HF HF'). subst scored'. rewrite Hg in H50. inversion H50; subst pool.
  rewrite Hmin. f_equal.
  apply mmr_zero in Hd; [|exact Hn| |exact (Hpos Hup Hdf)].
  - subst out. unfold slice_to. cbn [Z.leb Z.compare].
    destruct (0 <=? Z.min top_n 50)%Z eqn:E; [|apply Z.leb_gt in E; lia].
    rewrite firstn_firstn. f_equal. lia.
  - destruct (slice_to_prefix (sort_desc similarity_score scored) 50)
      as (rest & Hr).
    apply StronglySorted_app_l with (l2 := rest). rewrite <- Hr.
    apply sort_desc_sorted.
Qed.

End DiverseZeroFactor.

Section RerankerNoRaise.

Import FuzzyRecommender.

Lemma py_set_nonempty (labels : list string) :
  labels <> [] -> length (py_set labels) <> 0%nat.
Proof.
  destruct labels as [|x l]; [contradiction|]. intros _ H.
  assert (Hin : In x (py_set (x :: l))).
  { unfold py_set. apply nodup_In. left. reflexivity. }
  destruct (py_set (x :: l)); [destruct Hin|discriminate].
Qed.

(** An overlap with a candidate that has genres is defined. *)
Lemma genre_overlap_defined (selected candidate : recommendation) :
  genres candidate <> [] ->
  exists q, genre_overlap selected candidate = Ok q.
Proof.
  intros Hc. unfold genre_overlap.
  assert (Hl : length (py_set (map fst (genres candidate))) <> 0%nat).
  { apply py_set_nonempty. destruct (genres candidate); [contradiction|].
    discriminate. }
  destruct (Nat.eqb _ 0) eqn:E; [|eauto].
  apply Nat.eqb_eq in E. lia.
Qed.

Lemma max_similarity_loop_defined (diverse : list recommendation)
    (candidate : recommendation) (m0 : Q) :
  genres candidate <> [] ->
  exists ms, max_similarity_loop diverse candidate m0 = Ok ms.
Proof.
  intros Hc. revert m0.
  induction diverse as [|s diverse IH]; intros m0; cbn [max_similarity_loop].
  - eauto.
  - destruct (genre_overlap_defined s candidate Hc) as (q & ->).
    cbn [bind]. apply IH.
Qed.

Lemma best_loop_defined (df : Q) (diverse remaining : list recommendation)
    (i : Z) (best : Q * Z) :
  Forall (fun c => genres c <> []) remaining ->
  exists best', best_loop df diverse remaining i best = Ok best'.
Proof.
  intros Hall. revert i best.
  induction Hall as [|c rest Hc _ IH]; intros i best; cbn [best_loop].
  - eauto.
  - destruct (max_similarity_loop_defined diverse c 0 Hc) as (ms & ->).
    cbn [bind]. destruct (Qltb _ _); apply IH.
Qed.

Lemma mmr_loop_defined (fuel : nat) (top_n : Z) (df : Q)
    (diverse remaining : list recommendation) :
  Forall (fun c => genres c <> []) remaining ->
  (length remaining < fuel)%nat ->
  exists out, mmr_loop fuel top_n df diverse remaining = Some (Ok out).
Proof.
  revert diverse remaining.
  induction fuel as [|fuel IH]; intros diverse remaining Hall Hf; [lia|].
  cbn [mmr_loop].
  destruct ((Z.of_nat (length diverse) <? top_n)%Z
            && negb (Nat.eqb (length remaining) 0)); [|eauto].
  destruct (best_loop_defined df diverse remaining 0 (-1, (-1)%Z) Hall)
    as ([s b] & E). rewrite E.
  destruct (0 <=? b)%Z eqn:Eb; [|eauto].
  apply Z.leb_le in Eb. apply best_loop_index in E. cbn [snd] in E.
  destruct (pop_in_range remaining (Z.to_nat b)) as (x & r & Hp); [lia|].
  rewrite Hp. apply IH.
  - pose proof (Permutation_Forall (pop_Permutation _ _ _ _ Hp) Hall) as HF.
    inversion HF; assumption.
  - apply pop_length in Hp. lia.
Qed.

(** No candidate without genres in the pool: the reranker returns a
    list. *)
Lemma mmr_defined (pool : list recommendation) (top_n : Z) (df : Q) :
  Forall (fun c => genres c <> []) pool ->
  exists out, mmr pool top_n df = Some (Ok out).
Proof.
  intros Hall. unfold mmr. destruct pool as [|first remaining]; [eauto|].
  inversion Hall as [|? ? _ Hrem]; subst.
  destruct (mmr_loop_defined (S (length remaining)) top_n df [first]
              remaining Hrem ltac:(lia)) as (out & ->).
  eauto.
Qed.

(** The value the movie profile holds for a scored genre of the row. *)
Lemma movie_profile_loop_lookup (gs : list string) (movie : movie_row)
    (mp : dict) (g : string) :
  In g gs \/ lookup mp g = Some (get (columns movie) g 0) ->
  g <> "unknown"%string -> contains (columns movie) g = true ->
  lookup (movie_profile_loop gs movie mp) g = Some (get (columns movie) g 0).
Proof.
  intros H Hg Hc. revert mp H.
  induction gs as [|g' gs IH]; intros mp H; cbn [movie_profile_loop].
  - destruct H as [[]|H]. exact H.
  - destruct (String.eqb g' g) eqn:E.
    + apply String.eqb_eq in E. subst g'.
      apply String.eqb_neq in Hg. rewrite Hg, Hc. cbn [negb andb].
      apply IH. right. rewrite lookup_setitem, String.eqb_refl. reflexivity.
    + assert (H' : forall mp', lookup mp' g = lookup mp g ->
                In g gs \/ lookup mp' g = Some (get (columns movie) g 0)).
      { intros mp' Hmp'. destruct H as [[Heq|Hin]|Hl]; [|auto|].
        - subst g'. rewrite String.eqb_refl in E. discriminate.
        - right. rewrite Hmp'. exact Hl. }
      destruct (negb (String.eqb g' "unknown") && contains (columns movie) g').
      * apply IH, H'. rewrite lookup_setitem, E. reflexivity.
      * apply IH, H'. reflexivity.
Qed.

(** A profile with an item stronger than 0.1 has a top genre. *)
Lemma get_top_movie_genres_nonempty (movie_profile : dict) (n : Z)
    (g : string) (v : Q) :
  (1 <= n)%Z -> In (g, v) movie_profile -> 1 # 10 < v ->
  _get_top_movie_genres movie_profile n <> [].
Proof.
  intros Hn Hin Hv. unfold _get_top_movie_genres.
  pose proof (sort_desc_Permutation (fun x : string * Q => snd x)
                movie_profile) as HP.
  pose proof (sort_desc_sorted (fun x : string * Q => snd x)
                movie_profile) as HS.
  destruct (sort_desc (fun x : string * Q => snd x) movie_profile)
    as [|h t] eqn:E.
  - apply Permutation_sym, Permutation_nil in HP. subst. destruct Hin.
  - assert (Hh : 1 # 10 < snd h).
    { apply (Permutation_in _ HP) in Hin.
      pose proof (sorted_head_max (fun x : string * Q => snd x) h (g, v) t
                    HS Hin) as Hle.
      cbn [snd] in Hle. lra. }
    unfold slice_to. destruct (0 <=? n)%Z eqn:E0;
      [|apply Z.leb_gt in E0; lia].
    destruct (Z.to_nat n) as [|k] eqn:Ek; [lia|]. cbn [firstn filter].
    apply Qltb_lt in Hh. rewrite Hh. discriminate.
Qed.

(** When every unrated movie has some scored genre stronger than 0.1,
    [generate_diverse_recommendations] never raises. *)
Lemma diverse_defined (up : user_profile_t) (df : DataFrame)
    (rated : list Z) (top_n : Z) (d : Q) :
  (forall m, In m (unrated df rated) ->
     exists g, In g Config.GENRES /\ g <> "unknown"%string
               /\ 1 # 10 < get (columns m) g 0) ->
  exists out,
    generate_diverse_recommendations up df rated top_n d = Some (Ok out).
Proof.
  intros Hall.
  destruct (diverse_pool up df rated top_n d) as (pool & Hg & _ & Hm & _).
  rewrite Hm. apply mmr_defined. rewrite Forall_forall. intros r Hr.
  destruct (generate_recommendations_In _ _ _ _ _ _ Hg Hr) as (m & Hin & Hs).
  destruct (Hall m Hin) as (g & HG & Hne & Hgt).
  unfold score_movie in Hs. rewrite hybrid_similarity_default in Hs.
  cbn [bind] in Hs. inversion Hs; subst r; clear Hs. cbn [genres].
  assert (Hc : contains (columns m) g = true).
  { unfold contains. unfold get in Hgt.
    destruct (lookup (columns m) g); [reflexivity|lra]. }
  apply (get_top_movie_genres_nonempty _ 3 g (get (columns m) g 0));
    [lia| |exact Hgt].
  apply lookup_In. unfold build_movie_profile.
  apply movie_profile_loop_lookup; auto.
Qed.

End RerankerNoRaise.

(** * The evaluation metrics *)

Section Evaluator.

Import RecommendationEvaluator.

Lemma id_set_length (ids : list Z) : (length (id_set ids) <= length ids)%nat.
Proof.
  unfold id_set. apply NoDup_incl_length; [apply NoDup_nodup|].
  intros x Hx. apply nodup_In in Hx. exact Hx.
Qed.

Lemma id_intersection_length_l (s1 s2 : list Z) :
  (length (id_intersection s1 s2) <= length s1)%nat.
Proof. apply filter_length_le. Qed.

Lemma id_intersection_length_r (s1 s2 : list Z) :
  NoDup s1 -> (length (id_intersection s1 s2) <= length s2)%nat.
Proof.
  intros H. apply NoDup_incl_length.
  - apply NoDup_filter. exact H.
  - intros x Hx. apply filter_In in Hx. destruct Hx as [_ Hx].
    apply existsb_exists in Hx. destruct Hx as (y & Hy & E).
    apply Z.eqb_eq in E. subst. exact Hy.
Qed.

Lemma ratio_range (a b : Z) :
  (0 <= a <= b)%Z -> (0 < b)%Z -> 0 <= inject_Z a / inject_Z b <= 1.
Proof.
  intros Ha Hb.
  assert (Hd : 0 < inject_Z b)
    by (change 0 with (inject_Z 0); rewrite <- Zlt_Qlt; exact Hb).
  split.
  - apply Qle_shift_div_l; [exact Hd|]. rewrite Qmult_0_l.
    change 0 with (inject_Z 0). rewrite <- Zle_Qle. lia.
  - apply Qle_shift_div_r; [exact Hd|]. rewrite Qmult_1_l.
    rewrite <- Zle_Qle. lia.
Qed.

(** Precision@K lies in [[0, 1]] for [k > 0]; for [k = 0] and a non-empty
    recommendation list the call divides by zero. *)
Lemma calculate_precision_at_k_range (recommended test : list Z) (k : Z) :
  ((0 < k)%Z ->
     exists p, calculate_precision_at_k recommended test k = Ok p
               /\ 0 <= p <= 1)
  /\ (k = 0%Z -> recommended <> [] ->
      calculate_precision_at_k recommended test k = Raise ZeroDivisionError).
Proof.
  unfold calculate_precision_at_k. split.
  - intros Hk. destruct (Nat.eqb (length recommended) 0).
    + exists 0. split; [reflexivity|lra].
    + destruct (k =? 0)%Z eqn:E; [apply Z.eqb_eq in E; lia|].
      eexists. split; [reflexivity|]. apply ratio_range; [|exact Hk].
      pose proof (id_intersection_length_l
                    (id_set (slice_to recommended k)) (id_set test)).
      pose proof (id_set_length (slice_to recommended k)).
      pose proof (slice_to_length recommended k ltac:(lia)). lia.
  - intros -> Hne. destruct recommended; [contradiction|]. reflexivity.
Qed.

(** Recall@K never fails and lies in [[0, 1]], whatever [k] is. *)
Lemma calculate_recall_at_k_range (recommended test : list Z) (k : Z) :
  0 <= calculate_recall_at_k recommended test k <= 1.
Proof.
  unfold calculate_recall_at_k.
  destruct (Nat.eqb (length recommended) 0); [lra|].
  destruct (Nat.eqb (length test) 0) eqn:E; [lra|].
  apply Nat.eqb_neq in E. apply ratio_range; [|lia].
  pose proof (id_intersection_length_r (id_set (slice_to recommended k))
                (id_set test) (NoDup_nodup _ _)).
  pose proof (id_set_length test). lia.
Qed.

Lemma dissimilarity_range (i u : nat) :
  (i <= u)%nat -> 0 <= dissimilarity (i, u) <= 1.
Proof.
  intros H. unfold dissimilarity. destruct (Nat.ltb 0 u) eqn:E; [|lra].
  apply Nat.ltb_lt in E.
  pose proof (ratio_range (Z.of_nat i) (Z.of_nat u) ltac:(lia) ltac:(lia)).
  lra.
Qed.

Lemma pair_sizes_le (ri rj : eval_rec) (i u : nat) :
  pair_sizes ri rj = Ok (i, u) -> (i <= u)%nat.
Proof.
  unfold pair_sizes.
  assert (Hids : (id_i <- get_movie_id ri ;;
                  id_j <- get_movie_id rj ;;
                  Ok (if (id_i =? id_j)%Z then (1, 1)%nat else (0, 2)%nat))
                 = Ok (i, u) -> (i <= u)%nat).
  { destruct (get_movie_id ri) as [a|]; cbn [bind]; [|discriminate].
    destruct (get_movie_id rj) as [b|]; cbn [bind]; [|discriminate].
    destruct (a =? b)%Z; intros H; inversion H; lia. }
  destruct (er_genres ri) as [gi|]; [|exact Hids].
  destruct (er_genres rj) as [gj|]; [|exact Hids].
  intros H. inversion H; subst. unfold union. rewrite length_app.
  pose proof (intersection_length (py_set (map fst gi)) (py_set (map fst gj))).
  lia.
Qed.

Lemma inner_loop_invariant (ri : eval_rec) (later : list eval_rec)
    (acc acc' : nat * Q) :
  0 <= snd acc <= inject_Z (Z.of_nat (fst acc)) ->
  inner_loop ri later acc = Ok acc' ->
  0 <= snd acc' <= inject_Z (Z.of_nat (fst acc'))
  /\ fst acc' = (fst acc + length later)%nat.
Proof.
  revert acc. induction later as [|rj rest IH]; intros acc Hacc;
    cbn [inner_loop].
  - intros H. inversion H; subst. split; [exact Hacc|cbn; lia].
  - destruct (pair_sizes ri rj) as [[i u]|e] eqn:E; cbn [bind];
      [|discriminate].
    intros H. apply IH in H.
    + cbn [fst length] in *. destruct H as [H1 H2]. split; [exact H1|lia].
    + cbn [fst snd]. apply pair_sizes_le in E.
      pose proof (dissimilarity_range i u E).
      rewrite Nat2Z.inj_succ, <- Z.add_1_r, inject_Z_plus.
      change (inject_Z 1) with 1. lra.
Qed.

Lemma outer_loop_invariant (recommendations : list eval_rec)
    (acc acc' : nat * Q) :
  0 <= snd acc <= inject_Z (Z.of_nat (fst acc)) ->
  outer_loop recommendations acc = Ok acc' ->
  0 <= snd acc' <= inject_Z (Z.of_nat (fst acc'))
  /\ (fst acc <= fst acc')%nat.
Proof.
  revert acc. induction recommendations as [|ri later IH]; intros acc Hacc;
    cbn [outer_loop].
  - intros H. inversion H; subst. split; [exact Hacc|lia].
  - destruct (inner_loop ri later acc) as [acc1|e] eqn:E; cbn [bind];
      [|discriminate].
    destruct (inner_loop_invariant _ _ _ _ Hacc E) as [H1 H2].
    intros H. destruct (IH _ H1 H) as [H3 H4]. split; [exact H3|lia].
Qed.

Lemma diversity_within_unit (recommendations : list eval_rec) (v : Q) :
  calculate_diversity recommendations = Ok v -> 0 <= v <= 1.
Proof.
  unfold calculate_diversity.
  destruct (Nat.ltb (length recommendations) 2).
  - intros H. inversion H; subst. lra.
  - destruct (outer_loop recommendations (0%nat, 0)) as [[n t]|e] eqn:E;
      cbn [bind]; [|discriminate].
    intros H. inversion H; subst; clear H.
    assert (H0 : 0 <= snd (0%nat, 0) <= inject_Z (Z.of_nat (fst (0%nat, 0))))
      by (split; unfold Qle; cbn; lia).
    destruct (outer_loop_invariant _ _ _ H0 E) as [Ht _].
    cbn [fst snd] in Ht.
    destruct (Nat.ltb 0 n) eqn:En; [|lra].
    apply Nat.ltb_lt in En.
    assert (Hd : 0 < inject_Z (Z.of_nat n))
      by (change 0 with (inject_Z 0); rewrite <- Zlt_Qlt; lia).
    split.
    + apply Qle_shift_div_l; [exact Hd|]. lra.
    + apply Qle_shift_div_r; [exact Hd|]. lra.
Qed.

(** A diversity that is computed lies in [[0, 1]]. *)
Lemma calculate_diversity_range (recommendations : list eval_rec) (v : Q) :
  calculate_diversity recommendations = Ok v -> 0 <= v <= 1.
Proof. exact (diversity_within_unit recommendations v). Qed.

Lemma pair_sizes_defined (ri rj : eval_rec) :
  er_genres ri <> None -> er_genres rj <> None ->
  exists sizes, pair_sizes ri rj = Ok sizes.
Proof.
  unfold pair_sizes. intros Hi Hj.
  destruct (er_genres ri); [|contradiction].
  destruct (er_genres rj); [|contradiction]. eauto.
Qed.

Lemma inner_loop_defined (ri : eval_rec) (later : list eval_rec)
    (acc : nat * Q) :
  er_genres ri <> None -> Forall (fun r => er_genres r <> None) later ->
  exists acc', inner_loop ri later acc = Ok acc'.
Proof.
  intros Hi Hall. revert acc.
  induction Hall as [|rj rest Hj _ IH]; intros acc; cbn [inner_loop].
  - eauto.
  - destruct (pair_sizes_defined ri rj Hi Hj) as (sizes & ->). cbn [bind].
    apply IH.
Qed.

Lemma outer_loop_defined (recommendations : list eval_rec) (acc : nat * Q) :
  Forall (fun r => er_genres r <> None) recommendations ->
  exists acc', outer_loop recommendations acc = Ok acc'.
Proof.
  intros Hall. revert acc.
  induction Hall as [|ri later Hi Hl IH]; intros acc; cbn [outer_loop].
  - eauto.
  - destruct (inner_loop_defined ri later acc Hi Hl) as (acc1 & ->).
    cbn [bind]. apply IH.
Qed.

(** The diversity of any list produced by the fuzzy recommender is
    defined and lies in [[0, 1]]: entries without genres, on which the
    reranker divides by zero, count as fully dissimilar here. *)
Lemma calculate_diversity_of_recommendations (l : list recommendation) :
  exists v,
    calculate_diversity (map as_eval_rec l) = Ok v /\ 0 <= v <= 1.
Proof.
  assert (Hall : Forall (fun r => er_genres r <> None) (map as_eval_rec l)).
  { rewrite Forall_forall. intros r Hr. apply in_map_iff in Hr.
    destruct Hr as (x & <- & _). discriminate. }
  assert (Hd : exists v, calculate_diversity (map as_eval_rec l) = Ok v).
  { unfold calculate_diversity.
    destruct (Nat.ltb (length (map as_eval_rec l)) 2); [eauto|].
    destruct (outer_loop_defined _ (0%nat, 0) Hall) as ([n t] & ->).
    cbn [bind]. eauto. }
  destruct Hd as (v & Hv). exists v. split; [exact Hv|].
  exact (diversity_within_unit _ _ Hv).
Qed.

End Evaluator.

(** * The user profiler *)

Section DictUpdates.

Import FuzzyUserProfiler.

Lemma lookup_app_notin (d1 d2 : dict) (k : string) :
  ~ In k (map fst d1) -> lookup (d1 ++ d2) k = lookup d2 k.
Proof.
  induction d1 as [|[k' v] d1 IH]; cbn [app lookup map fst In]; intros H.
  - reflexivity.
  - destruct (String.eqb k' k) eqn:E.
    + apply String.eqb_eq in E. tauto.
    + apply IH. tauto.
Qed.

Lemma setitem_app_notin (d1 d2 : dict) (k : string) (x : Q) :
  ~ In k (map fst d1) -> setitem (d1 ++ d2) k x = d1 ++ setitem d2 k x.
Proof.
  induction d1 as [|[k' v] d1 IH]; cbn [app setitem map fst In]; intros H.
  - reflexivity.
  - destruct (String.eqb k' k) eqn:E.
    + apply String.eqb_eq in E. tauto.
    + rewrite IH by tauto. reflexivity.
Qed.

Variable c : string -> bool.
Variable h : string -> Q -> Q.

Lemma update_fold_app (d1 d2 : dict) :
  NoDup (map fst (d1 ++ d2)) ->
  fold_left
    (fun d genre =>
       if c genre then setitem d genre (h genre (get d genre 0)) else d)
    (map fst d2) (d1 ++ d2)
  = d1 ++ map (updated c h) d2.
Proof.
  revert d1. induction d2 as [|[k v] d2 IH]; intros d1 Hnd.
  - reflexivity.
  - cbn [map fst fold_left].
    assert (Hk : ~ In k (map fst d1)).
    { rewrite map_app in Hnd. cbn [map fst] in Hnd.
      apply NoDup_remove_2 in Hnd. intros Hin. apply Hnd.
      apply in_or_app. auto. }
    assert (Hstep :
      (if c k then setitem (d1 ++ (k, v) :: d2) k
                     (h k (get (d1 ++ (k, v) :: d2) k 0))
       else d1 ++ (k, v) :: d2)
      = (d1 ++ [updated c h (k, v)]) ++ d2).
    { unfold updated. cbn [fst snd]. rewrite <- app_assoc. cbn [app].
      destruct (c k); [|reflexivity].
      rewrite setitem_app_notin by exact Hk. unfold get.
      rewrite lookup_app_notin by exact Hk.
      cbn [lookup setitem]. rewrite String.eqb_refl. reflexivity. }
    rewrite Hstep, IH.
    + rewrite <- app_assoc. reflexivity.
    + rewrite <- app_assoc. cbn [app]. unfold updated. cbn [fst].
      rewrite map_app in Hnd |- *. exact Hnd.
Qed.

(** On a dictionary, whose keys are distinct, the loop updates every
    item in place. *)
Lemma update_where_map (d : dict) :
  NoDup (map fst d) -> update_where c h d = map (updated c h) d.
Proof. intros H. exact (update_fold_app [] d H). Qed.

Lemma updated_keys (d : dict) : map fst (map (updated c h) d) = map fst d.
Proof. rewrite map_map. reflexivity. Qed.

Lemma lookup_updated (d : dict) (g : string) :
  lookup (map (updated c h) d) g =
  option_map (fun v => if c g then h g v else v) (lookup d g).
Proof.
  induction d as [|[k v] d IH]; cbn [map lookup updated fst snd option_map].
  - reflexivity.
  - destruct (String.eqb k g) eqn:E.
    + apply String.eqb_eq in E. subst. reflexivity.
    + exact IH.
Qed.

End DictUpdates.

Section Profiler.

Import FuzzyUserProfiler.

Lemma scored_genres_NoDup : NoDup Spec.scored_genres.
Proof.
  assert (H : nodup string_dec Spec.scored_genres = Spec.scored_genres)
    by (vm_compute; reflexivity).
  rewrite <- H. apply NoDup_nodup.
Qed.

Lemma zero_profile_keys (l : list string) :
  map fst (map (fun genre : string => (genre, 0)) l) = l.
Proof. rewrite map_map. cbn [fst]. apply map_id. Qed.

Lemma zero_profile_lookup (l : list string) (g : string) :
  In g l -> lookup (map (fun genre : string => (genre, 0)) l) g = Some 0.
Proof.
  induction l as [|k l IH]; cbn [map lookup In].
  - tauto.
  - intros [->|H].
    + rewrite String.eqb_refl. reflexivity.
    + destruct (String.eqb k g); [reflexivity|auto].
Qed.

Lemma initial_profile_keys : map fst initial_profile = Spec.scored_genres.
Proof. unfold initial_profile, Spec.scored_genres. apply zero_profile_keys. Qed.

Lemma initial_profile_lookup (g : string) :
  In g Spec.scored_genres -> lookup initial_profile g = Some 0.
Proof.
  intros H. unfold Spec.scored_genres in H. unfold initial_profile.
  apply zero_profile_lookup. exact H.
Qed.

(** One joined row adds [row[genre] * weight] to every genre. *)
Lemma add_row_spec (state : dict * Q) (row : rating_row * movie_row) :
  NoDup (map fst (fst state)) ->
  map fst (fst (add_row state row)) = map fst (fst state)
  /\ snd (add_row state row) = snd state + weight_of (fst row)
  /\ forall g v, lookup (fst state) g = Some v ->
       exists v', lookup (fst (add_row state row)) g = Some v'
                  /\ v' == v + get (columns (snd row)) g 0 * weight_of (fst row).
Proof.
  intros Hnd. unfold add_row. cbn [fst snd].
  rewrite update_where_map by exact Hnd.
  split; [apply updated_keys|]. split; [reflexivity|].
  intros g v Hg. rewrite lookup_updated, Hg. cbn [option_map].
  eexists. split; [reflexivity|].
  unfold contains, get. destruct (lookup (columns (snd row)) g).
  - reflexivity.
  - ring.
Qed.

Lemma fold_add_row_spec (rows : list (rating_row * movie_row))
    (state : dict * Q) :
  NoDup (map fst (fst state)) ->
  map fst (fst (fold_left add_row rows state)) = map fst (fst state)
  /\ snd (fold_left add_row rows state) == snd state + ProfileSpec.total_weight rows
  /\ forall g v, lookup (fst state) g = Some v ->
       exists v', lookup (fst (fold_left add_row rows state)) g = Some v'
                  /\ v' == v + ProfileSpec.weighted_sum g rows.
Proof.
  revert state. induction rows as [|row rows IH]; intros state Hnd;
    cbn [fold_left].
  - split; [reflexivity|]. split.
    + unfold ProfileSpec.total_weight. cbn. ring.
    + intros g v Hg. exists v. split; [exact Hg|].
      unfold ProfileSpec.weighted_sum. cbn. ring.
  - destruct (add_row_spec state row Hnd) as (Hk & Hw & Hv).
    destruct (IH (add_row state row)) as (Hk' & Hw' & Hv').
    { rewrite Hk. exact Hnd. }
    split; [rewrite Hk', Hk; reflexivity|]. split.
    + rewrite Hw', Hw. unfold ProfileSpec.total_weight, Spec.Qsum.
      cbn [map fold_right]. ring.
    + intros g v Hg. destruct (Hv g v Hg) as (v1 & Hv1 & E1).
      destruct (Hv' g v1 Hv1) as (v2 & Hv2 & E2).
      exists v2. split; [exact Hv2|]. rewrite E2, E1.
      unfold ProfileSpec.weighted_sum, Spec.Qsum. cbn [map fold_right]. ring.
Qed.

End Profiler.

Section ProfilerResults.

Import FuzzyUserProfiler.

Lemma In_lookup (d : dict) (k : string) (v : Q) :
  NoDup (map fst d) -> In (k, v) d -> lookup d k = Some v.
Proof.
  induction d as [|[k' w] d IH]; cbn [map fst lookup In]; intros Hnd Hin.
  - destruct Hin.
  - inversion Hnd as [|? ? Hk Hd]; subst. destruct Hin as [E|Hin].
    + inversion E; subst. rewrite String.eqb_refl. reflexivity.
    + destruct (String.eqb k' k) eqn:E.
      * apply String.eqb_eq in E. subst. exfalso. apply Hk.
        apply (in_map fst) in Hin. exact Hin.
      * auto.
Qed.

(** [create_user_profile] returns [None] exactly for a user without
    ratings. *)
Lemma create_user_profile_None (user_id : Z) (ratings_df : list rating_row)
    (fuzzy_movies_df : DataFrame) :
  create_user_profile user_id ratings_df fuzzy_movies_df = None
  <-> forall r, In r ratings_df -> r_user_id r <> user_id.
Proof.
  unfold create_user_profile.
  set (user_ratings := filter (fun r => Z.eqb (r_user_id r) user_id) ratings_df).
  destruct (Nat.eqb (length user_ratings) 0) eqn:E.
  - apply Nat.eqb_eq, length_zero_iff_nil in E. split; [|reflexivity].
    intros _ r Hr Hu.
    assert (Hin : In r user_ratings).
    { apply filter_In. split; [exact Hr|]. apply Z.eqb_eq. exact Hu. }
    rewrite E in Hin. destruct Hin.
  - split; [discriminate|]. intros H. exfalso.
    apply Nat.eqb_neq in E. destruct user_ratings as [|r l] eqn:El;
      [contradiction|].
    assert (Hin : In r user_ratings) by (rewrite El; left; reflexivity).
    apply filter_In in Hin. destruct Hin as [Hr Hu].
    apply Z.eqb_eq in Hu. exact (H r Hr Hu).
Qed.

Lemma create_user_profile_formula (user_id : Z)
    (ratings_df : list rating_row) (fuzzy_movies_df : DataFrame)
    (pr : profile_record) :
  create_user_profile user_id ratings_df fuzzy_movies_df = Some pr ->
  let user_ratings :=
    filter (fun r => Z.eqb (r_user_id r) user_id) ratings_df in
  let rows := merge user_ratings fuzzy_movies_df in
  pr_user_id pr = user_id
  /\ total_ratings pr = length user_ratings
  /\ map fst (pr_profile pr) = Spec.scored_genres
  /\ forall g, In g Spec.scored_genres ->
       exists v, lookup (pr_profile pr) g = Some v
         /\ v == if Qltb 0 (ProfileSpec.total_weight rows)
                 then ProfileSpec.weighted_sum g rows
                      / ProfileSpec.total_weight rows
                 else ProfileSpec.weighted_sum g rows.
Proof.
  unfold create_user_profile. cbv zeta.
  set (user_ratings := filter (fun r => Z.eqb (r_user_id r) user_id) ratings_df).
  set (rows := merge user_ratings fuzzy_movies_df).
  destruct (Nat.eqb (length user_ratings) 0); [discriminate|].
  intros H. inversion H; subst pr; clear H. cbn [pr_user_id total_ratings pr_profile].
  split; [reflexivity|]. split; [reflexivity|].
  assert (Hnd0 : NoDup (map fst (fst (initial_profile, 0)))).
  { cbn [fst]. rewrite initial_profile_keys. apply scored_genres_NoDup. }
  destruct (fold_add_row_spec rows (initial_profile, 0) Hnd0)
    as (Hk & Hw & Hv).
  cbn [fst snd] in Hk, Hw, Hv. rewrite initial_profile_keys in Hk.
  set (state := fold_left add_row rows (initial_profile, 0)) in *.
  assert (Hw' : snd state == ProfileSpec.total_weight rows)
    by (rewrite Hw; ring).
  rewrite <- (Qltb_compat 0 0 _ _ (Qeq_refl 0) Hw').
  assert (Hnd : NoDup (map fst (fst state)))
    by (rewrite Hk; apply scored_genres_NoDup).
  destruct (Qltb 0 (snd state)) eqn:E.
  - rewrite update_where_map by exact Hnd. split; [rewrite updated_keys; exact Hk|].
    intros g Hg. destruct (Hv g 0 (initial_profile_lookup g Hg)) as (v & Hl & Ev).
    rewrite lookup_updated, Hl. cbn [option_map]. eexists.
    split; [reflexivity|]. rewrite Ev, Hw'.
    generalize (ProfileSpec.weighted_sum g rows), (ProfileSpec.total_weight rows).
    intros a b. unfold Qdiv. ring.
  - split; [exact Hk|]. intros g Hg.
    destruct (Hv g 0 (initial_profile_lookup g Hg)) as (v & Hl & Ev).
    exists v. split; [exact Hl|]. rewrite Ev. ring.
Qed.

(** The profile is the weighted average of the genre strengths of the
    rated movies, the weight of a rating being [(rating - 1) / 4]; when
    the total weight is not positive the sums are left as they are.  Its
    keys are the scored genres, the sentinel excluded. *)
Lemma create_user_profile_weighted_average (user_id : Z)
    (ratings_df : list rating_row) (fuzzy_movies_df : DataFrame)
    (pr : profile_record) :
  create_user_profile user_id ratings_df fuzzy_movies_df = Some pr ->
  let user_ratings :=
    filter (fun r => Z.eqb (r_user_id r) user_id) ratings_df in
  let rows := merge user_ratings fuzzy_movies_df in
  pr_user_id pr = user_id
  /\ total_ratings pr = length user_ratings
  /\ map fst (pr_profile pr) = Spec.scored_genres
  /\ forall g, In g Spec.scored_genres ->
       exists v, lookup (pr_profile pr) g = Some v
         /\ v == if Qltb 0 (ProfileSpec.total_weight rows)
                 then ProfileSpec.weighted_sum g rows
                      / ProfileSpec.total_weight rows
                 else ProfileSpec.weighted_sum g rows.
Proof.
  exact (create_user_profile_formula user_id ratings_df fuzzy_movies_df pr).
Qed.

Lemma weighted_sum_range (g : string) (rows : list (rating_row * movie_row)) :
  Forall (fun row => 0 <= weight_of (fst row)
                     /\ is_fuzzy_profile (columns (snd row)) = true) rows ->
  0 <= ProfileSpec.weighted_sum g rows <= ProfileSpec.total_weight rows.
Proof.
  unfold ProfileSpec.weighted_sum, ProfileSpec.total_weight, Spec.Qsum.
  induction 1 as [|row rows [Hw Hf] _ IH]; cbn [map fold_right].
  - lra.
  - pose proof (fuzzy_profile_get (columns (snd row)) g Hf) as Hg.
    set (x := get (columns (snd row)) g 0) in *.
    set (w := weight_of (fst row)) in *. nra.
Qed.

Lemma merge_rows (user_ratings : list rating_row) (df : DataFrame)
    (row : rating_row * movie_row) :
  In row (merge user_ratings df) ->
  In (fst row) user_ratings /\ In (snd row) df.
Proof.
  unfold merge. intros H. apply in_flat_map in H.
  destruct H as (r & Hr & H). apply in_map_iff in H.
  destruct H as (m & <- & Hm). apply filter_In in Hm. cbn [fst snd]. tauto.
Qed.

Lemma weight_of_nonneg (r : rating_row) :
  (1 <= rating r)%Z -> 0 <= weight_of r.
Proof.
  intros H. unfold weight_of.
  assert (1 <= inject_Z (rating r))
    by (change 1 with (inject_Z 1); rewrite <- Zle_Qle; exact H).
  apply Qle_shift_div_l; lra.
Qed.

(** From a fuzzy catalog and ratings of at least 1, the profiler builds
    a fuzzy profile: every strength lies in [[0, 1]]. *)
Lemma create_user_profile_fuzzy (user_id : Z) (ratings_df : list rating_row)
    (fuzzy_movies_df : DataFrame) (pr : profile_record) :
  is_fuzzy_catalog fuzzy_movies_df = true ->
  (forall r, In r ratings_df -> r_user_id r = user_id -> (1 <= rating r)%Z) ->
  create_user_profile user_id ratings_df fuzzy_movies_df = Some pr ->
  is_fuzzy_profile (pr_profile pr) = true.
Proof.
  intros Hdf Hr Hc.
  destruct (create_user_profile_formula _ _ _ _ Hc)
    as (_ & _ & Hk & Hv).
  set (rows := merge (filter (fun r => Z.eqb (r_user_id r) user_id) ratings_df)
                     fuzzy_movies_df) in *.
  assert (Hrows : Forall (fun row => 0 <= weight_of (fst row)
                     /\ is_fuzzy_profile (columns (snd row)) = true) rows).
  { rewrite Forall_forall. intros row Hrow. apply merge_rows in Hrow.
    destruct Hrow as [H1 H2]. apply filter_In in H1. destruct H1 as [H1 Hu].
    apply Z.eqb_eq in Hu. split.
    - apply weight_of_nonneg. auto.
    - unfold is_fuzzy_catalog in Hdf. rewrite forallb_forall in Hdf. auto. }
  assert (Htw : 0 <= ProfileSpec.total_weight rows).
  { pose proof (weighted_sum_range "Action" rows Hrows). lra. }
  unfold is_fuzzy_profile. apply forallb_forall. intros [k v] Hin.
  assert (Hks : In k Spec.scored_genres).
  { rewrite <- Hk. apply (in_map fst) in Hin. exact Hin. }
  destruct (Hv k Hks) as (v' & Hl & Ev).
  rewrite (In_lookup _ _ _ ltac:(rewrite Hk; apply scored_genres_NoDup) Hin)
    in Hl. inversion Hl; subst v'; clear Hl. cbn [snd].
  pose proof (weighted_sum_range k rows Hrows) as Hws.
  assert (Hrange : 0 <= v <= 1).
  { destruct (Qltb 0 (ProfileSpec.total_weight rows)) eqn:E.
    - apply Qltb_lt in E. rewrite Ev. split.
      + apply Qle_shift_div_l; [exact E|]. lra.
      + apply Qle_shift_div_r; [exact E|]. lra.
    - apply Qltb_ge in E. rewrite Ev. lra. }
  apply andb_true_iff. split; apply Qle_bool_iff; tauto.
Qed.

Lemma weighted_sum_zero (g : string) (rows : list (rating_row * movie_row)) :
  Forall (fun row => weight_of (fst row) == 0) rows ->
  ProfileSpec.weighted_sum g rows == 0 /\ ProfileSpec.total_weight rows == 0.
Proof.
  unfold ProfileSpec.weighted_sum, ProfileSpec.total_weight, Spec.Qsum.
  induction 1 as [|row rows Hw _ [IH1 IH2]]; cbn [map fold_right].
  - split; reflexivity.
  - rewrite IH1, IH2, Hw. split; ring.
Qed.

(** A user all of whose ratings are 1 gets the all-zero profile. *)
Lemma create_user_profile_all_ones (user_id : Z)
    (ratings_df : list rating_row) (fuzzy_movies_df : DataFrame)
    (pr : profile_record) :
  (forall r, In r ratings_df -> r_user_id r = user_id -> rating r = 1%Z) ->
  create_user_profile user_id ratings_df fuzzy_movies_df = Some pr ->
  forall g, get (pr_profile pr) g 0 == 0.
Proof.
  intros Hr Hc g.
  destruct (create_user_profile_formula _ _ _ _ Hc)
    as (_ & _ & Hk & Hv).
  set (rows := merge (filter (fun r => Z.eqb (r_user_id r) user_id) ratings_df)
                     fuzzy_movies_df) in *.
  assert (Hrows : Forall (fun row => weight_of (fst row) == 0) rows).
  { rewrite Forall_forall. intros row Hrow. apply merge_rows in Hrow.
    destruct Hrow as [H1 _]. apply filter_In in H1. destruct H1 as [H1 Hu].
    apply Z.eqb_eq in Hu. unfold weight_of. rewrite (Hr _ H1 Hu).
    reflexivity. }
  unfold get. destruct (lookup (pr_profile pr) g) as [v|] eqn:El;
    [|reflexivity].
  assert (Hg : In g Spec.scored_genres).
  { rewrite <- Hk. apply lookup_In in El. apply (in_map fst) in El.
    exact El. }
  destruct (Hv g Hg) as (v' & Hl & Ev). rewrite El in Hl.
  inversion Hl; subst v'.
  destruct (weighted_sum_zero g rows Hrows) as [Hws Htw].
  rewrite Ev.
  rewrite (Qltb_compat 0 0 _ 0 (Qeq_refl 0) Htw), Qltb_irrefl. exact Hws.
Qed.

Lemma StronglySorted_app_cross {T : Type} (R : T -> T -> Prop)
    (l1 l2 : list T) (x y : T) :
  StronglySorted R (l1 ++ l2) -> In x l1 -> In y l2 -> R x y.
Proof.
  induction l1 as [|a l1 IH]; cbn [app In]; intros Hs Hx Hy.
  - destruct Hx.
  - inversion Hs as [|? ? Hs' Ha]; subst. destruct Hx as [->|Hx].
    + rewrite Forall_forall in Ha. apply Ha. apply in_or_app. auto.
    + auto.
Qed.

(** [get_top_genres] returns the [n] strongest genres, strongest first:
    no genre left out is stronger than one returned. *)
Lemma get_top_genres_strongest (pr : profile_record) (n : Z) :
  (0 <= n)%Z ->
  let top := get_top_genres pr n in
  length top = Nat.min (Z.to_nat n) (length (pr_profile pr))
  /\ StronglySorted (desc snd) top
  /\ exists rest,
       Permutation (top ++ rest) (pr_profile pr)
       /\ forall x y, In x top -> In y rest -> snd y <= snd x.
Proof.
  intros Hn. cbv zeta. unfold get_top_genres.
  set (sorted := sort_desc (fun x : string * Q => snd x) (pr_profile pr)).
  pose proof (sort_desc_sorted (fun x : string * Q => snd x) (pr_profile pr))
    as Hs. fold sorted in Hs.
  destruct (slice_to_prefix sorted n) as (rest & Hrest).
  split; [|split].
  - rewrite slice_to_length by exact Hn. unfold sorted.
    rewrite sort_desc_length. reflexivity.
  - apply StronglySorted_app_l with (l2 := rest). rewrite <- Hrest. exact Hs.
  - exists rest. split.
    + rewrite <- Hrest. symmetry.
      apply (sort_desc_Permutation (fun x : string * Q => snd x)).
    + intros x y Hx Hy. rewrite Hrest in Hs.
      exact (StronglySorted_app_cross _ _ _ x y Hs Hx Hy).
Qed.

End ProfilerResults.

(** * The genre fuzzifier *)

Section Fuzzifier.

Import GenreFuzzifier.

Variable draw : nat -> Q.

(** Samples of the generator lie in the unit interval. *)
Hypothesis draw_unit : forall n, 0 <= draw n <= 1.

Variable genre_vector : dict.

Lemma uniform_primary (n : nat) :
  7 # 10 <= fst (uniform draw n (7 # 10) 1) <= 1.
Proof. unfold uniform. cbn [fst]. pose proof (draw_unit n). lra. Qed.

Lemma related_loop_lookup (related : dict) (state : dict * nat)
    (g : string) (v : Q) :
  lookup (fst state) g = Some v ->
  lookup (fst (related_loop draw related state)) g = Some v.
Proof.
  revert state. induction related as [|[rg strength] rest IH];
    intros state Hg; cbn [related_loop].
  - exact Hg.
  - destruct (contains (fst state) rg) eqn:E; [auto|].
    unfold uniform. apply IH. cbn [fst]. rewrite lookup_setitem.
    destruct (String.eqb rg g) eqn:Eg; [|exact Hg].
    apply String.eqb_eq in Eg. subst rg. unfold contains in E.
    rewrite Hg in E. discriminate.
Qed.

Lemma related_loop_keys (related : dict) (state : dict * nat) :
  NoDup (map fst (fst state)) ->
  NoDup (map fst (fst (related_loop draw related state)))
  /\ forall g, In g (map fst (fst (related_loop draw related state))) ->
               In g (map fst (fst state)) \/ In g (map fst related).
Proof.
  revert state. induction related as [|[rg strength] rest IH];
    intros state Hnd; cbn [related_loop].
  - split; [exact Hnd|auto].
  - destruct (contains (fst state) rg) eqn:E.
    + destruct (IH state Hnd) as [H1 H2]. split; [exact H1|].
      intros g Hg. destruct (H2 g Hg); [auto|]. right. right. assumption.
    + unfold uniform.
      match goal with
      | |- context [related_loop draw rest ?s] => destruct (IH s) as [H1 H2]
      end.
      { cbn [fst]. apply setitem_NoDup. exact Hnd. }
      split; [exact H1|]. intros g Hg. destruct (H2 g Hg) as [Hin|Hin].
      * cbn [fst] in Hin. rewrite setitem_keys, E in Hin.
        apply in_app_or in Hin. destruct Hin as [Hin|[<-|[]]]; [auto|].
        right. left. reflexivity.
      * right. right. exact Hin.
Qed.

Lemma settled_setitem_other (fv : dict) (k g : string) (x : Q) :
  k <> g -> settled genre_vector fv g ->
  settled genre_vector (setitem fv k x) g.
Proof.
  intros Hk (tag & v & Ht & Hv & Hgood). exists tag, v.
  split; [exact Ht|]. split; [|exact Hgood].
  rewrite lookup_setitem. apply String.eqb_neq in Hk. rewrite Hk. exact Hv.
Qed.

(** Once a genre has had its own turn its value is settled for good:
    later turns assign only to their own genre and to genres not yet in
    the vector. *)
Lemma genre_loop_settled (genres : list string) (state state' : dict * nat) :
  genre_loop draw genres genre_vector state = Ok state' ->
  (forall g, settled genre_vector (fst state) g ->
             settled genre_vector (fst state') g)
  /\ (forall g, In g genres -> g <> "unknown"%string ->
                settled genre_vector (fst state') g).
Proof.
  revert state. induction genres as [|genre rest IH]; intros state;
    cbn [genre_loop].
  - intros H. inversion H; subst. split; [auto|]. intros g [].
  - destruct (String.eqb genre "unknown") eqn:Eu.
    + intros H. destruct (IH _ H) as [H1 H2]. split; [exact H1|].
      intros g [<-|Hin] Hg; [|auto].
      apply String.eqb_eq in Eu. contradiction.
    + unfold getitem. destruct (lookup genre_vector genre) as [tag|] eqn:Et;
        cbn [bind]; [|discriminate].
      set (next :=
        if negb (Qeq_bool tag 0)
        then match related_to genre_relationships genre with
             | Some related =>
                 related_loop draw related
                   (setitem (fst state) genre
                      (fst (uniform draw (snd state) (7 # 10) 1)),
                    S (snd state))
             | None =>
                 (setitem (fst state) genre
                    (fst (uniform draw (snd state) (7 # 10) 1)),
                  S (snd state))
             end
        else (setitem (fst state) genre 0, snd state)).
      assert (Hnext_own : settled genre_vector (fst next) genre).
      { unfold next. destruct (Qeq_bool tag 0) eqn:Ez; cbn [negb].
        - exists tag, 0. rewrite Ez. split; [exact Et|]. cbn [fst].
          rewrite lookup_setitem, String.eqb_refl. split; reflexivity.
        - exists tag, (fst (uniform draw (snd state) (7 # 10) 1)).
          rewrite Ez. split; [exact Et|]. split; [|apply uniform_primary].
          destruct (related_to genre_relationships genre).
          + apply related_loop_lookup. cbn [fst].
            rewrite lookup_setitem, String.eqb_refl. reflexivity.
          + cbn [fst]. rewrite lookup_setitem, String.eqb_refl. reflexivity. }
      assert (Hnext_keep : forall g, settled genre_vector (fst state) g ->
                                     settled genre_vector (fst next) g).
      { intros g Hg. destruct (String.eqb genre g) eqn:Eg.
        - apply String.eqb_eq in Eg. subst g. exact Hnext_own.
        - apply String.eqb_neq in Eg.
          pose proof (settled_setitem_other (fst state) genre g) as Hset.
          unfold next. destruct (negb (Qeq_bool tag 0)).
          + specialize (Hset (fst (uniform draw (snd state) (7 # 10) 1)) Eg Hg).
            destruct (related_to genre_relationships genre); [|exact Hset].
            destruct Hset as (t & v & H1 & H2 & H3). exists t, v.
            split; [exact H1|]. split; [|exact H3].
            apply related_loop_lookup. exact H2.
          + exact (Hset 0 Eg Hg). }
      intros H.
      assert (H' : genre_loop draw rest genre_vector next = Ok state').
      { unfold next. destruct (negb (Qeq_bool tag 0)); exact H. }
      destruct (IH _ H') as [H1 H2]. split.
      * intros g Hg. auto.
      * intros g [<-|Hin] Hg; [|auto]. auto.
Qed.

End Fuzzifier.

Section FuzzifierResults.

Import GenreFuzzifier.

Lemma clamp_bounds (v : Q) : 0 <= clamp v <= 1.
Proof.
  unfold clamp, py_min, py_max.
  destruct (Qltb 0 v) eqn:E1.
  - apply Qltb_lt in E1. destruct (Qltb v 1) eqn:E2.
    + apply Qltb_lt in E2. lra.
    + lra.
  - destruct (Qltb 0 1) eqn:E2; lra.
Qed.

Lemma clamp_unit (v : Q) : 0 <= v <= 1 -> clamp v == v.
Proof.
  intros Hv. unfold clamp, py_min, py_max.
  destruct (Qltb 0 v) eqn:E1.
  - destruct (Qltb v 1) eqn:E2; [reflexivity|]. apply Qltb_ge in E2. lra.
  - apply Qltb_ge in E1. destruct (Qltb 0 1) eqn:E2; [lra|].
    apply Qltb_ge in E2. lra.
Qed.

Lemma scored_genres_In (g : string) :
  In g Spec.scored_genres <-> In g Config.GENRES /\ g <> "unknown"%string.
Proof.
  unfold Spec.scored_genres. rewrite filter_In, negb_true_iff.
  rewrite String.eqb_neq. reflexivity.
Qed.

Lemma related_to_In (relationships : list (string * dict)) (k : string)
    (related : dict) :
  related_to relationships k = Some related -> In (k, related) relationships.
Proof.
  induction relationships as [|[g r] rest IH]; cbn [related_to];
    [discriminate|].
  destruct (String.eqb g k) eqn:E.
  - apply String.eqb_eq in E. intros H. inversion H; subst. left. reflexivity.
  - intros H. right. auto.
Qed.

(** Every genre the relationship table names is a scored genre. *)
Lemma related_genres_scored (k g : string) (related : dict) :
  related_to genre_relationships k = Some related ->
  In g (map fst related) -> In g Spec.scored_genres.
Proof.
  intros Hk Hg. apply related_to_In in Hk.
  assert (Hall : forallb
            (fun entry : string * dict =>
               forallb (fun kv : string * Q =>
                          existsb (String.eqb (fst kv)) Spec.scored_genres)
                       (snd entry))
            genre_relationships = true) by (vm_compute; reflexivity).
  rewrite forallb_forall in Hall. specialize (Hall _ Hk). cbn [snd] in Hall.
  rewrite forallb_forall in Hall. apply in_map_iff in Hg.
  destruct Hg as (kv & <- & Hkv). specialize (Hall _ Hkv).
  apply existsb_exists in Hall. destruct Hall as (x & Hx & E).
  apply String.eqb_eq in E. rewrite E. exact Hx.
Qed.

Variable draw : nat -> Q.
Variable genre_vector : dict.

Lemma genre_loop_keys (genres : list string) (state state' : dict * nat) :
  incl genres Config.GENRES ->
  NoDup (map fst (fst state)) ->
  genre_loop draw genres genre_vector state = Ok state' ->
  NoDup (map fst (fst state'))
  /\ forall g, In g (map fst (fst state')) ->
               In g (map fst (fst state)) \/ In g Spec.scored_genres.
Proof.
  revert state. induction genres as [|genre rest IH]; intros state Hincl Hnd;
    cbn [genre_loop].
  - intros H. inversion H; subst. split; [exact Hnd|]. intros g Hg. left.
    exact Hg.
  - assert (Hrest : incl rest Config.GENRES)
      by (intros x Hx; apply Hincl; right; exact Hx).
    destruct (String.eqb genre "unknown") eqn:Eu; [apply IH; assumption|].
    apply String.eqb_neq in Eu.
    assert (Hgenre : In genre Spec.scored_genres).
    { apply scored_genres_In. split; [|exact Eu]. apply Hincl. left.
      reflexivity. }
    unfold getitem. destruct (lookup genre_vector genre) as [tag|];
      cbn [bind]; [|discriminate].
    assert (Hset : forall x g, In g (map fst (setitem (fst state) genre x)) ->
              In g (map fst (fst state)) \/ In g Spec.scored_genres).
    { intros x g Hg. rewrite setitem_keys in Hg.
      destruct (contains (fst state) genre); [left; exact Hg|].
      apply in_app_or in Hg.
      destruct Hg as [Hg|[<-|[]]]; [left; exact Hg|right; exact Hgenre]. }
    destruct (negb (Qeq_bool tag 0)).
    + unfold uniform.
      destruct (related_to genre_relationships genre) as [related|] eqn:Er.
      * intros H.
        match type of H with
        | genre_loop _ _ _ (related_loop _ _ ?s) = _ =>
            destruct (related_loop_keys draw related s) as [H1 H2];
            [cbn [fst]; apply setitem_NoDup; exact Hnd|]
        end.
        destruct (IH _ Hrest H1 H) as [H3 H4]. split; [exact H3|].
        intros g Hg. destruct (H4 g Hg) as [Hin|Hin]; [|right; exact Hin].
        destruct (H2 g Hin) as [Hin'|Hin'].
        -- cbn [fst] in Hin'. exact (Hset _ g Hin').
        -- right. exact (related_genres_scored genre g related Er Hin').
      * intros H.
        apply IH in H;
          [|exact Hrest|cbn [fst]; apply setitem_NoDup; exact Hnd].
        destruct H as [H3 H4]. split; [exact H3|].
        intros g Hg. destruct (H4 g Hg) as [Hin|Hin]; [|right; exact Hin].
        cbn [fst] in Hin. exact (Hset _ g Hin).
    + intros H.
      apply IH in H; [|exact Hrest|cbn [fst]; apply setitem_NoDup; exact Hnd].
      destruct H as [H3 H4]. split; [exact H3|]. intros g Hg. destruct (H4 g Hg) as [Hin|Hin]; [|right; exact Hin].
      cbn [fst] in Hin. exact (Hset _ g Hin).
Qed.

(** The loop fails only on a scored genre missing from the vector, with
    that genre's [KeyError]. *)
Lemma genre_loop_result (genres : list string) (state : dict * nat) :
  (forallb (fun g => String.eqb g "unknown" || contains genre_vector g) genres
   = true ->
   exists state', genre_loop draw genres genre_vector state = Ok state')
  /\ forall e, genre_loop draw genres genre_vector state = Raise e ->
       exists g, In g genres /\ g <> "unknown"%string
                 /\ contains genre_vector g = false /\ e = KeyError g.
Proof.
  revert state. induction genres as [|genre rest IH]; intros state;
    cbn [genre_loop forallb].
  - split; [eauto|discriminate].
  - destruct (String.eqb genre "unknown") eqn:Eu; cbn [orb].
    + destruct (IH state) as [H1 H2]. split; [exact H1|].
      intros e He. destruct (H2 e He) as (g & Hg & H). exists g.
      split; [right; exact Hg|exact H].
    + unfold getitem, contains.
      destruct (lookup genre_vector genre) as [tag|] eqn:Et; cbn [bind andb].
      * match goal with
        | |- context [genre_loop draw rest genre_vector ?s] =>
            destruct (IH s) as [H1 H2]
        end.
        assert (Hnext : forall s1 s2 : dict * nat,
                  (if negb (Qeq_bool tag 0)
                   then genre_loop draw rest genre_vector s1
                   else genre_loop draw rest genre_vector s2)
                  = genre_loop draw rest genre_vector
                      (if negb (Qeq_bool tag 0) then s1 else s2))
          by (intros; destruct (negb (Qeq_bool tag 0)); reflexivity).
        unfold uniform. rewrite Hnext.
        match goal with
        | |- context [genre_loop draw rest genre_vector ?s] =>
            destruct (IH s) as [H3 H4]
        end.
        split; [exact H3|]. intros e He.
        destruct (H4 e He) as (g & Hg & H). exists g.
        split; [right; exact Hg|exact H].
      * split; [discriminate|]. intros e He. inversion He; subst.
        exists genre. apply String.eqb_neq in Eu.
        unfold contains. rewrite Et.
        split; [left; reflexivity|]. split; [exact Eu|]. split; reflexivity.
Qed.

End FuzzifierResults.

Section FuzzifierTheorems.

Import GenreFuzzifier.

(** Whatever the random samples, [binary_to_fuzzy] gives every genre the
    movie is tagged with a strength in [[0.7, 1.0]] and every other
    scored genre exactly 0.0: the strengths drawn for related genres are
    always overwritten or never assigned.  The vector's keys are the
    scored genres, each once, and it is a fuzzy profile. *)
Lemma binary_to_fuzzy_values (draw : nat -> Q) (n n' : nat)
    (genre_vector fuzzy_vector : dict) :
  (forall i, 0 <= draw i <= 1) ->
  binary_to_fuzzy draw n genre_vector = Ok (fuzzy_vector, n') ->
  (forall g, In g Spec.scored_genres -> settled genre_vector fuzzy_vector g)
  /\ NoDup (map fst fuzzy_vector)
  /\ (forall g, In g (map fst fuzzy_vector) <-> In g Spec.scored_genres)
  /\ is_fuzzy_profile fuzzy_vector = true.
Proof.
  intros Hdraw. unfold binary_to_fuzzy.
  destruct (genre_loop draw Config.GENRES genre_vector ([], n))
    as [state|e] eqn:E; cbn [bind]; [|discriminate].
  intros H. inversion H; subst; clear H.
  destruct (genre_loop_settled draw Hdraw genre_vector _ _ _ E) as [_ Hs].
  destruct (genre_loop_keys draw genre_vector Config.GENRES ([], n) state
              (incl_refl _) (NoDup_nil _) E) as [Hnd Hkeys].
  rewrite update_where_map by exact Hnd.
  assert (Hsettled : forall g, In g Spec.scored_genres ->
            settled genre_vector
              (map (updated (fun _ => true) (fun _ v => clamp v)) (fst state))
              g).
  { intros g Hg. apply scored_genres_In in Hg. destruct Hg as [Hg Hne].
    destruct (Hs g Hg Hne) as (tag & v & Ht & Hv & Hgood).
    exists tag, (clamp v). split; [exact Ht|]. split.
    - rewrite lookup_updated, Hv. reflexivity.
    - destruct (Qeq_bool tag 0).
      + rewrite clamp_unit; [exact Hgood|]. rewrite Hgood. lra.
      + rewrite clamp_unit; [exact Hgood|]. lra. }
  split; [exact Hsettled|]. split; [rewrite updated_keys; exact Hnd|].
  split.
  - intros g. rewrite updated_keys. split.
    + intros Hg. destruct (Hkeys g Hg) as [[]|Hin]. exact Hin.
    + intros Hg. destruct (Hsettled g Hg) as (tag & v & _ & Hv & _).
      rewrite <- (updated_keys (fun _ => true) (fun _ v => clamp v)).
      apply lookup_In in Hv. apply (in_map fst) in Hv. exact Hv.
  - unfold is_fuzzy_profile. apply forallb_forall. intros kv Hkv.
    apply in_map_iff in Hkv. destruct Hkv as ([k v] & <- & _).
    unfold updated. cbn [fst snd]. pose proof (clamp_bounds v) as Hc.
    apply andb_true_iff. split; apply Qle_bool_iff; tauto.
Qed.

(** [binary_to_fuzzy] returns a vector when the genre vector has every
    scored genre, and otherwise raises the [KeyError] of a missing one. *)
Lemma binary_to_fuzzy_result (draw : nat -> Q) (n : nat)
    (genre_vector : dict) :
  (forallb (contains genre_vector) Spec.scored_genres = true ->
   exists r, binary_to_fuzzy draw n genre_vector = Ok r)
  /\ forall e, binary_to_fuzzy draw n genre_vector = Raise e ->
       exists g, In g Spec.scored_genres
                 /\ contains genre_vector g = false /\ e = KeyError g.
Proof.
  unfold binary_to_fuzzy.
  destruct (genre_loop_result draw genre_vector Config.GENRES ([], n))
    as [H1 H2].
  split.
  - intros Hall. destruct H1 as (state & ->); [|cbn [bind]; eauto].
    apply forallb_forall. intros g Hg.
    destruct (String.eqb g "unknown") eqn:E; [reflexivity|]. cbn [orb].
    rewrite forallb_forall in Hall. apply Hall. apply scored_genres_In.
    apply String.eqb_neq in E. auto.
  - intros e He.
    destruct (genre_loop draw Config.GENRES genre_vector ([], n))
      as [state|e'] eqn:E; cbn [bind] in He; [discriminate|].
    inversion He; subst e'.
    destruct (H2 e eq_refl) as (g & Hg & Hne & Hc & ->).
    exists g. split; [apply scored_genres_In; auto|]. auto.
Qed.

End FuzzifierTheorems.

Section DiverseEntries.

Import FuzzyRecommender.

(** The diversified list only rearranges entries of the plain top-50
    list: it contains catalog movies only and never a rated one. *)
Lemma diverse_respects_exclusions (up : user_profile_t) (df : DataFrame)
    (rated : list Z) (top_n : Z) (d : Q) (out : list recommendation) :
  generate_diverse_recommendations up df rated top_n d = Some (Ok out) ->
  exists pool,
    generate_recommendations up df rated 50 = Ok pool
    /\ Forall (fun r =>
                 In r pool
                 /\ (exists m, In m df /\ movie_id m = rec_movie_id r
                               /\ title m = rec_title r)
                 /\ ~ In (rec_movie_id r) rated) out.
Proof.
  intros H.
  destruct (diverse_pool up df rated top_n d) as (pool & Hg & _ & Hm & _).
  rewrite Hm in H. destruct (mmr_Permutation _ _ _ _ H) as (rest & HP).
  exists pool. split; [exact Hg|].
  pose proof (recommendations_from_unrated _ _ _ _ _ Hg)
    as Hall.
  rewrite Forall_forall in Hall |- *. intros r Hr.
  assert (Hin : In r pool).
  { apply (Permutation_in _ HP). apply in_or_app. left. exact Hr. }
  split; [exact Hin|]. exact (Hall r Hin).
Qed.

End DiverseEntries.

(** * The properties at concrete inputs *)

Section Witnesses.

Import FuzzySimilarity FuzzyRecommender RecommendationEvaluator.
Import FuzzyUserProfiler GenreFuzzifier.

Lemma fuzzy_jaccard_dice_range_witness :
  0 <= fuzzy_jaccard Samples.action_only Samples.comedy_only <= 1
  /\ 0 <= fuzzy_dice Samples.action_only Samples.comedy_only <= 1.
Proof.
  apply (fuzzy_jaccard_dice_range Samples.action_only Samples.comedy_only);
    reflexivity.
Defined.


Lemma similarity_zero_on_disjoint_supports_witness :
  fuzzy_jaccard Samples.action_only Samples.comedy_only == 0
  /\ fuzzy_cosine Samples.action_only Samples.comedy_only == 0
  /\ fuzzy_dice Samples.action_only Samples.comedy_only == 0
  /\ exists v,
       hybrid_similarity Samples.action_only Samples.comedy_only None = Ok v
       /\ v == 0.
Proof.
  apply (similarity_zero_on_disjoint_supports
           Samples.action_only Samples.comedy_only).
  - reflexivity.
  - reflexivity.
  - intros g Hin Hne.
    repeat (destruct Hin as [<-|Hin];
            [first [contradiction | left; reflexivity | right; reflexivity]|]).
    destruct Hin.
Defined.

Lemma hybrid_similarity_unit_weights_witness :
  exists v,
    hybrid_similarity Samples.action_only Samples.comedy_only
      (Some Samples.jaccard_only_weights) = Ok v
    /\ (1 == 1 -> 0 == 0 -> 0 == 0 ->
        v == fuzzy_jaccard Samples.action_only Samples.comedy_only)
    /\ (1 == 0 -> 0 == 1 -> 0 == 0 ->
        v == fuzzy_cosine Samples.action_only Samples.comedy_only)
    /\ (1 == 0 -> 0 == 0 -> 0 == 1 ->
        v == fuzzy_dice Samples.action_only Samples.comedy_only).
Proof.
  apply (hybrid_similarity_unit_weights Samples.action_only
           Samples.comedy_only Samples.jaccard_only_weights 1 0 0);
    reflexivity.
Defined.

Lemma get_top_movie_genres_spec_witness :
  let top := _get_top_movie_genres Examples.comedy_romance 3 in
  (length top <= Z.to_nat 3)%nat
  /\ Forall (fun gs => In gs Examples.comedy_romance /\ 1 # 10 < snd gs) top
  /\ StronglySorted (desc snd) top
  /\ (NoDup (map fst Examples.comedy_romance) -> NoDup (map fst top)).
Proof.
  apply (get_top_movie_genres_spec Examples.comedy_romance 3). lia.
Defined.

Lemma generate_recommendations_respects_exclusions_witness :
  exists out,
    generate_recommendations Examples.action_fan Samples.catalog3 [2%Z] 5
    = Ok out
    /\ Forall (fun r =>
                 (exists m, In m Samples.catalog3
                            /\ movie_id m = rec_movie_id r
                            /\ title m = rec_title r)
                 /\ ~ In (rec_movie_id r) [2%Z]) out.
Proof.
  eexists. split.
  - vm_compute. reflexivity.
  - apply (generate_recommendations_respects_exclusions Examples.action_fan
             Samples.catalog3 [2%Z] 5).
    vm_compute. reflexivity.
Defined.

Lemma generate_recommendations_genres_witness :
  exists out,
    generate_recommendations Examples.action_fan Samples.catalog3 [] 5 = Ok out
    /\ Forall (fun r =>
                 (length (genres r) <= 3)%nat
                 /\ Forall (fun gs => In (fst gs) Config.GENRES
                                      /\ fst gs <> "unknown"%string
                                      /\ 1 # 10 < snd gs) (genres r)
                 /\ StronglySorted (desc snd) (genres r)
                 /\ NoDup (map fst (genres r))) out.
Proof.
  eexists. split.
  - vm_compute. reflexivity.
  - apply (generate_recommendations_genres Examples.action_fan
             Samples.catalog3 [] 5).
    vm_compute. reflexivity.
Defined.

Lemma generate_recommendations_length_witness :
  exists out,
    generate_recommendations Examples.action_fan Samples.catalog3 [2%Z] 5
    = Ok out
    /\ length out =
       Nat.min (Z.to_nat 5) (length (unrated Samples.catalog3 [2%Z])).
Proof.
  apply (generate_recommendations_length Examples.action_fan
           Samples.catalog3 [2%Z] 5). lia.
Defined.

Lemma generate_recommendations_prefix_witness :
  exists out,
    generate_recommendations Examples.action_fan Samples.catalog3 [] 3 = Ok out
    /\ generate_recommendations Examples.action_fan Samples.catalog3 [] 1
       = Ok (firstn (Z.to_nat 1) out).
Proof.
  eexists. split.
  - vm_compute. reflexivity.
  - apply (generate_recommendations_prefix Examples.action_fan
             Samples.catalog3 [] 1 3); [lia|].
    vm_compute. reflexivity.
Defined.

Lemma diverse_first_pick_witness :
  exists diverse plain,
    generate_diverse_recommendations Examples.action_fan Samples.catalog3
      [] 2 (3 # 10) = Some (Ok diverse)
    /\ generate_recommendations Examples.action_fan Samples.catalog3 [] 2
       = Ok plain
    /\ hd_error diverse = hd_error plain.
Proof.
  eexists. eexists. split; [vm_compute; reflexivity|].
  split; [vm_compute; reflexivity|].
  apply (diverse_first_pick Examples.action_fan Samples.catalog3 [] 2
           (3 # 10)); [lia| |]; vm_compute; reflexivity.
Defined.

Lemma best_loop_argmax_witness :
  exists s b,
    best_loop 1 [Samples.rec_action]
      [Samples.rec_action2; Samples.rec_comedy] 0 (-1, (-1)%Z) = Ok (s, b)
    /\ -1 <= s /\ b = 1%Z.
Proof.
  eexists. eexists. split; [vm_compute; reflexivity|].
  destruct (best_loop_argmax 1 [Samples.rec_action]
              [Samples.rec_action2; Samples.rec_comedy] 0 (-1)
              (5 # 10) (-1) 1) as (H & _ & _).
  - vm_compute. reflexivity.
  - split; [exact H|reflexivity].
Defined.

Lemma diverse_zero_factor_is_plain_witness :
  exists out,
    generate_diverse_recommendations Examples.action_fan Samples.catalog3
      [] 2 0 = Some (Ok out)
    /\ generate_recommendations Examples.action_fan Samples.catalog3 []
         (Z.min 2 50) = Ok out.
Proof.
  eexists. split.
  - vm_compute. reflexivity.
  - apply (diverse_zero_factor_is_plain Examples.action_fan Samples.catalog3
             [] 2); [reflexivity|reflexivity|lia|].
    vm_compute. reflexivity.
Defined.

Lemma diverse_defined_witness :
  exists out,
    generate_diverse_recommendations Examples.action_fan Samples.catalog3
      [] 3 1 = Some (Ok out).
Proof.
  apply (diverse_defined Examples.action_fan Samples.catalog3 [] 3 1).
  intros m Hm.
  repeat (destruct Hm as [<-|Hm];
          [first [exists "Action"%string;
                  split; [right; left; reflexivity|];
                  split; [discriminate|reflexivity]
                 |exists "Comedy"%string;
                  split; [do 5 right; left; reflexivity|];
                  split; [discriminate|reflexivity]]|]).
  destruct Hm.
Defined.

Lemma diverse_respects_exclusions_witness :
  exists out pool,
    generate_diverse_recommendations Examples.action_fan Samples.catalog3
      [2%Z] 2 (3 # 10) = Some (Ok out)
    /\ generate_recommendations Examples.action_fan Samples.catalog3 [2%Z] 50
       = Ok pool
    /\ Forall (fun r =>
                 In r pool
                 /\ (exists m, In m Samples.catalog3
                               /\ movie_id m = rec_movie_id r
                               /\ title m = rec_title r)
                 /\ ~ In (rec_movie_id r) [2%Z]) out.
Proof.
  eexists.
  assert (E : generate_diverse_recommendations Examples.action_fan
                Samples.catalog3 [2%Z] 2 (3 # 10) = Some (Ok _))
    by (vm_compute; reflexivity).
  destruct (diverse_respects_exclusions _ _ _ _ _ _ E) as (pool & H).
  exists pool. split; [exact E|exact H].
Defined.

Lemma max_similarity_loop_max_witness :
  exists ms,
    max_similarity_loop [Samples.rec_action; Samples.rec_comedy]
      Samples.rec_action2 0 = Ok ms
    /\ 0 <= ms.
Proof.
  eexists. split; [vm_compute; reflexivity|].
  destruct (max_similarity_loop_max [Samples.rec_action; Samples.rec_comedy]
              Samples.rec_action2 0 1) as (H & _).
  - vm_compute. reflexivity.
  - exact H.
Defined.

End Witnesses.

Section MoreWitnesses.

Import FuzzyRecommender RecommendationEvaluator.
Import FuzzyUserProfiler GenreFuzzifier.

Lemma calculate_precision_at_k_range_witness :
  (exists p, calculate_precision_at_k [1; 2; 3]%Z [2; 5]%Z 2 = Ok p
             /\ 0 <= p <= 1)
  /\ calculate_precision_at_k [1; 2; 3]%Z [2; 5]%Z 0 = Raise ZeroDivisionError.
Proof.
  split.
  - apply (proj1 (calculate_precision_at_k_range [1; 2; 3]%Z [2; 5]%Z 2)).
    lia.
  - apply (proj2 (calculate_precision_at_k_range [1; 2; 3]%Z [2; 5]%Z 0)).
    + reflexivity.
    + discriminate.
Defined.

Lemma calculate_diversity_range_witness :
  exists v,
    calculate_diversity
      (map as_eval_rec
           [Samples.rec_action; Samples.rec_action2; Samples.rec_comedy])
    = Ok v
    /\ 0 <= v <= 1.
Proof.
  eexists. split.
  - vm_compute. reflexivity.
  - apply (calculate_diversity_range
             (map as_eval_rec
                  [Samples.rec_action; Samples.rec_action2;
                   Samples.rec_comedy])).
    vm_compute. reflexivity.
Defined.

Lemma create_user_profile_weighted_average_witness :
  exists pr,
    create_user_profile 1 Samples.ratings Samples.catalog3 = Some pr
    /\ pr_user_id pr = 1%Z
    /\ total_ratings pr = 2%nat
    /\ map fst (pr_profile pr) = Spec.scored_genres.
Proof.
  eexists. split; [vm_compute; reflexivity|].
  destruct (create_user_profile_weighted_average 1 Samples.ratings
              Samples.catalog3 _ ltac:(vm_compute; reflexivity))
    as (H1 & H2 & H3 & _).
  split; [exact H1|]. split; [exact H2|exact H3].
Defined.

Lemma create_user_profile_fuzzy_witness :
  exists pr,
    create_user_profile 1 Samples.ratings Samples.catalog3 = Some pr
    /\ is_fuzzy_profile (pr_profile pr) = true.
Proof.
  eexists. split; [vm_compute; reflexivity|].
  apply (create_user_profile_fuzzy 1 Samples.ratings Samples.catalog3).
  - reflexivity.
  - intros r Hr Hu.
    repeat (destruct Hr as [<-|Hr]; [cbn in *; lia|]). destruct Hr.
  - vm_compute. reflexivity.
Defined.

Lemma create_user_profile_all_ones_witness :
  exists pr,
    create_user_profile 2 Samples.ratings Samples.catalog3 = Some pr
    /\ get (pr_profile pr) "Action" 0 == 0.
Proof.
  eexists. split; [vm_compute; reflexivity|].
  apply (create_user_profile_all_ones 2 Samples.ratings Samples.catalog3).
  - intros r Hr Hu.
    repeat (destruct Hr as [<-|Hr];
            [first [reflexivity | cbn in Hu; discriminate]|]).
    destruct Hr.
  - vm_compute. reflexivity.
Defined.

Lemma get_top_genres_strongest_witness :
  let top := get_top_genres Samples.profile_record1 1 in
  length top =
  Nat.min (Z.to_nat 1) (length (pr_profile Samples.profile_record1))
  /\ StronglySorted (desc snd) top
  /\ exists rest,
       Permutation (top ++ rest) (pr_profile Samples.profile_record1)
       /\ forall x y, In x top -> In y rest -> snd y <= snd x.
Proof.
  apply (get_top_genres_strongest Samples.profile_record1 1). lia.
Defined.

Lemma binary_to_fuzzy_values_witness :
  exists fv n',
    binary_to_fuzzy Samples.half_draw 0 Samples.action_comedy_vector
    = Ok (fv, n')
    /\ (forall g, In g Spec.scored_genres ->
                  settled Samples.action_comedy_vector fv g)
    /\ NoDup (map fst fv)
    /\ (forall g, In g (map fst fv) <-> In g Spec.scored_genres)
    /\ is_fuzzy_profile fv = true.
Proof.
  eexists. eexists. split; [vm_compute; reflexivity|].
  eapply (binary_to_fuzzy_values Samples.half_draw 0);
    [intros i; unfold Samples.half_draw; split; discriminate|].
  vm_compute. reflexivity.
Defined.

Lemma binary_to_fuzzy_result_witness :
  (exists r,
     binary_to_fuzzy Samples.half_draw 0 Samples.action_comedy_vector = Ok r)
  /\ exists g,
       In g Spec.scored_genres
       /\ contains [("Action"%string, 1)] g = false
       /\ KeyError "Adventure" = KeyError g.
Proof.
  split.
  - apply (proj1 (binary_to_fuzzy_result Samples.half_draw 0
                    Samples.action_comedy_vector)).
    reflexivity.
  - apply (proj2 (binary_to_fuzzy_result Samples.half_draw 0
                    [("Action"%string, 1)])).
    vm_compute. reflexivity.
Defined.

End MoreWitnesses.
